(** * The WebSocket connection manager of the BUControl MCP server

    A shallow embedding of [WebSocketManager] (the client of the V2 bridge)
    and of [calculateBackoff], followed by the properties of the connection
    manager's contract. The second half of Part I adds the rest of the
    manager ([onStateChange], [findComponent]) and the code around it:
    [sendControl] of the legacy HTTP server, [connectWithRetry], the tool
    registry, the audio, screen and video tools, and [mapErrorToVoice].

    Conventions of the embedding.
    - [Date.now()] is an explicit argument [now : Z] (milliseconds).
    - The manager object is the record [Manager]; a method is a function
      from the manager to the manager (with a result where it has one).
    - A closure registered on the socket or on a timer is a constructor
      that records what the closure captured; the identifier [p] of the
      promise the closure settles gives it its identity, as the function
      object does for [socket.off].
    - Every call of a promise's [resolve] or [reject] is appended to
      [settled]; the promise itself keeps the first one only.
    - [logger] calls that mark a decision are appended to [logged].
    - A plain object used as a map is a [gmap] of its own properties.
      Where a property below is stated for every key, the members a
      look-up inherits from [Object.prototype] are part of the model
      ([inherited_key]); elsewhere the keys are taken to name none.
    - Fields that no property below reads ([serverIdentity],
      [controllerStatus], [statusListeners], [reconnectAttempt], the
      interval handles) are left out. *)

From Stdlib Require Import ZArith QArith Qminmax Lqa String List Bool Lia.
From Stdlib Require Import Ascii DecimalString.
From stdpp Require Import base gmap strings list.

Local Open Scope string_scope.
Local Open Scope Z_scope.
Local Open Scope list_scope.

(* ================================================================== *)
(** * Part I: the model *)
(* ================================================================== *)

(** ** JavaScript values *)

Module Js.

(** The values that travel in the payloads. Numbers are the integral ones. *)
Inductive JsValue : Type :=
| JUndefined
| JNull
| JBool (b : bool)
| JNum (n : Z)
| JStr (s : string)
| JObj (fields : JsFields)
with JsFields : Type :=
| FNil
| FCons (k : string) (v : JsValue) (rest : JsFields).

(** [Boolean(v)], the test behind [if (v)] and [v || w]. *)
Definition truthy (v : JsValue) : bool :=
  match v with
  | JUndefined | JNull => false
  | JBool b => b
  | JNum n => negb (n =? 0)
  | JStr s => negb (String.eqb s "")
  | JObj _ => true
  end.

(** [a || b] *)
Definition or_else (a b : JsValue) : JsValue := if truthy a then a else b.

(** The own property [k] of an object literal. *)
Fixpoint assoc (k : string) (fs : JsFields) : JsValue :=
  match fs with
  | FNil => JUndefined
  | FCons k' v fs' => if String.eqb k k' then v else assoc k fs'
  end.

(** [v.sources]: a [TypeError] ([None]) on [undefined] and [null], the own
    property on an object, [undefined] on the other primitives. *)
Definition get_sources (v : JsValue) : option JsValue :=
  match v with
  | JUndefined | JNull => None
  | JObj fs => Some (assoc "sources" fs)
  | _ => Some JUndefined
  end.

(** [s.includes(p)] *)
Definition includes (p s : string) : bool :=
  match index 0 p s with Some _ => true | None => false end.

(** A string in a boolean context. *)
Definition truthy_str (s : string) : bool := negb (String.eqb s "").

(** [x || d] for a numeric option of the configuration. *)
Definition num_or (x d : Z) : Z := if x =? 0 then d else x.

(** [Math.round (a / b)] for integers [a] and [b > 0]: half rounds up. *)
Definition round_div (a b : Z) : Z := (2 * a + b) / (2 * b).

End Js.
Import Js.

(** ** Payloads *)

(** A control descriptor [{ string, value }]. *)
Record Control : Type := { c_string : JsValue; c_value : JsValue }.

(** ['control:update'] : [{ controlId, control }]. *)
Record ControlUpdate : Type := { cu_controlId : string; cu_control : Control }.

(** The [component] of a ['component:state'] event: [{ id, controls }]. *)
Record ComponentPayload : Type :=
  { cp_id : option string; cp_controls : option (gmap string Control) }.

(** ['component:state'] : [{ componentId, component }]. *)
Record ComponentStateMsg : Type :=
  { csm_componentId : option string; csm_component : option ComponentPayload }.

(** One component of a discovery response: [{ name, controls }]. *)
Record Component : Type :=
  { comp_name : string; comp_controls : option (gmap string Control) }.

(** ['controller:state'] : [{ components }]; the components are listed in
    the order of [Object.entries]; [None] is a missing [components]. *)
Record ControllerStateMsg : Type :=
  { ctl_components : option (list (string * Component)) }.

(** ['control:set:success'] and ['control:set:error'] :
    [{ transactionId, message, error }]; the empty string is a missing
    [message] or [error]. *)
Record SetReply : Type :=
  { sr_transactionId : string; sr_message : string; sr_error : string }.

(** What the client emits. *)
Inductive WireMsg : Type :=
| MsgIdentify
| MsgControllerSubscribe (controllerId : string)
| MsgComponentSubscribe (controllerId componentId : string)
| MsgControlSet (controllerId componentId controlId : string)
    (value : JsValue) (transactionId : string)
| MsgPing (timestamp : Z).

(** An inbound event. *)
Inductive Inbound : Type :=
| InControlUpdate (d : ControlUpdate)
| InComponentState (d : ComponentStateMsg)
| InControllerState (d : ControllerStateMsg)
| InDigitalTwinReady
| InControlSetSuccess (d : SetReply)
| InControlSetError (d : SetReply).

(** The name the socket dispatches an inbound event under. *)
Definition event_name (e : Inbound) : string :=
  match e with
  | InControlUpdate _ => "control:update"
  | InComponentState _ => "component:state"
  | InControllerState _ => "controller:state"
  | InDigitalTwinReady => "digitaltwin:ready"
  | InControlSetSuccess _ => "control:set:success"
  | InControlSetError _ => "control:set:error"
  end.

(** ** The fields of the manager *)

Record ConnectionHealth : Type := {
  lastPingSent : Z;
  lastPongReceived : Z;
  missedPongs : Z;
  maxMissedPongs : Z;
  pongTimeout : Z
}.

Record Latency : Type := { lat_current : Z; lat_average : Z; lat_samples : list Z }.

Record CachedState : Type := {
  hardwareState : JsValue;
  connectedSources : JsValue;
  screenPower : JsValue;
  privacyGlass : JsValue;
  didoOutput : JsValue;
  lightingLevel : JsValue;
  volumeLevel : JsValue;
  timestamp : Z;
  TTL : Z
}.

(** The value fields of the cache, without the timestamp and the TTL. *)
Definition values (s : CachedState) : list JsValue :=
  [hardwareState s; connectedSources s; screenPower s; privacyGlass s;
   didoOutput s; lightingLevel s; volumeLevel s].

Record ComponentRecord : Type := {
  rec_id : string;
  rec_name : string;
  rec_controls : gmap string Control
}.

(** [data.component || data], as [subscribeToComponent] stores it. *)
Inductive WatchedState : Type :=
| WComponent (c : ComponentPayload)
| WData (d : ComponentStateMsg).

Record WatchRecord : Type := { subscribedAt : Z; watch_state : WatchedState }.

Record Config : Type := {
  controllerId : string;
  commandTimeout : Z;
  discoveryTimeout : Z;
  identifyTimeout : Z;
  connectionTimeout : Z
}.

(** ** Closures *)

(** The listeners of the socket. The first group is registered by [init],
    the second by a call of a method. *)
Inductive Listener : Type :=
| HConnect (p : nat)
| HDisconnect
| HConnectError (p : nat)
| HReconnect
| HReconnectAttempt
| HReconnectError
| HPong
| HControllerStatus
| HDigitalTwinReady
| HSystemReady
| HControlUpdate
| HComponentState
| OnSuccess (p : nat) (transactionId : string)
| OnError (p : nat) (transactionId : string)
| OnState (p : nat) (componentId : string)
| OnceControllerState (p : nat)
| OnceIdentifySuccess (p : nat).

#[global] Instance Listener_eq_dec : EqDecision Listener.
Proof. solve_decision. Defined.

Inductive Timer : Type :=
| TConnect (p : nat)
| TIdentify (p : nat)
| TDiscovery (p : nat)
| TCommand (p : nat) (transactionId : string)
| TSubscribe (p : nat).

#[global] Instance Timer_eq_dec : EqDecision Timer.
Proof. solve_decision. Defined.

(** A call of [resolve] or [reject]. *)
Inductive Settlement : Type :=
| ResolveInit
| ResolveIdentify
| ResolveDiscovery (success : bool) (componentCount : nat)
| ResolveCommand (transactionId : string)
| ResolveSubscribe (s : WatchedState)
| Reject (message : string).

Inductive LogMsg : Type :=
| LogConnected
| LogMissedPong (missed : Z)
| LogForcingReconnect (missed : Z)
| LogWaitingForReady
| LogReadyReceived
| LogReadyTimeout
| LogComponentFound (key id : string)
| LogAlreadySubscribed (componentId : string)
| LogSubscribed (componentId : string).

(** ** The manager *)

Record Manager : Type := {
  isConnected : bool;
  isIdentified : bool;
  connectionHealth : ConnectionHealth;
  latency : Latency;
  components : gmap string string;
  discoveredList : gmap string ComponentRecord;
  discoveredWatched : gmap string WatchRecord;
  state : CachedState;
  stateListeners : list nat;
  config : Config;
  handlers : list (string * Listener);
  outbox : list WireMsg;
  timers : list (Timer * Z);
  settled : list (nat * Settlement);
  notified : list (nat * CachedState);
  logged : list LogMsg;
  nextId : nat
}.

(** [components] holds the resolved roles only: a role that is [null] in
    the source has no entry. [handlers] is the listener table of
    [this.socket], in registration order; [outbox] is what was emitted;
    [timers] are the timeouts that are set and have neither fired nor been
    cleared, with their delays; [notified] is the calls of the state
    listeners, each with the cache it was handed. *)

Definition set_isConnected (b : bool) (m : Manager) : Manager :=
  Build_Manager b (isIdentified m) (connectionHealth m) (latency m)
    (components m) (discoveredList m) (discoveredWatched m) (state m)
    (stateListeners m) (config m) (handlers m) (outbox m) (timers m)
    (settled m) (notified m) (logged m) (nextId m).

Definition set_isIdentified (b : bool) (m : Manager) : Manager :=
  Build_Manager (isConnected m) b (connectionHealth m) (latency m)
    (components m) (discoveredList m) (discoveredWatched m) (state m)
    (stateListeners m) (config m) (handlers m) (outbox m) (timers m)
    (settled m) (notified m) (logged m) (nextId m).

Definition set_connectionHealth (h : ConnectionHealth) (m : Manager) : Manager :=
  Build_Manager (isConnected m) (isIdentified m) h (latency m)
    (components m) (discoveredList m) (discoveredWatched m) (state m)
    (stateListeners m) (config m) (handlers m) (outbox m) (timers m)
    (settled m) (notified m) (logged m) (nextId m).

Definition set_latency (l : Latency) (m : Manager) : Manager :=
  Build_Manager (isConnected m) (isIdentified m) (connectionHealth m) l
    (components m) (discoveredList m) (discoveredWatched m) (state m)
    (stateListeners m) (config m) (handlers m) (outbox m) (timers m)
    (settled m) (notified m) (logged m) (nextId m).

Definition set_components (c : gmap string string) (m : Manager) : Manager :=
  Build_Manager (isConnected m) (isIdentified m) (connectionHealth m) (latency m)
    c (discoveredList m) (discoveredWatched m) (state m)
    (stateListeners m) (config m) (handlers m) (outbox m) (timers m)
    (settled m) (notified m) (logged m) (nextId m).

Definition set_discoveredList (l : gmap string ComponentRecord) (m : Manager) : Manager :=
  Build_Manager (isConnected m) (isIdentified m) (connectionHealth m) (latency m)
    (components m) l (discoveredWatched m) (state m)
    (stateListeners m) (config m) (handlers m) (outbox m) (timers m)
    (settled m) (notified m) (logged m) (nextId m).

Definition set_discoveredWatched (w : gmap string WatchRecord) (m : Manager) : Manager :=
  Build_Manager (isConnected m) (isIdentified m) (connectionHealth m) (latency m)
    (components m) (discoveredList m) w (state m)
    (stateListeners m) (config m) (handlers m) (outbox m) (timers m)
    (settled m) (notified m) (logged m) (nextId m).

Definition set_state (s : CachedState) (m : Manager) : Manager :=
  Build_Manager (isConnected m) (isIdentified m) (connectionHealth m) (latency m)
    (components m) (discoveredList m) (discoveredWatched m) s
    (stateListeners m) (config m) (handlers m) (outbox m) (timers m)
    (settled m) (notified m) (logged m) (nextId m).

Definition set_config (c : Config) (m : Manager) : Manager :=
  Build_Manager (isConnected m) (isIdentified m) (connectionHealth m) (latency m)
    (components m) (discoveredList m) (discoveredWatched m) (state m)
    (stateListeners m) c (handlers m) (outbox m) (timers m)
    (settled m) (notified m) (logged m) (nextId m).

Definition set_handlers (h : list (string * Listener)) (m : Manager) : Manager :=
  Build_Manager (isConnected m) (isIdentified m) (connectionHealth m) (latency m)
    (components m) (discoveredList m) (discoveredWatched m) (state m)
    (stateListeners m) (config m) h (outbox m) (timers m)
    (settled m) (notified m) (logged m) (nextId m).

Definition set_outbox (o : list WireMsg) (m : Manager) : Manager :=
  Build_Manager (isConnected m) (isIdentified m) (connectionHealth m) (latency m)
    (components m) (discoveredList m) (discoveredWatched m) (state m)
    (stateListeners m) (config m) (handlers m) o (timers m)
    (settled m) (notified m) (logged m) (nextId m).

Definition set_timers (t : list (Timer * Z)) (m : Manager) : Manager :=
  Build_Manager (isConnected m) (isIdentified m) (connectionHealth m) (latency m)
    (components m) (discoveredList m) (discoveredWatched m) (state m)
    (stateListeners m) (config m) (handlers m) (outbox m) t
    (settled m) (notified m) (logged m) (nextId m).

Definition set_settled (s : list (nat * Settlement)) (m : Manager) : Manager :=
  Build_Manager (isConnected m) (isIdentified m) (connectionHealth m) (latency m)
    (components m) (discoveredList m) (discoveredWatched m) (state m)
    (stateListeners m) (config m) (handlers m) (outbox m) (timers m)
    s (notified m) (logged m) (nextId m).

Definition set_notified (n : list (nat * CachedState)) (m : Manager) : Manager :=
  Build_Manager (isConnected m) (isIdentified m) (connectionHealth m) (latency m)
    (components m) (discoveredList m) (discoveredWatched m) (state m)
    (stateListeners m) (config m) (handlers m) (outbox m) (timers m)
    (settled m) n (logged m) (nextId m).

Definition set_logged (l : list LogMsg) (m : Manager) : Manager :=
  Build_Manager (isConnected m) (isIdentified m) (connectionHealth m) (latency m)
    (components m) (discoveredList m) (discoveredWatched m) (state m)
    (stateListeners m) (config m) (handlers m) (outbox m) (timers m)
    (settled m) (notified m) l (nextId m).

Definition set_nextId (n : nat) (m : Manager) : Manager :=
  Build_Manager (isConnected m) (isIdentified m) (connectionHealth m) (latency m)
    (components m) (discoveredList m) (discoveredWatched m) (state m)
    (stateListeners m) (config m) (handlers m) (outbox m) (timers m)
    (settled m) (notified m) (logged m) n.

(** The manager the constructor builds. The source starts with a null
    configuration, which [init] replaces before anything reads it; here
    the manager holds a configuration from the start. *)
Definition new_manager (cfg : Config) : Manager := {|
  isConnected := false;
  isIdentified := false;
  connectionHealth := {| lastPingSent := 0; lastPongReceived := 0;
                         missedPongs := 0; maxMissedPongs := 3;
                         pongTimeout := 30000 |};
  latency := {| lat_current := 0; lat_average := 0; lat_samples := [] |};
  components := ∅;
  discoveredList := ∅;
  discoveredWatched := ∅;
  state := {| hardwareState := JNull; connectedSources := JNull;
              screenPower := JNull; privacyGlass := JNull;
              didoOutput := JNull; lightingLevel := JNull;
              volumeLevel := JNull; timestamp := 0; TTL := 5000 |};
  stateListeners := [];
  config := cfg;
  handlers := [];
  outbox := [];
  timers := [];
  settled := [];
  notified := [];
  logged := [];
  nextId := 0
|}.

(** ** The socket, the timers and the promises *)

(** [socket.on(ev, l)] *)
Definition on (ev : string) (l : Listener) (m : Manager) : Manager :=
  set_handlers (handlers m ++ [(ev, l)]) m.

Fixpoint remove_first {A} `{EqDecision A} (x : A) (hs : list A) : list A :=
  match hs with
  | [] => []
  | h :: hs' => if decide (h = x) then hs' else h :: remove_first x hs'
  end.

(** [socket.off(ev, l)]: the first registration of that function goes. *)
Definition off (ev : string) (l : Listener) (m : Manager) : Manager :=
  set_handlers (remove_first (ev, l) (handlers m)) m.

(** [socket.removeAllListeners(ev)] *)
Definition removeAllListeners (ev : string) (m : Manager) : Manager :=
  set_handlers (filter (fun h => h.1 <> ev) (handlers m)) m.

(** [socket.listeners(ev)] *)
Definition listeners (ev : string) (m : Manager) : list Listener :=
  (filter (fun h => h.1 = ev) (handlers m)).*2.

Definition listenerCount (ev : string) (m : Manager) : nat :=
  length (listeners ev m).

(** [socket.emit(...)] *)
Definition emit (w : WireMsg) (m : Manager) : Manager :=
  set_outbox (outbox m ++ [w]) m.

Definition setTimeout (t : Timer) (delay : Z) (m : Manager) : Manager :=
  set_timers (timers m ++ [(t, delay)]) m.

Definition clearTimeout (t : Timer) (m : Manager) : Manager :=
  set_timers (filter (fun e => e.1 <> t) (timers m)) m.

Definition timer_set (t : Timer) (m : Manager) : bool :=
  bool_decide (t ∈ (timers m).*1).

(** A call of [resolve] or [reject] of promise [p]. *)
Definition settle (p : nat) (o : Settlement) (m : Manager) : Manager :=
  set_settled (settled m ++ [(p, o)]) m.

(** The calls of [resolve] and [reject] of promise [p], oldest first. *)
Definition calls (p : nat) (m : Manager) : list Settlement :=
  (filter (fun e => e.1 = p) (settled m)).*2.

(** The state of promise [p]: the first settlement wins. *)
Definition outcome (p : nat) (m : Manager) : option Settlement :=
  head (calls p m).

Definition log (e : LogMsg) (m : Manager) : Manager :=
  set_logged (logged m ++ [e]) m.

(** A new closure identity. *)
Definition fresh (m : Manager) : nat * Manager := (nextId m, set_nextId (S (nextId m)) m).

(** ** Health: heartbeat, pong, liveness checker, [getConnectionHealth] *)

Definition with_missedPongs (n : Z) (h : ConnectionHealth) : ConnectionHealth :=
  {| lastPingSent := lastPingSent h; lastPongReceived := lastPongReceived h;
     missedPongs := n; maxMissedPongs := maxMissedPongs h;
     pongTimeout := pongTimeout h |}.

Definition with_lastPongReceived (t : Z) (h : ConnectionHealth) : ConnectionHealth :=
  {| lastPingSent := lastPingSent h; lastPongReceived := t;
     missedPongs := missedPongs h; maxMissedPongs := maxMissedPongs h;
     pongTimeout := pongTimeout h |}.

Definition with_lastPingSent (t : Z) (h : ConnectionHealth) : ConnectionHealth :=
  {| lastPingSent := t; lastPongReceived := lastPongReceived h;
     missedPongs := missedPongs h; maxMissedPongs := maxMissedPongs h;
     pongTimeout := pongTimeout h |}.

(** The baseline both ['connect'] and ['pong'] write. *)
Definition reset_health (now : Z) (m : Manager) : Manager :=
  set_connectionHealth
    (with_missedPongs 0 (with_lastPongReceived now (connectionHealth m))) m.

(** The listeners [init] registers on the socket it creates, in the order
    of the source; [p] is the promise [init] returns. *)
Definition init_handlers (p : nat) : list (string * Listener) :=
  [("connect", HConnect p); ("disconnect", HDisconnect);
   ("connect_error", HConnectError p); ("reconnect", HReconnect);
   ("reconnect_attempt", HReconnectAttempt);
   ("reconnect_error", HReconnectError); ("pong", HPong);
   ("controller:status", HControllerStatus);
   ("digitaltwin:ready", HDigitalTwinReady); ("system:ready", HSystemReady);
   ("control:update", HControlUpdate); ("component:state", HComponentState)].

(** The ['disconnect'] handler. *)
Definition on_disconnect (m : Manager) : Manager :=
  removeAllListeners "control:update"
    (removeAllListeners "component:state"
       (set_isIdentified false (set_isConnected false m))).

(** [disconnect()]: [socket.disconnect()] runs the ['disconnect'] handler
    of a socket that is connected. *)
Definition disconnect (m : Manager) : Manager :=
  let m1 := if isConnected m then on_disconnect m else m in
  set_isIdentified false (set_isConnected false m1).

(** [init(config)] up to the end of the executor of its promise: the
    configuration is stored, a new socket gets the listeners of [init],
    and the connection timeout is set. The result is the promise. *)
Definition init (cfg : Config) (m : Manager) : nat * Manager :=
  let (p, m1) := fresh (set_config cfg m) in
  let m2 := set_handlers (init_handlers p) m1 in
  (p, setTimeout (TConnect p) (num_or (connectionTimeout cfg) 20000) m2).

(** [reconnect()] up to its [await]. *)
Definition reconnect (m : Manager) : nat * Manager := init (config m) (disconnect m).

(** The first statements of the ['connect'] handler, up to the [try]. *)
Definition on_connect_begin (p : nat) (now : Z) (m : Manager) : Manager :=
  log LogConnected
    (reset_health now (set_isConnected true (clearTimeout (TConnect p) m))).

(** One run of the callback of [heartbeatInterval]. *)
Definition heartbeat_tick (now : Z) (m : Manager) : Manager :=
  if isConnected m then
    emit (MsgPing now)
      (set_connectionHealth (with_lastPingSent now (connectionHealth m)) m)
  else m.

(** [samples.push(latency)], then [shift()] beyond ten samples. *)
Definition push_sample (x : Z) (samples : list Z) : list Z :=
  let s := samples ++ [x] in
  if (10 <? length s)%nat then tail s else s.

Definition sum_Z (l : list Z) : Z := fold_left Z.add l 0.

(** The ['pong'] handler; [clientTimestamp] is [None] when it is falsy. *)
Definition on_pong (now : Z) (clientTimestamp : option Z) (m : Manager) : Manager :=
  let m1 := reset_health now m in
  match clientTimestamp with
  | None => m1
  | Some ts =>
      let lat := now - ts in
      let samples := push_sample lat (lat_samples (latency m1)) in
      set_latency
        {| lat_current := lat;
           lat_average := round_div (sum_Z samples) (Z.of_nat (length samples));
           lat_samples := samples |} m1
  end.

(** The condition under which the checker counts a pong as missed. *)
Definition pong_missed (now : Z) (h : ConnectionHealth) : bool :=
  (lastPingSent h >? lastPongReceived h)
  && (now - lastPongReceived h >? pongTimeout h).

(** One run of the callback of [connectionMonitorInterval]. *)
Definition monitor_tick (now : Z) (m : Manager) : Manager :=
  if negb (isConnected m) then m
  else
    let h := connectionHealth m in
    if pong_missed now h then
      let missed := missedPongs h + 1 in
      let m1 := set_connectionHealth (with_missedPongs missed h) m in
      let m2 := log (LogMissedPong missed) m1 in
      if missed >=? maxMissedPongs h then
        snd (reconnect (log (LogForcingReconnect missed) m2))
      else m2
    else m.

Inductive Health : Type := Healthy | Disconnected | Degraded | Stale.

Record HealthReport : Type := {
  hr_health : Health;
  hr_connected : bool;
  hr_identified : bool;
  hr_lastPingSent : Z;
  hr_lastPongReceived : Z;
  hr_timeSinceLastPong : Z;
  hr_missedPongs : Z;
  hr_latency : Z
}.

(** [getConnectionHealth()]: the report and the manager it leaves. *)
Definition getConnectionHealth (now : Z) (m : Manager) : HealthReport * Manager :=
  let h := connectionHealth m in
  let timeSinceLastPong := now - lastPongReceived h in
  let health :=
    if negb (isConnected m) then Disconnected
    else if missedPongs h >=? 2 then Degraded
    else if timeSinceLastPong >? 60000 then Stale
    else Healthy in
  ({| hr_health := health;
      hr_connected := isConnected m;
      hr_identified := isIdentified m;
      hr_lastPingSent := lastPingSent h;
      hr_lastPongReceived := lastPongReceived h;
      hr_timeSinceLastPong := round_div timeSinceLastPong 1000;
      hr_missedPongs := missedPongs h;
      hr_latency := lat_average (latency m) |}, m).

(** The events that drive the health fields of one manager. *)
Inductive HealthEvent : Type :=
| EvTick (now : Z)
| EvPing (now : Z)
| EvPong (now : Z) (clientTimestamp : option Z)
| EvConnect (now : Z)
| EvDisconnect.

(** The promise of the running [init]: the one its ['connect'] listener
    holds. *)
Definition connect_promise (m : Manager) : nat :=
  match listeners "connect" m with
  | HConnect p :: _ => p
  | _ => 0%nat
  end.

Definition health_step (m : Manager) (e : HealthEvent) : Manager :=
  match e with
  | EvTick now => monitor_tick now m
  | EvPing now => heartbeat_tick now m
  | EvPong now ts => on_pong now ts m
  | EvConnect now => on_connect_begin (connect_promise m) now m
  | EvDisconnect => on_disconnect m
  end.

Definition health_run (m : Manager) (es : list HealthEvent) : Manager :=
  fold_left health_step es m.

(** How often the checker counted a missed pong, and how often it forced
    a reconnect: its two log lines. *)
Definition is_missed (e : LogMsg) : bool :=
  match e with LogMissedPong _ => true | _ => false end.

Definition is_forced (e : LogMsg) : bool :=
  match e with LogForcingReconnect _ => true | _ => false end.

Definition missed_count (m : Manager) : nat := length (filter is_missed (logged m)).
Definition forced_count (m : Manager) : nat := length (filter is_forced (logged m)).

(** The misses counted towards the next forced reconnect. *)
Definition pending_misses (m : Manager) : nat :=
  if isConnected m then Z.to_nat (missedPongs (connectionHealth m)) else 0%nat.

(** A trace on which no pong arrives and the link does not drop by itself:
    the heartbeat and the checker run, and ['connect'] fires on a manager
    that is not connected only. *)
Fixpoint steady (m : Manager) (es : list HealthEvent) : Prop :=
  match es with
  | [] => True
  | e :: es' =>
      match e with
      | EvTick _ | EvPing _ => True
      | EvConnect _ => isConnected m = false
      | EvPong _ _ | EvDisconnect => False
      end
      /\ steady (health_step m e) es'
  end.

(** ** Objects used as maps *)

(** The names of the members of [Object.prototype]: [o[k]] on a plain
    object [o] without an own property [k] is that member for these names,
    and [undefined] for every other. Each member is truthy. *)
Definition inherited_key (k : string) : bool :=
  bool_decide (k ∈ ["constructor"; "__proto__"; "hasOwnProperty"; "isPrototypeOf";
                    "propertyIsEnumerable"; "toString"; "toLocaleString"; "valueOf";
                    "__defineGetter__"; "__defineSetter__"; "__lookupGetter__";
                    "__lookupSetter__"]).

(** ** State cache: [handleControlUpdate], [handleComponentState] *)

Inductive Field : Type :=
| FHardwareState | FScreenPower | FPrivacyGlass | FDidoOutput
| FLightingLevel | FVolumeLevel.

(** The table [map] of [handleControlUpdate]: its six own properties. The
    table is a plain object; for a control named as a member of
    [Object.prototype] the look-up of the source gives that member, which
    is outside this table. *)
Definition control_map (controlId : string) : option Field :=
  if String.eqb controlId "HardwareState" then Some FHardwareState
  else if String.eqb controlId "hdmi.enabled.button" then Some FScreenPower
  else if String.eqb controlId "pin.8.digital.out" then Some FPrivacyGlass
  else if String.eqb controlId "hdmi.out.1.select.hdmi.1" then Some FDidoOutput
  else if String.eqb controlId "ZoneDimLevel1" then Some FLightingLevel
  else if String.eqb controlId "output.1.gain" then Some FVolumeLevel
  else None.

Definition with_connectedSources (v : JsValue) (s : CachedState) : CachedState :=
  {| hardwareState := hardwareState s; connectedSources := v;
     screenPower := screenPower s; privacyGlass := privacyGlass s;
     didoOutput := didoOutput s; lightingLevel := lightingLevel s;
     volumeLevel := volumeLevel s; timestamp := timestamp s; TTL := TTL s |}.

Definition with_timestamp (t : Z) (s : CachedState) : CachedState :=
  {| hardwareState := hardwareState s; connectedSources := connectedSources s;
     screenPower := screenPower s; privacyGlass := privacyGlass s;
     didoOutput := didoOutput s; lightingLevel := lightingLevel s;
     volumeLevel := volumeLevel s; timestamp := t; TTL := TTL s |}.

(** [this.state[f] = v] *)
Definition set_field (f : Field) (v : JsValue) (s : CachedState) : CachedState :=
  {| hardwareState := match f with FHardwareState => v | _ => hardwareState s end;
     connectedSources := connectedSources s;
     screenPower := match f with FScreenPower => v | _ => screenPower s end;
     privacyGlass := match f with FPrivacyGlass => v | _ => privacyGlass s end;
     didoOutput := match f with FDidoOutput => v | _ => didoOutput s end;
     lightingLevel := match f with FLightingLevel => v | _ => lightingLevel s end;
     volumeLevel := match f with FVolumeLevel => v | _ => volumeLevel s end;
     timestamp := timestamp s; TTL := TTL s |}.

(** [notifyStateChange()]: every listener is called with the cache. *)
Definition notifyStateChange (m : Manager) : Manager :=
  set_notified (notified m ++ map (fun l => (l, state m)) (stateListeners m)) m.

Section Methods.

(** [JSON.parse], applied to the value it is handed; [None] is the
    [SyntaxError] it throws. *)
Variable JSON_parse : JsValue -> option JsValue.

(** [JSON.parse(c.string || c.value).sources]; [None] when the expression
    throws. *)
Definition parse_sources (c : Control) : option JsValue :=
  match JSON_parse (or_else (c_string c) (c_value c)) with
  | Some v => get_sources v
  | None => None
  end.

(** [try { this.state.connectedSources = ... } catch (e) {}] *)
Definition store_sources (c : Control) (s : CachedState) : CachedState :=
  match parse_sources c with
  | Some v => with_connectedSources v s
  | None => s
  end.

Definition handleControlUpdate (now : Z) (data : ControlUpdate) (m : Manager)
  : Manager :=
  let controlId := cu_controlId data in
  let control := cu_control data in
  let s :=
    if String.eqb controlId "ConnectedSources" then store_sources control (state m)
    else match control_map controlId with
         | Some f => set_field f (c_value control) (state m)
         | None => state m
         end in
  notifyStateChange (set_state (with_timestamp now s) m).

(** [if (c[name]) this.state[f] = c[name].value] *)
Definition copy_control (c : gmap string Control) (name : string) (f : Field)
    (s : CachedState) : CachedState :=
  match c !! name with
  | Some ctl => set_field f (c_value ctl) s
  | None => s
  end.

Definition handleComponentState (now : Z) (data : ComponentStateMsg) (m : Manager)
  : Manager :=
  match csm_component data ≫= cp_controls with
  | None => m
  | Some c =>
      let s0 := copy_control c "HardwareState" FHardwareState (state m) in
      let s1 := match c !! "ConnectedSources" with
                | Some ctl => store_sources ctl s0
                | None => s0
                end in
      let s2 := copy_control c "hdmi.enabled.button" FScreenPower s1 in
      let s3 := copy_control c "pin.8.digital.out" FPrivacyGlass s2 in
      let s4 := copy_control c "hdmi.out.1.select.hdmi.1" FDidoOutput s3 in
      let s5 := copy_control c "ZoneDimLevel1" FLightingLevel s4 in
      let s6 := copy_control c "output.1.gain" FVolumeLevel s5 in
      notifyStateChange (set_state (with_timestamp now s6) m)
  end.

(** ** Commands: [sendControl] *)

(** [cleanup()] of the command of promise [p]. *)
Definition cleanup (p : nat) (tid : string) (m : Manager) : Manager :=
  off "control:set:error" (OnError p tid)
    (off "control:set:success" (OnSuccess p tid) m).

Definition onSuccess (p : nat) (tid : string) (d : SetReply) (m : Manager) : Manager :=
  if String.eqb (sr_transactionId d) tid then
    settle p (ResolveCommand tid)
      (cleanup p tid (clearTimeout (TCommand p tid) m))
  else m.

(** [a || b] on strings *)
Definition or_str (a b : string) : string := if truthy_str a then a else b.

Definition onError (p : nat) (tid : string) (d : SetReply) (m : Manager) : Manager :=
  if String.eqb (sr_transactionId d) tid then
    settle p (Reject (or_str (sr_message d) (or_str (sr_error d) "Command failed")))
      (cleanup p tid (clearTimeout (TCommand p tid) m))
  else m.

(** The component a command addresses: an id when the key has a dash, the
    resolved role otherwise; [None] when [!componentId]. The look-up is
    that of the own properties of [this.components]; a key that names a
    member of [Object.prototype] is outside it. *)
Definition resolve_target (componentKey : string) (m : Manager) : option string :=
  if includes "-" componentKey then Some componentKey
  else match components m !! componentKey with
       | Some id => if truthy_str id then Some id else None
       | None => None
       end.

(** [sendControl(componentKey, controlId, value)]; [tid] is the
    transaction id the call draws. The result is the promise. *)
Definition sendControl (componentKey controlId : string) (value : JsValue)
    (tid : string) (m : Manager) : nat * Manager :=
  let (p, m0) := fresh m in
  if negb (isConnected m0) || negb (isIdentified m0) then
    (p, settle p (Reject "Not connected") m0)
  else
    match resolve_target componentKey m0 with
    | None => (p, settle p (Reject ("Component not found: " +:+ componentKey)) m0)
    | Some componentId =>
        let m1 := setTimeout (TCommand p tid) (num_or (commandTimeout (config m0)) 10000) m0 in
        let m2 := on "control:set:success" (OnSuccess p tid) m1 in
        let m3 := on "control:set:error" (OnError p tid) m2 in
        (p, emit (MsgControlSet (controllerId (config m0)) componentId controlId
                    value tid) m3)
    end.

(** ** Directory: [subscribeToComponent], [discoverComponents] *)

(** What the promise of the [async] method [subscribeToComponent] is:
    rejected with the error the body throws; resolved with the record
    [watched[componentId]] holds; resolved with the member of
    [Object.prototype] that [watched[componentId]] is when [watched], a
    plain object, has no own property of that name; or the promise [p] the
    body creates. *)
Inductive SubscribeResult : Type :=
| SubThrown (message : string)
| SubCached (r : WatchRecord)
| SubInherited (member : string)
| SubPending (p : nat).

Definition subscribeToComponent (componentId : string) (m : Manager)
  : SubscribeResult * Manager :=
  if negb (isConnected m) || negb (isIdentified m) then
    (SubThrown "Not connected", m)
  else
    match discoveredWatched m !! componentId with
    | Some r => (SubCached r, log (LogAlreadySubscribed componentId) m)
    | None =>
      if inherited_key componentId then
        (SubInherited componentId, log (LogAlreadySubscribed componentId) m)
      else
        let (p, m0) := fresh m in
        let m1 := setTimeout (TSubscribe p) (num_or (commandTimeout (config m0)) 10000) m0 in
        let m2 := on "component:state" (OnState p componentId) m1 in
        (SubPending p,
         emit (MsgComponentSubscribe (controllerId (config m0)) componentId) m2)
    end.

(** [data.component || data] *)
Definition watched_state (data : ComponentStateMsg) : WatchedState :=
  match csm_component data with
  | Some c => WComponent c
  | None => WData data
  end.

(** The listener [onState] of [subscribeToComponent]. *)
Definition onState (p : nat) (componentId : string) (now : Z)
    (data : ComponentStateMsg) (m : Manager) : Manager :=
  if bool_decide (csm_componentId data = Some componentId)
     || bool_decide (csm_component data ≫= cp_id = Some componentId) then
    let m1 := off "component:state" (OnState p componentId)
                (clearTimeout (TSubscribe p) m) in
    let m2 := set_discoveredWatched
                (<[componentId := {| subscribedAt := now;
                                     watch_state := watched_state data |}]>
                   (discoveredWatched m1)) m1 in
    settle p (ResolveSubscribe (watched_state data)) (log (LogSubscribed componentId) m2)
  else m.

(** The role patterns of [discoverComponents]. *)
Definition patterns : list (string * list string) :=
  [("videoWall", ["BUControl"; "Video Wall"]);
   ("hdmiDisplay", ["Generic_HDMI_Display"]);
   ("gpio", ["GPIO_Out_Core-Maktabi"]);
   ("hdmiDecoder", ["HDMI_I/ODecoder"]);
   ("lighting", ["LutronLEAPZone"]);
   ("mixer", ["Mixer_8x8_2"])].

(** The keys of [this.components], in the order of the constructor. *)
Definition role_keys : list string :=
  ["videoWall"; "hdmiDisplay"; "gpio"; "hdmiDecoder"; "lighting"; "mixer"].

(** [this.discoveredComponents.list[comp.name] = { id, name, controls }],
    for a name other than ['__proto__'] (under which the assignment stores
    no property of the directory). *)
Definition store_component (l : gmap string ComponentRecord)
    (e : string * Component) : gmap string ComponentRecord :=
  <[comp_name e.2 := {| rec_id := e.1; rec_name := comp_name e.2;
                        rec_controls := default ∅ (comp_controls e.2) |}]> l.

(** [entries.find(([, c]) => names.some(p => c.name.includes(p)))] *)
Definition find_role (names : list string) (entries : list (string * Component))
  : option (string * Component) :=
  List.find (fun e => existsb (fun p => includes p (comp_name e.2)) names) entries.

Definition resolve_role (entries : list (string * Component)) (m : Manager)
    (pat : string * list string) : Manager :=
  match find_role pat.2 entries with
  | Some found =>
      log (LogComponentFound pat.1 found.1)
        (set_components (<[pat.1 := found.1]> (components m)) m)
  | None => m
  end.

(** [Object.values(this.components).filter(Boolean)] *)
Definition known_components (m : Manager) : list string :=
  omap (fun k => match components m !! k with
                 | Some id => if truthy_str id then Some id else None
                 | None => None
                 end) role_keys.

(** The listener of ['controller:state'] that [discoverComponents]
    registers with [once], for the discovery of promise [p]. *)
Definition on_controller_state (p : nat) (data : ControllerStateMsg) (m : Manager)
  : Manager :=
  let m0 := clearTimeout (TDiscovery p)
              (off "controller:state" (OnceControllerState p) m) in
  match ctl_components data with
  | None => settle p (ResolveDiscovery false 0) m0
  | Some entries =>
      let m1 := set_discoveredList
                  (fold_left store_component entries (discoveredList m0)) m0 in
      let m2 := fold_left (resolve_role entries) patterns m1 in
      let m3 := fold_left
                  (fun m id => emit (MsgComponentSubscribe (controllerId (config m)) id) m)
                  (known_components m2) m2 in
      settle p (ResolveDiscovery true (length entries)) m3
  end.

(** [discoverComponents()] up to the end of the executor of its promise. *)
Definition discover_start (m : Manager) : nat * Manager :=
  let (p, m0) := fresh m in
  let m1 := setTimeout (TDiscovery p) (num_or (discoveryTimeout (config m0)) 10000) m0 in
  let m2 := on "controller:state" (OnceControllerState p) m1 in
  (p, emit (MsgControllerSubscribe (controllerId (config m0))) m2).

(** The ['digitaltwin:ready'] listener of [init]. *)
Definition on_digitaltwin_ready (m : Manager) : Manager :=
  if bool_decide (discoveredList m = ∅) then snd (discover_start m) else m.

(** ** Dispatch of inbound events and timers *)

Definition run_listener (now : Z) (e : Inbound) (l : Listener) (m : Manager)
  : Manager :=
  match e, l with
  | InControlUpdate d, HControlUpdate => handleControlUpdate now d m
  | InComponentState d, HComponentState => handleComponentState now d m
  | InComponentState d, OnState p cid => onState p cid now d m
  | InControllerState d, OnceControllerState p => on_controller_state p d m
  | InDigitalTwinReady, HDigitalTwinReady => on_digitaltwin_ready m
  | InControlSetSuccess d, OnSuccess p tid => onSuccess p tid d m
  | InControlSetError d, OnError p tid => onError p tid d m
  | _, _ => m
  end.

(** The socket hands an inbound event to the listeners that are registered
    for its name when it arrives, in registration order. *)
Definition recv (now : Z) (e : Inbound) (m : Manager) : Manager :=
  fold_left (fun m l => run_listener now e l m) (listeners (event_name e) m) m.

(** The callback of a timeout. *)
Definition timer_callback (t : Timer) (m : Manager) : Manager :=
  match t with
  | TConnect p => settle p (Reject "Connection timeout") m
  | TIdentify p => settle p (Reject "Identification timeout") m
  | TDiscovery p => settle p (ResolveDiscovery false 0) m
  | TCommand p tid => settle p (Reject "Command timeout") (cleanup p tid m)
  | TSubscribe p => settle p (Reject "Component subscribe timeout") m
  end.

(** A timeout that is still set fires: it is gone, its callback runs. *)
Definition fire (t : Timer) (m : Manager) : Manager :=
  if timer_set t m then timer_callback t (clearTimeout t m) else m.

(** ** [getState] *)

(** The two shapes of a state update. *)
Inductive StateUpdate : Type :=
| UpdControl (d : ControlUpdate)
| UpdComponent (d : ComponentStateMsg).

Definition inbound_of (u : StateUpdate) : Inbound :=
  match u with
  | UpdControl d => InControlUpdate d
  | UpdComponent d => InComponentState d
  end.

(** [getState()] called at [now]. [grace] is the state updates that arrive
    on the socket during the 100 ms the method sleeps after a refresh
    request, each with its arrival time. The result is the cache the
    method returns, the time it slept and the manager it leaves. *)
Definition getState (now : Z) (grace : list (Z * StateUpdate)) (m : Manager)
  : CachedState * Z * Manager :=
  if now - timestamp (state m) >? TTL (state m) then
    let m1 := emit (MsgControllerSubscribe (controllerId (config m))) m in
    let m2 := fold_left (fun m tu => recv tu.1 (inbound_of tu.2) m) grace m1 in
    (state m2, 100, m2)
  else (state m, 0, m).

(** ** The handshake: [identify], [discoverComponents], ['connect'] *)

(** [await this.identify()]: [answered] says whether
    ['client:identify:success'] arrives before the timeout. The result is
    [false] when the promise rejects. *)
Definition identify (answered : bool) (m : Manager) : bool * Manager :=
  let (p, m0) := fresh m in
  let m1 := setTimeout (TIdentify p) (num_or (identifyTimeout (config m0)) 5000) m0 in
  let m2 := on "client:identify:success" (OnceIdentifySuccess p) m1 in
  let m3 := emit MsgIdentify m2 in
  if answered then
    (true, settle p ResolveIdentify
             (set_isIdentified true
                (clearTimeout (TIdentify p)
                   (off "client:identify:success" (OnceIdentifySuccess p) m3))))
  else (false, fire (TIdentify p) m3).

(** What [discoverComponents] resolves with on a response. *)
Definition discovery_result (data : ControllerStateMsg) : bool * nat :=
  match ctl_components data with
  | Some entries => (true, length entries)
  | None => (false, 0%nat)
  end.

(** [await this.discoverComponents()]: [response] is the
    ['controller:state'] event that arrives before the timeout, if one
    does. The result is [(success, componentCount)]. *)
Definition discoverComponents (now : Z) (response : option ControllerStateMsg)
    (m : Manager) : bool * nat * Manager :=
  let (p, m1) := discover_start m in
  match response with
  | Some data => (discovery_result data, recv now (InControllerState data) m1)
  | None => (false, 0%nat, fire (TDiscovery p) m1)
  end.

(** What the bridge does during one run of the ['connect'] handler. *)
Record ConnectEnv : Type := {
  env_identified : bool;
  env_discovery1 : option ControllerStateMsg;
  env_ready : option Z;
  env_discovery2 : option ControllerStateMsg
}.

(** The wait for ['digitaltwin:ready']: [ready] is the delay after which
    the event arrives, if it does. The listener of [init] for the event is
    registered before the [once] of the wait and runs first. The [once]
    listener and the 30 s timeout of the wait only write a log line and
    call [r]; the log line of the one that ends the wait is kept, and the
    two are not entered in the tables of listeners and timeouts. The
    result is the time waited. *)
Definition wait_ready (now : Z) (ready : option Z) (m : Manager) : Z * Manager :=
  match ready with
  | Some t =>
      if t <? 30000 then (t, log LogReadyReceived (recv (now + t) InDigitalTwinReady m))
      else (30000, log LogReadyTimeout m)
  | None => (30000, log LogReadyTimeout m)
  end.

(** The ['connect'] handler of the [init] of promise [p]. The result is the
    time spent waiting for ['digitaltwin:ready']. *)
Definition on_connect (p : nat) (now : Z) (env : ConnectEnv) (m : Manager)
  : Z * Manager :=
  let m1 := on_connect_begin p now m in
  let (identified, m2) := identify (env_identified env) m1 in
  if negb identified then (0, settle p (Reject "Identification timeout") m2)
  else
    let '(success, componentCount, m3) := discoverComponents now (env_discovery1 env) m2 in
    if negb success || (componentCount =? 0)%nat then
      let m4 := log LogWaitingForReady m3 in
      let (waited, m5) := wait_ready now (env_ready env) m4 in
      let '(_, _, m6) := discoverComponents (now + waited) (env_discovery2 env) m5 in
      (waited, settle p ResolveInit m6)
    else (0, settle p ResolveInit m3).

(** ** Traces of commands *)

(** What can happen to the commands of a connection: a call of
    [sendControl], a ['control:set:success'] or ['control:set:error'] event
    from the bridge, the timeout of a command. *)
Inductive CommandEvent : Type :=
| CmdSend (componentKey controlId : string) (value : JsValue) (tid : string)
| CmdSuccess (now : Z) (d : SetReply)
| CmdError (now : Z) (d : SetReply)
| CmdTimeout (p : nat) (tid : string).

Definition command_step (m : Manager) (e : CommandEvent) : Manager :=
  match e with
  | CmdSend k c v tid => snd (sendControl k c v tid m)
  | CmdSuccess now d => recv now (InControlSetSuccess d) m
  | CmdError now d => recv now (InControlSetError d) m
  | CmdTimeout p tid => fire (TCommand p tid) m
  end.

Definition command_run (m : Manager) (es : list CommandEvent) : Manager :=
  fold_left command_step es m.

End Methods.

(** A fragment of [JSON.parse] for the examples: the documents it knows
    parse as [JSON.parse] parses them; it rejects every other string, and
    [JSON.parse] rejects the ones the examples use as well. *)
Definition parse_fragment (v : JsValue) : option JsValue :=
  match v with
  | JStr s =>
      if String.eqb s "null" then Some JNull
      else if String.eqb s "true" then Some (JBool true)
      else if String.eqb s "false" then Some (JBool false)
      else if String.eqb s "{}" then Some (JObj FNil)
      else if String.eqb s "0" then Some (JNum 0)
      else None
  | JNum n => Some (JNum n)
  | JBool b => Some (JBool b)
  | JNull => Some JNull
  | JUndefined | JObj _ => None
  end.

Definition sample_config : Config :=
  {| controllerId := "core-1"; commandTimeout := 0; discoveryTimeout := 0;
     identifyTimeout := 0; connectionTimeout := 0 |}.

(** A manager whose [init] has run and whose socket has connected at
    time 0. *)
Definition connected_manager : Manager :=
  health_step (init sample_config (new_manager sample_config)).2 (EvConnect 0).

(** The link drops after the first ping, and the intervals keep running. *)
Definition dropped_link : Manager :=
  health_run connected_manager [EvPing 25000; EvDisconnect].

(** A [ConnectedSources] control whose payload is not JSON. *)
Definition bad_control : Control :=
  {| c_string := JStr "not json"; c_value := JUndefined |}.

Definition bad_update : ControlUpdate :=
  {| cu_controlId := "ConnectedSources"; cu_control := bad_control |}.

Definition bad_controls : gmap string Control :=
  <["ConnectedSources" := bad_control]>
    (<["HardwareState" := {| c_string := JUndefined; c_value := JNum 1 |}]> ∅).

(** A snapshot that carries it next to a [HardwareState] of 1. *)
Definition bad_snapshot : ComponentStateMsg :=
  {| csm_componentId := Some "comp-1";
     csm_component := Some {| cp_id := Some "comp-1";
                              cp_controls := Some bad_controls |} |}.

(** Two discovery responses: the second does not list the mixer. *)
Definition first_discovery : ControllerStateMsg :=
  {| ctl_components :=
       Some [("comp-1", {| comp_name := "Mixer_8x8_2"; comp_controls := None |})] |}.

Definition second_discovery : ControllerStateMsg :=
  {| ctl_components :=
       Some [("comp-2", {| comp_name := "LutronLEAPZone 1"; comp_controls := None |})] |}.

(** A bridge that identifies the client and lists the mixer. *)
Definition sample_env : ConnectEnv :=
  {| env_identified := true; env_discovery1 := Some first_discovery;
     env_ready := None; env_discovery2 := None |}.

(** A manager whose handshake has completed at time 0. *)
Definition ready_manager : Manager :=
  (on_connect parse_fragment 0 0 sample_env (init sample_config (new_manager sample_config)).2).2.

(** A bridge that identifies the client and has no component yet. *)
Definition empty_env : ConnectEnv :=
  {| env_identified := true;
     env_discovery1 := Some {| ctl_components := Some [] |};
     env_ready := None;
     env_discovery2 := Some {| ctl_components := Some [] |} |}.

(** Two commands: the first succeeds, the second times out and its error
    reply arrives late. *)
Definition two_commands : list CommandEvent :=
  [CmdSend "mixer" "output.1.gain" (JNum 5) "mcp-1-aaaa";
   CmdSend "mixer" "output.1.gain" (JNum 7) "mcp-2-bbbb";
   CmdSuccess 10 {| sr_transactionId := "mcp-1-aaaa"; sr_message := "";
                    sr_error := "" |};
   CmdTimeout 4 "mcp-2-bbbb";
   CmdError 20 {| sr_transactionId := "mcp-2-bbbb"; sr_message := "late";
                  sr_error := "" |}].

(** The names a discovery response carries. *)
Definition names_of (entries : list (string * Component)) : list string :=
  map (fun e => comp_name e.2) entries.

(** Two minutes without a pong: pings every 25 s, checks every 30 s. *)
Definition silent_two_minutes : list HealthEvent :=
  [EvPing 25000; EvTick 30000; EvPing 50000; EvTick 60000; EvPing 75000;
   EvTick 90000; EvPing 100000; EvTick 120000].

(** The commands in flight: those whose timeout is set. *)
Definition in_flight (m : Manager) : list (nat * string) :=
  omap (fun e => match e.1 with TCommand p tid => Some (p, tid) | _ => None end)
       (timers m).

(** The commands whose listeners are registered. *)
Definition command_of_success (l : Listener) : option (nat * string) :=
  match l with OnSuccess p tid => Some (p, tid) | _ => None end.

Definition command_of_error (l : Listener) : option (nat * string) :=
  match l with OnError p tid => Some (p, tid) | _ => None end.

Definition success_listeners (m : Manager) : list (nat * string) :=
  omap command_of_success (listeners "control:set:success" m).

Definition error_listeners (m : Manager) : list (nat * string) :=
  omap command_of_error (listeners "control:set:error" m).

(** What the three ends of a command have in common: the timeout is
    cleared (or has fired), [cleanup()] runs, the promise is settled. *)
Definition complete (p : nat) (tid : string) (o : Settlement) (m : Manager) : Manager :=
  settle p o (cleanup p tid (clearTimeout (TCommand p tid) m)).

(** The command a listener ends on a reply of the bridge, with the
    settlement. *)
Definition completion (e : Inbound) (l : Listener) : option (nat * string * Settlement) :=
  match e, l with
  | InControlSetSuccess d, OnSuccess p tid =>
      if String.eqb (sr_transactionId d) tid then Some (p, tid, ResolveCommand tid)
      else None
  | InControlSetError d, OnError p tid =>
      if String.eqb (sr_transactionId d) tid then
        Some (p, tid, Reject (or_str (sr_message d) (or_str (sr_error d) "Command failed")))
      else None
  | _, _ => None
  end.

(** The command whose listener for the reply [e] the listener [l] is. *)
Definition command_of (e : Inbound) (l : Listener) : option (nat * string) :=
  match e with
  | InControlSetSuccess _ => command_of_success l
  | InControlSetError _ => command_of_error l
  | _ => None
  end.

(** The commands the reply [e] ends when the listeners [ls] run. *)
Definition completions (e : Inbound) (ls : list Listener)
  : list (nat * string * Settlement) :=
  omap (completion e) ls.

(** No command is in flight, and no promise of a later call is settled. *)
Definition idle (m : Manager) : Prop :=
  in_flight m = []
  /\ success_listeners m = []
  /\ error_listeners m = []
  /\ forall p, (nextId m <= p)%nat -> calls p m = [].

(** The invariant of the commands issued since [m0]: the commands in
    flight are those whose two listeners are registered, each once; a
    command in flight is not settled; a command no longer in flight has
    been settled by one call; the listeners of each of the two events are
    those of [m0] and one per command in flight. *)
Definition tracked (m0 m : Manager) : Prop :=
  success_listeners m = in_flight m
  /\ error_listeners m = in_flight m
  /\ NoDup (in_flight m).*1
  /\ (nextId m0 <= nextId m)%nat
  /\ (forall p tid, (p, tid) ∈ in_flight m ->
        (nextId m0 <= p < nextId m)%nat /\ calls p m = [])
  /\ (forall p, (nextId m0 <= p < nextId m)%nat -> p ∉ (in_flight m).*1 ->
        length (calls p m) = 1%nat)
  /\ (forall p, (nextId m <= p)%nat -> calls p m = [])
  /\ listenerCount "control:set:success" m
     = (listenerCount "control:set:success" m0 + length (in_flight m))%nat
  /\ listenerCount "control:set:error" m
     = (listenerCount "control:set:error" m0 + length (in_flight m))%nat.

(** How many [t]-messages the client has emitted. *)
Definition is_controller_subscribe (w : WireMsg) : bool :=
  match w with MsgControllerSubscribe _ => true | _ => false end.

Definition is_component_subscribe (componentId : string) (w : WireMsg) : bool :=
  match w with
  | MsgComponentSubscribe _ c => String.eqb c componentId
  | _ => false
  end.

(** The event answers the subscription to [componentId]: the test of
    [onState]. *)
Definition matches (componentId : string) (d : ComponentStateMsg) : Prop :=
  csm_componentId d = Some componentId
  \/ csm_component d ≫= cp_id = Some componentId.

(** How many ['controller:subscribe'] requests the client has emitted. *)
Definition discovery_requests (m : Manager) : nat :=
  length (filter is_controller_subscribe (outbox m)).


(** The first discovery brought no component: it timed out, or carried no
    [components], or carried none. *)
Definition no_components (response : option ControllerStateMsg) : Prop :=
  match response with
  | Some data => match ctl_components data with
                 | Some entries => entries = []
                 | None => True
                 end
  | None => True
  end.

(** The invariant of a steady trace under a threshold of 3: the misses
    logged are three per forced reconnect, plus those pending. *)
Definition balanced (base_missed base_forced : nat) (m : Manager) : Prop :=
  maxMissedPongs (connectionHealth m) = 3
  /\ (isConnected m = true -> 0 <= missedPongs (connectionHealth m) < 3)
  /\ (base_forced <= forced_count m)%nat
  /\ missed_count m
     = (base_missed + 3 * (forced_count m - base_forced) + pending_misses m)%nat.

(** ** [calculateBackoff] *)

Section Backoff.

(** [CONFIG.reconnectionDelayBase] and [CONFIG.reconnectionDelayMax]. *)
Variables reconnectionDelayBase reconnectionDelayMax : Q.

(** [calculateBackoff(attempt)], with the draw of [Math.random()] as the
    argument [random]; numbers are exact rationals. *)
Definition calculateBackoff (attempt : nat) (random : Q) : Q :=
  (Qmin (reconnectionDelayBase * inject_Z (2 ^ Z.of_nat attempt))
        reconnectionDelayMax
   * (1 + random * (1 # 4)))%Q.

(** The formula of the specification, with the jitter as an argument. *)
Definition backoff_spec (attempt : nat) (jitter : Q) : Q :=
  (Qmin (reconnectionDelayBase * inject_Z (2 ^ Z.of_nat attempt))
        reconnectionDelayMax
   * (1 + jitter))%Q.

(** The [n] equally likely draws [0/n, 1/n, ..., (n-1)/n] of a uniform
    generator of resolution [n] on the interval from 0 to 1. *)
Definition draws (n : nat) : list Q :=
  map (fun k => (Z.of_nat k # Pos.of_nat n)%Q) (seq 0 n).

Definition Qsum (l : list Q) : Q := fold_right Qplus 0%Q l.

(** The expected value of [calculateBackoff attempt] over the draws. *)
Definition expected_backoff (n : nat) (attempt : nat) : Q :=
  (Qsum (map (calculateBackoff attempt) (draws n)) / inject_Z (Z.of_nat n))%Q.

End Backoff.

(* ================================================================== *)
(** * Part I, continued: the rest of the manager, and its callers *)
(* ================================================================== *)

(** ** State listeners: [onStateChange] *)

Definition set_stateListeners (l : list nat) (m : Manager) : Manager :=
  Build_Manager (isConnected m) (isIdentified m) (connectionHealth m) (latency m)
    (components m) (discoveredList m) (discoveredWatched m) (state m)
    l (config m) (handlers m) (outbox m) (timers m)
    (settled m) (notified m) (logged m) (nextId m).

(** [onStateChange(listener)] up to its [return]: [stateListeners] is a
    [Set], in which a listener that is registered already keeps its
    place. *)
Definition onStateChange (listener : nat) (m : Manager) : Manager :=
  if bool_decide (listener ∈ stateListeners m) then m
  else set_stateListeners (stateListeners m ++ [listener]) m.

(** The function [onStateChange] returns:
    [() => this.stateListeners.delete(listener)]. *)
Definition stateListeners_delete (listener : nat) (m : Manager) : Manager :=
  set_stateListeners (filter (fun l => l <> listener) (stateListeners m)) m.

(** [this.state[f]] *)
Definition get_field (f : Field) (s : CachedState) : JsValue :=
  match f with
  | FHardwareState => hardwareState s
  | FScreenPower => screenPower s
  | FPrivacyGlass => privacyGlass s
  | FDidoOutput => didoOutput s
  | FLightingLevel => lightingLevel s
  | FVolumeLevel => volumeLevel s
  end.

(** A snapshot of the component [id] that carries the one control
    [controlId]. *)
Definition snapshot_of (id : string) (d : ControlUpdate) : ComponentStateMsg :=
  {| csm_componentId := Some id;
     csm_component :=
       Some {| cp_id := Some id;
               cp_controls := Some {[ cu_controlId d := cu_control d ]} |} |}.

(** ** [findComponent] *)

(** [c.toLowerCase()] on a character of ASCII. *)
Definition lower_ascii (c : ascii) : ascii :=
  let n := nat_of_ascii c in
  if ((65 <=? n) && (n <=? 90))%nat then ascii_of_nat (n + 32) else c.

(** [s.toLowerCase()]; the strings are those of ASCII. *)
Fixpoint toLowerCase (s : string) : string :=
  match s with
  | EmptyString => EmptyString
  | String c s' => String (lower_ascii c) (toLowerCase s')
  end.

(** [findComponent(name)]; [keys] is [Object.keys] of the directory, in
    the order the runtime enumerates them. *)
Definition findComponent (keys : list string) (name : string) (m : Manager)
  : option ComponentRecord :=
  match List.find (fun n => includes (toLowerCase name) (toLowerCase n)) keys with
  | Some k => if truthy_str k then discoveredList m !! k else None
  | None => None
  end.

(** [keys] enumerates the names under which the directory holds a
    record. *)
Definition enumerates (keys : list string) (m : Manager) : Prop :=
  forall k, k ∈ keys <-> is_Some (discoveredList m !! k).

(** ** The legacy HTTP server: [sendControl] *)

(** The legacy server keeps the socket and the two flags in variables of
    the module; here they are the fields of a [Manager]. The two listeners
    of a command capture the promise and the transaction id, as those of
    the connection manager do, and are written with the same
    constructors. *)
Module Legacy.

(** The listener [success]. *)
Definition success (p : nat) (tid : string) (d : SetReply) (m : Manager) : Manager :=
  if String.eqb (sr_transactionId d) tid then
    settle p (ResolveCommand tid)
      (off "control:set:error" (OnError p tid)
         (off "control:set:success" (OnSuccess p tid)
            (clearTimeout (TCommand p tid) m)))
  else m.

(** The listener [error]. *)
Definition error (p : nat) (tid : string) (d : SetReply) (m : Manager) : Manager :=
  if String.eqb (sr_transactionId d) tid then
    settle p (Reject (or_str (sr_message d) "Command failed"))
      (off "control:set:error" (OnError p tid)
         (off "control:set:success" (OnSuccess p tid)
            (clearTimeout (TCommand p tid) m)))
  else m.

(** [sendControl(componentId, controlId, value)]; [componentId] is [None]
    when it is [null] or [undefined]. *)
Definition sendControl (componentId : option string) (controlId : string)
    (value : JsValue) (tid : string) (m : Manager) : nat * Manager :=
  let (p, m0) := fresh m in
  if negb (isConnected m0) || negb (isIdentified m0) then
    (p, settle p (Reject "Not connected") m0)
  else
    match componentId with
    | None => (p, settle p (Reject "Component not found") m0)
    | Some id =>
        if truthy_str id then
          let m1 := setTimeout (TCommand p tid) (commandTimeout (config m0)) m0 in
          let m2 := on "control:set:success" (OnSuccess p tid) m1 in
          let m3 := on "control:set:error" (OnError p tid) m2 in
          (p, emit (MsgControlSet (controllerId (config m0)) id controlId value tid) m3)
        else (p, settle p (Reject "Component not found") m0)
    end.

Definition run_listener (e : Inbound) (l : Listener) (m : Manager) : Manager :=
  match e, l with
  | InControlSetSuccess d, OnSuccess p tid => success p tid d m
  | InControlSetError d, OnError p tid => error p tid d m
  | _, _ => m
  end.

(** The delivery of a reply of the bridge to the listeners of its name. *)
Definition recv (e : Inbound) (m : Manager) : Manager :=
  fold_left (fun m l => run_listener e l m) (listeners (event_name e) m) m.

(** The timeout of the command of promise [p] fires:
    [() => reject(new Error('Command timeout'))]. *)
Definition timeout (p : nat) (tid : string) (m : Manager) : Manager :=
  if timer_set (TCommand p tid) m then
    settle p (Reject "Command timeout") (clearTimeout (TCommand p tid) m)
  else m.

(** A command is sent and its timeout fires. *)
Definition lost_command (m : Manager) (c : string * string * JsValue * string)
  : Manager :=
  let '(id, controlId, value, tid) := c in
  let (p, m1) := sendControl (Some id) controlId value tid m in
  timeout p tid m1.

End Legacy.

(** The same on the connection manager. *)
Definition lost_command (m : Manager) (c : string * string * JsValue * string)
  : Manager :=
  let '(key, controlId, value, tid) := c in
  let (p, m1) := sendControl key controlId value tid m in
  fire (TCommand p tid) m1.

(** ** [connectWithRetry] *)

Record RetryRun : Type := {
  rr_connected : bool;      (* the function returned from inside the loop *)
  rr_attempts : nat;        (* the calls of [init] *)
  rr_sleeps : list Q        (* the delays slept, oldest first *)
}.

Section Retry.

Variables reconnectionDelayBase reconnectionDelayMax : Q.

(** [succeeds attempt] says whether the promise of [init] resolves at that
    attempt; [random attempt] is the draw of [Math.random()] in its
    [catch]. *)
Variable succeeds : nat -> bool.
Variable random : nat -> Q.

(** The [for] loop of [connectWithRetry(maxRetries)] at [attempt], with
    [left] iterations to go. *)
Fixpoint retry_loop (maxRetries left attempt : nat) : RetryRun :=
  match left with
  | O => {| rr_connected := false; rr_attempts := 0; rr_sleeps := [] |}
  | S left' =>
      if succeeds attempt then
        {| rr_connected := true; rr_attempts := 1; rr_sleeps := [] |}
      else
        let delay :=
          calculateBackoff reconnectionDelayBase reconnectionDelayMax attempt
            (random attempt) in
        let r := retry_loop maxRetries left' (S attempt) in
        {| rr_connected := rr_connected r;
           rr_attempts := S (rr_attempts r);
           rr_sleeps := (if (attempt <? maxRetries)%nat then [delay] else [])
                        ++ rr_sleeps r |}
  end.

Definition connectWithRetry (maxRetries : nat) : RetryRun :=
  retry_loop maxRetries maxRetries 1.

End Retry.

(** ** The tool registry *)

(** A tool, without its handler and its schema. [None] is a property that
    is missing; the empty string is a missing description. *)
Record Tool : Type := {
  tool_name : string;
  tool_description : string;
  tool_voiceDescription : string;
  tool_aliases : option (list string);
  tool_voiceEnabled : option bool;
  tool_isAlias : bool;
  tool_originalName : option string
}.

(** [{ ...tool, isAlias: true, originalName: tool.name }] *)
Definition alias_of (t : Tool) : Tool :=
  {| tool_name := tool_name t;
     tool_description := tool_description t;
     tool_voiceDescription := tool_voiceDescription t;
     tool_aliases := tool_aliases t;
     tool_voiceEnabled := tool_voiceEnabled t;
     tool_isAlias := true;
     tool_originalName := Some (tool_name t) |}.

(** The registry is a [Map]: its entries in insertion order. *)
Definition Registry : Type := list (string * Tool).

(** [Map.prototype.set]: a key that is present keeps its place. *)
Fixpoint map_set (k : string) (v : Tool) (r : Registry) : Registry :=
  match r with
  | [] => [(k, v)]
  | e :: r' => if String.eqb e.1 k then (k, v) :: r' else e :: map_set k v r'
  end.

(** [getTool(name)] *)
Definition getTool (name : string) (r : Registry) : option Tool :=
  match List.find (fun e => String.eqb e.1 name) r with
  | Some e => Some e.2
  | None => None
  end.

(** [registerTool(tool)]; [None] is the error ['Tool must have a name']. *)
Definition registerTool (r : Registry) (tool : Tool) : option Registry :=
  if truthy_str (tool_name tool) then
    let r1 := map_set (tool_name tool) tool r in
    Some (match tool_aliases tool with
          | Some aliases =>
              fold_left (fun r alias => map_set alias (alias_of tool) r) aliases r1
          | None => r1
          end)
  else None.

(** [getAllTools()] *)
Definition getAllTools (r : Registry) : list Tool :=
  filter (fun t => tool_isAlias t = false) r.*2.

(** [initializeTools()] for the tools [tools]: [forEach] stops at the
    first error. *)
Definition initializeTools (tools : list Tool) : option Registry :=
  fold_left (fun r tool => match r with
                           | Some r => registerTool r tool
                           | None => None
                           end) tools (Some []).

(** The names a tool claims in the registry. *)
Definition names_claimed (t : Tool) : list string :=
  tool_name t :: default [] (tool_aliases t).

(** ** What a caller can ask of the manager between two events *)

Inductive ClientCall : Type :=
| CallSendControl (componentKey controlId : string) (value : JsValue) (tid : string)
| CallSubscribe (componentId : string)
| CallHeartbeat (now : Z)
| CallMonitor (now : Z).

Definition client_step (m : Manager) (c : ClientCall) : Manager :=
  match c with
  | CallSendControl k c v tid => (sendControl k c v tid m).2
  | CallSubscribe cid => (subscribeToComponent cid m).2
  | CallHeartbeat now => heartbeat_tick now m
  | CallMonitor now => monitor_tick now m
  end.

Definition is_send (c : ClientCall) : bool :=
  match c with CallSendControl _ _ _ _ => true | _ => false end.

(** The promises a run of calls rejects with ['Not connected'] on a
    manager that is not connected: one per [sendControl], in order. *)
Definition refused (m : Manager) (cs : list ClientCall) : list (nat * Settlement) :=
  map (fun p => (p, Reject "Not connected"))
      (seq (nextId m) (length (filter is_send cs))).

(** How often the state listener [l] has been called. *)
Definition notifications (l : nat) (m : Manager) : nat :=
  length (filter (fun e => e.1 = l) (notified m)).

(** What the liveness checker may write to the log under a threshold of
    [k]: a miss is logged with the counter it reached, a forced reconnect
    with the threshold. *)
Definition checker_log_ok (k : Z) (e : LogMsg) : Prop :=
  match e with
  | LogMissedPong n => 1 <= n <= k
  | LogForcingReconnect n => n = k
  | _ => True
  end.

(** A pong has answered the last ping, and the checker runs at the times
    [ticks] before the next ping goes out. *)
Definition checks_after_pong (now : Z) (clientTimestamp : option Z)
    (ticks : list Z) (m : Manager) : Manager :=
  fold_left (fun m t => monitor_tick t m) ticks (on_pong now clientTimestamp m).

(** A bridge that does not answer [client:identify]. *)
Definition silent_env : ConnectEnv :=
  {| env_identified := false; env_discovery1 := None;
     env_ready := None; env_discovery2 := None |}.

(** A discovery whose response comes after its timeout: the request, the
    timeout, and the late ['controller:state'] event at [now]. *)
Definition late_discovery (JSON_parse : JsValue -> option JsValue)
    (now : Z) (d : ControllerStateMsg) (m : Manager) : nat * Manager * Manager :=
  let (p, m1) := discover_start m in
  let m2 := fire (TDiscovery p) m1 in
  (p, m2, recv JSON_parse now (InControllerState d) m2).

(** A subscription whose answer comes after its timeout: the call, the
    timeout of its promise, and the late ['component:state'] event. *)
Definition late_subscription (JSON_parse : JsValue -> option JsValue)
    (componentId : string) (now : Z) (d : ComponentStateMsg) (m : Manager)
  : SubscribeResult * Manager * Manager :=
  let (r, m1) := subscribeToComponent componentId m in
  let m2 := match r with SubPending p => fire (TSubscribe p) m1 | _ => m1 end in
  (r, m2, recv JSON_parse now (InComponentState d) m2).

(** A command is sent and [reconnect()] is called before the bridge has
    answered. *)
Definition stranded_command (k c : string) (v : JsValue) (tid : string) (m : Manager)
  : nat * Manager :=
  let (p, m1) := sendControl k c v tid m in
  (p, (reconnect m1).2).

(** The entries a tool contributes to a registry in which none of its
    names is taken: itself under its name, then a copy under each alias. *)
Definition entries_of (t : Tool) : list (string * Tool) :=
  (tool_name t, t) :: map (fun a => (a, alias_of t)) (default [] (tool_aliases t)).

(** Two tools of the repository: [list_sources] has an alias. *)
Definition set_source_tool : Tool :=
  {| tool_name := "set_source";
     tool_description := "Switch video wall to a single source.";
     tool_voiceDescription := "Switch video wall source.";
     tool_aliases := None; tool_voiceEnabled := None;
     tool_isAlias := false; tool_originalName := None |}.

Definition list_sources_tool : Tool :=
  {| tool_name := "list_sources";
     tool_description := "List video sources and their connection status";
     tool_voiceDescription := "List available video sources and connection status.";
     tool_aliases := Some ["list_video_sources"]; tool_voiceEnabled := None;
     tool_isAlias := false; tool_originalName := None |}.

(** ** Constants of the tools *)

(** [o[k]] on an object literal [o]: its own property, or the member of
    [Object.prototype] the key names, or [undefined]. *)
Inductive Property (A : Type) : Type :=
| Own (v : A)
| Inherited
| Missing.
Arguments Own {A} v.
Arguments Inherited {A}.
Arguments Missing {A}.

(** The entries of [VOLUME_MAP], in the order of the literal. *)
Definition volume_entries : list (string * Z) :=
  [("mute", -100); ("low", -40); ("medium", -20); ("high", 0); ("max", 10)].

Definition source_entries : list (string * Z) :=
  [("laptop", 1); ("clickshare", 2); ("appletv", 3); ("apple tv", 3);
   ("conference", 4); ("conf", 4)].

Definition lookup_literal (entries : list (string * Z)) (k : string) : Property Z :=
  match List.find (fun e => String.eqb e.1 k) entries with
  | Some e => Own e.2
  | None => if inherited_key k then Inherited else Missing
  end.

(** [VOLUME_MAP[k]] and [SOURCE_IDS[k]] *)
Definition VOLUME_MAP (k : string) : Property Z := lookup_literal volume_entries k.
Definition SOURCE_IDS (k : string) : Property Z := lookup_literal source_entries k.

(** [SOURCE_NAMES[n]] for a number [n] *)
Definition SOURCE_NAMES (n : Z) : option string :=
  if n =? 1 then Some "Laptop"
  else if n =? 2 then Some "ClickShare"
  else if n =? 3 then Some "AppleTV"
  else if n =? 4 then Some "Conference"
  else None.

(** [String(n)] for an integer. *)
Definition string_of_Z (n : Z) : string := NilZero.string_of_int (Z.to_int n).

(** [Math.max(lo, Math.min(hi, n))] *)
Definition clamp (lo hi n : Z) : Z := Z.max lo (Z.min hi n).

(** ** Tools *)

(** A handler up to the command it awaits: it throws before it has sent
    one, or returns without one, or awaits the promise [p] of the one
    command it sends; it then returns [result] when the promise resolves
    and throws the error of the promise when it rejects. *)
Inductive ToolStep (A : Type) : Type :=
| Threw (message : string)
| Returned (result : A)
| Awaiting (p : nat) (result : A).
Arguments Threw {A} message.
Arguments Returned {A} result.
Arguments Awaiting {A} p result.

(** *** Audio: [set_volume], [get_volume] *)

(** The argument [level]: a number, a string, or a value of another
    type. *)
Inductive Level : Type :=
| LevelNum (n : Z)
| LevelStr (s : string)
| LevelOther.

(** [dbValue]; [inl] is the error thrown. A level that names a member of
    [Object.prototype] passes the test against [undefined]; the value is
    then that member, which is not a number, written [JObj FNil]. *)
Definition volume_db (level : Level) : string + JsValue :=
  match level with
  | LevelStr s =>
      match VOLUME_MAP (toLowerCase s) with
      | Own v => inr (JNum v)
      | Inherited => inr (JObj FNil)
      | Missing => inl "Invalid volume level. Use: mute, low, medium, high, max"
      end
  | LevelNum n => inr (JNum (clamp (-100) 10 n))
  | LevelOther => inl "Invalid volume level"
  end.

Record VolumeResult : Type := { vr_level : JsValue; vr_levelName : option string }.

Section Tools.

(** [JSON.parse], [Number] on a string and [parseInt] on a string;
    [None] is [NaN]. *)
Variable JSON_parse : JsValue -> option JsValue.
Variable Number_of_string : string -> option Z.
Variable parseInt : string -> option Z.

(** [Number(v)] *)
Definition to_number (v : JsValue) : option Z :=
  match v with
  | JUndefined => None
  | JNull => Some 0
  | JBool b => Some (if b then 1 else 0)
  | JNum n => Some n
  | JStr s => Number_of_string s
  | JObj _ => None
  end.

(** [Object.entries(VOLUME_MAP).find(([, v]) => Math.abs(v - dbValue) <
    threshold)?.[0]] *)
Definition level_name (threshold : Z) (dbValue : JsValue) : option string :=
  match to_number dbValue with
  | Some n =>
      match List.find (fun e => Z.abs (e.2 - n) <? threshold) volume_entries with
      | Some e => Some e.1
      | None => None
      end
  | None => None
  end.

Definition set_volume (level : Level) (tid : string) (m : Manager)
  : ToolStep VolumeResult * Manager :=
  match volume_db level with
  | inl message => (Threw message, m)
  | inr dbValue =>
      let (p, m') := sendControl "mixer" "output.1.gain" dbValue tid m in
      (Awaiting p {| vr_level := dbValue; vr_levelName := level_name 2 dbValue |}, m')
  end.

Definition get_volume (now : Z) (grace : list (Z * StateUpdate)) (m : Manager)
  : VolumeResult * Manager :=
  let '(s, _, m') := getState JSON_parse now grace m in
  ({| vr_level := volumeLevel s; vr_levelName := level_name 5 (volumeLevel s) |}, m').

(** *** Screen: [screen_power], [get_screen_power] *)

Record PowerResult : Type := { pr_alreadySet : bool; pr_enabled : bool }.

(** [v === 1] *)
Definition is_one (v : JsValue) : bool :=
  match v with JNum n => n =? 1 | _ => false end.

(** [screen_power({ on })], for a boolean [on]. *)
Definition screen_power (on : bool) (now : Z) (grace : list (Z * StateUpdate))
    (tid : string) (m : Manager) : ToolStep PowerResult * Manager :=
  let '(s, _, m1) := getState JSON_parse now grace m in
  let currentOn := is_one (screenPower s) in
  if Bool.eqb currentOn on then
    (Returned {| pr_alreadySet := true; pr_enabled := on |}, m1)
  else
    let (p, m2) := sendControl "hdmiDisplay" "hdmi.enabled.button"
                     (JNum (if on then 1 else 0)) tid m1 in
    (Awaiting p {| pr_alreadySet := false; pr_enabled := on |}, m2).

Definition get_screen_power (now : Z) (grace : list (Z * StateUpdate)) (m : Manager)
  : bool * Manager :=
  let '(s, _, m') := getState JSON_parse now grace m in
  (is_one (screenPower s), m').

(** *** Video: [set_source], [set_layout], [parseCurrentSource] *)

(** [String(v)] *)
Definition to_String (v : JsValue) : string :=
  match v with
  | JUndefined => "undefined"
  | JNull => "null"
  | JBool b => if b then "true" else "false"
  | JNum n => string_of_Z n
  | JStr s => s
  | JObj _ => "[object Object]"
  end.

(** The value of a decimal digit. *)
Definition digit_of (c : ascii) : option Z :=
  let n := nat_of_ascii c in
  if ((48 <=? n) && (n <=? 57))%nat then Some (Z.of_nat (n - 48)) else None.

(** [parseInt(s.match(/W1S(\d)/)[1])]: the digit of the leftmost match;
    [None] when there is no match. *)
Fixpoint match_W1S (s : string) : option Z :=
  match s with
  | EmptyString => None
  | String c rest =>
      match s with
      | String "W" (String "1" (String "S" (String d _))) =>
          match digit_of d with
          | Some n => Some n
          | None => match_W1S rest
          end
      | _ => match_W1S rest
      end
  end.

Definition parseCurrentSource (hardwareState : JsValue) : option Z :=
  if truthy hardwareState then match_W1S (to_String hardwareState) else None.

(** The argument [source]: a whole number or a string. (The schema of the
    tools admits every number; one with a fraction is outside this
    type.) *)
Inductive SourceArg : Type :=
| SourceNum (n : Z)
| SourceStr (s : string).

(** [sourceId] after the look-up by name and the range check; [None] when
    the handler throws. *)
Definition resolve_source (a : SourceArg) : option Z :=
  let candidate :=
    match a with
    | SourceNum n => Some n
    | SourceStr s =>
        match SOURCE_IDS (toLowerCase s) with
        | Own v => if v =? 0 then parseInt s else Some v
        | Inherited => None
        | Missing => parseInt s
        end
    end in
  match candidate with
  | Some n => if (n <? 1) || (n >? 4) then None else Some n
  | None => None
  end.

(** The [WindowCommand] of one source on the whole wall. *)
Definition window_command (sourceId : Z) : string :=
  "BV1:E:A1:1:W1S" +:+ string_of_Z sourceId +:+ "X0Y0W100H100A0".

Record SourceResult : Type := {
  sr_alreadySet : bool;
  sr_source : Z;
  sr_sourceName : option string
}.

Definition set_source (a : SourceArg) (now : Z) (grace : list (Z * StateUpdate))
    (tid : string) (m : Manager) : ToolStep SourceResult * Manager :=
  match resolve_source a with
  | None => (Threw "Invalid source. Use 1-4 or: laptop, clickshare, appletv, conference", m)
  | Some sourceId =>
      let '(s, _, m1) := getState JSON_parse now grace m in
      if bool_decide (parseCurrentSource (hardwareState s) = Some sourceId) then
        (Returned {| sr_alreadySet := true; sr_source := sourceId;
                     sr_sourceName := SOURCE_NAMES sourceId |}, m1)
      else
        let (p, m2) := sendControl "videoWall" "WindowCommand"
                         (JStr (window_command sourceId)) tid m1 in
        (Awaiting p {| sr_alreadySet := false; sr_source := sourceId;
                       sr_sourceName := SOURCE_NAMES sourceId |}, m2)
  end.

(** A window of [set_layout]; [None] is a property that is missing, and
    the numbers are whole numbers. *)
Record Window : Type := {
  win_source : SourceArg;
  win_x : option Z;
  win_y : option Z;
  win_width : option Z;
  win_height : option Z;
  win_opacity : option Z
}.

(** One window of the command, before it is written out. *)
Record WindowPart : Type := {
  wp_index : Z;
  wp_source : Z;
  wp_x : Z;
  wp_y : Z;
  wp_w : Z;
  wp_h : Z;
  wp_alpha : Z
}.

(** [v || d] for a number or [undefined] *)
Definition or_num (v : option Z) (d : Z) : Z :=
  match v with
  | Some n => if n =? 0 then d else n
  | None => d
  end.

(** [`${win.source}`] *)
Definition source_text (a : SourceArg) : string :=
  match a with
  | SourceNum n => string_of_Z n
  | SourceStr s => s
  end.

(** The callback of [windows.map]; [inl] is the error it throws. *)
Definition window_part (i : nat) (win : Window) : string + WindowPart :=
  match resolve_source (win_source win) with
  | None => inl ("Invalid source " +:+ source_text (win_source win))
  | Some sourceId =>
      inr {| wp_index := Z.of_nat i + 1;
             wp_source := sourceId;
             wp_x := clamp 0 100 (or_num (win_x win) 0);
             wp_y := clamp 0 100 (or_num (win_y win) 0);
             wp_w := clamp 1 100 (or_num (win_width win) 100);
             wp_h := clamp 1 100 (or_num (win_height win) 100);
             wp_alpha := 100 - clamp 0 100 (default 100 (win_opacity win)) |}
  end.

(** [windows.map(...)] from index [i]; it stops at the first window that
    throws. *)
Fixpoint window_parts (i : nat) (windows : list Window) : string + list WindowPart :=
  match windows with
  | [] => inr []
  | win :: rest =>
      match window_part i win with
      | inl message => inl message
      | inr part =>
          match window_parts (S i) rest with
          | inr parts => inr (part :: parts)
          | inl message => inl message
          end
      end
  end.

Definition render_part (part : WindowPart) : string :=
  "W" +:+ string_of_Z (wp_index part) +:+ "S" +:+ string_of_Z (wp_source part)
  +:+ "X" +:+ string_of_Z (wp_x part) +:+ "Y" +:+ string_of_Z (wp_y part)
  +:+ "W" +:+ string_of_Z (wp_w part) +:+ "H" +:+ string_of_Z (wp_h part)
  +:+ "A" +:+ string_of_Z (wp_alpha part).

(** [parts.join(':')] *)
Fixpoint join_colon (parts : list string) : string :=
  match parts with
  | [] => ""
  | [part] => part
  | part :: rest => part +:+ ":" +:+ join_colon rest
  end.

Definition layout_command (parts : list WindowPart) : string :=
  "BV1:E:A1:" +:+ string_of_Z (Z.of_nat (length parts)) +:+ ":"
  +:+ join_colon (map render_part parts).

(** The windows of the command of [set_layout]; [inl] is the error the
    handler throws. A [windows] that is missing or not an array is the
    empty list. *)
Definition layout_parts (windows : list Window) : string + list WindowPart :=
  match windows with
  | [] => inl "No windows specified"
  | _ =>
      if (4 <? length windows)%nat then inl "Maximum 4 windows allowed"
      else window_parts 0 windows
  end.

(** [set_layout({ windows })]; the result is the number of windows. *)
Definition set_layout (windows : list Window) (tid : string) (m : Manager)
  : ToolStep nat * Manager :=
  match layout_parts windows with
  | inl message => (Threw message, m)
  | inr parts =>
      let (p, m') := sendControl "videoWall" "WindowCommand"
                       (JStr (layout_command parts)) tid m in
      (Awaiting p (length windows), m')
  end.

End Tools.

(** *** Voice: [mapErrorToVoice] *)

(** [mapErrorToVoice(error)] on [error.message]. *)
Definition mapErrorToVoice (message : string) : string :=
  if includes "Timeout" message || includes "timeout" message then
    "System not responding."
  else if includes "Not connected" message || includes "not connected" message then
    "Connection lost."
  else if includes "Component not found" message then "Device not available."
  else "Command failed.".

(** The [error] the voice webhook answers with for a tool that awaits a
    promise with the settlement [o]: the message of a rejection, mapped. *)
Definition voice_error (o : Settlement) : option string :=
  match o with
  | Reject message => Some (mapErrorToVoice message)
  | _ => None
  end.

(** A component key that contains none of the words [mapErrorToVoice]
    looks for first. *)
Definition plain_key (k : string) : Prop :=
  includes "Timeout" k = false /\ includes "timeout" k = false
  /\ includes "Not connected" k = false /\ includes "not connected" k = false.

(** The ranges of the fields of a window of a [WindowCommand]. *)
Definition part_in_range (part : WindowPart) : Prop :=
  1 <= wp_source part <= 4
  /\ 0 <= wp_x part <= 100 /\ 0 <= wp_y part <= 100
  /\ 1 <= wp_w part <= 100 /\ 1 <= wp_h part <= 100
  /\ 0 <= wp_alpha part <= 100.

(** The window [{ source }], with every other property missing. *)
Definition whole_wall (a : SourceArg) : Window :=
  {| win_source := a; win_x := None; win_y := None; win_width := None;
     win_height := None; win_opacity := None |}.

(** ** The sockets a manager has had *)

(** [init] assigns a new socket to [this.socket]. The socket it replaces
    keeps the listeners it has: [on], [off] and [emit] of the manager act
    on [this.socket], and nothing refers to the old socket any more. A
    manager together with the listener tables of the sockets it has
    replaced, the latest first. *)
Record Sockets : Type := {
  manager : Manager;
  replaced : list (list (string * Listener))
}.

(** [socket.listeners(ev)] of a socket with the table [hs]. *)
Definition listeners_of (ev : string) (hs : list (string * Listener)) : list Listener :=
  (filter (fun h => h.1 = ev) hs).*2.

(** [reconnect()] up to its [await]: [disconnect()] runs on the socket in
    use, which [init] then replaces. *)
Definition reconnect_socket (w : Sockets) : Sockets :=
  {| manager := (reconnect (manager w)).2;
     replaced := handlers (disconnect (manager w)) :: replaced w |}.

(** A timeout runs; its callback acts on the socket in use. *)
Definition fire_socket (t : Timer) (w : Sockets) : Sockets :=
  {| manager := fire t (manager w); replaced := replaced w |}.

(** A command is sent on the first socket of a manager, [reconnect()] is
    called before the bridge has answered, and the timeout of the command
    runs. *)
Definition command_across_reconnect (k c : string) (v : JsValue) (tid : string)
    (m : Manager) : nat * Sockets :=
  let (p, m1) := sendControl k c v tid m in
  (p, fire_socket (TCommand p tid) (reconnect_socket {| manager := m1; replaced := [] |})).

(** ** Runs of calls on a manager: what [subscribeToComponent] answers *)

Definition is_subscribe (c : ClientCall) : bool :=
  match c with CallSubscribe _ => true | _ => false end.

(** The results of the [subscribeToComponent] calls of a run, in order. *)
Fixpoint subscribe_results (m : Manager) (cs : list ClientCall) : list SubscribeResult :=
  match cs with
  | [] => []
  | c :: cs' =>
      match c with
      | CallSubscribe cid => [(subscribeToComponent cid m).1]
      | _ => []
      end ++ subscribe_results (client_step m c) cs'
  end.

(** ** Strings of ASCII *)

(** Every character of [s] is below 128. On these strings [toLowerCase]
    above is the [toLowerCase] of the runtime. *)
Definition ascii_only (s : string) : bool :=
  forallb (fun c => (nat_of_ascii c <? 128)%nat) (list_ascii_of_string s).

(** A source given as a whole number, or by a string of ASCII. *)
Definition plain_source (a : SourceArg) : bool :=
  match a with
  | SourceNum _ => true
  | SourceStr s => ascii_only s
  end.

(** ** A bridge whose ready signal comes in time *)


(* ================================================================== *)
(** * Part II: properties *)
(* ================================================================== *)

(** ** The model at work *)

(** A connection that has been silent for 70 s is stale. *)
Example health_of_silent_connection :
  hr_health (getConnectionHealth 70000 connected_manager).1 = Stale.
Proof. reflexivity. Qed.

(** After two minutes without a pong the checker has torn the connection
    down. *)
Example health_after_forced_reconnect :
  hr_health (getConnectionHealth 120000
               (health_run connected_manager silent_two_minutes)).1 = Disconnected.
Proof. vm_compute. reflexivity. Qed.

(** The third attempt with a draw of one half: 8000 ms and 12.5 % on top. *)
Example backoff_third_attempt :
  (calculateBackoff 1000 30000 3 (1 # 2) == 9000)%Q.
Proof. vm_compute. reflexivity. Qed.

(** The tenth attempt is capped. *)
Example backoff_tenth_attempt :
  (calculateBackoff 1000 30000 10 0 == 30000)%Q.
Proof. vm_compute. reflexivity. Qed.

(** The handshake of [ready_manager]: identification, one discovery that
    finds the mixer, one subscription to it. *)
Example ready_manager_outbox :
  outbox ready_manager
  = [MsgIdentify; MsgControllerSubscribe "core-1";
     MsgComponentSubscribe "core-1" "comp-1"].
Proof. vm_compute. reflexivity. Qed.

(** Two commands, one answered and one timed out: each promise is settled
    once, the late error reply settles nothing, no listener is left. *)
Example two_commands_settled :
  let m := command_run parse_fragment ready_manager two_commands in
  calls 3 m = [ResolveCommand "mcp-1-aaaa"]
  /\ calls 4 m = [Reject "Command timeout"]
  /\ listenerCount "control:set:success" m = 0%nat
  /\ listenerCount "control:set:error" m = 0%nat
  /\ timers m = [].
Proof. vm_compute. repeat split; reflexivity. Qed.

(** A stale cache: one refresh request, 100 ms of sleep. *)
Example getState_on_stale_cache :
  let r := getState parse_fragment 6000 [] ready_manager in
  r.1.2 = 100
  /\ outbox r.2 = outbox ready_manager ++ [MsgControllerSubscribe "core-1"].
Proof. vm_compute. split; reflexivity. Qed.

(** ** Health classification *)

(** C10. [getConnectionHealth] classifies the connection from the flags
    and counters alone, in this order of priority: disconnected exactly
    when [isConnected] is false; otherwise degraded exactly when
    [missedPongs] is at least 2, one below the default reconnect threshold
    of 3; otherwise stale exactly when the last pong is more than 60
    seconds old; otherwise healthy. The manager it leaves is the one it
    was called on. *)
Theorem getConnectionHealth_classifies (now : Z) (m : Manager) :
  let r := (getConnectionHealth now m).1 in
  let h := connectionHealth m in
  (hr_health r = Disconnected <-> isConnected m = false)
  /\ (hr_health r = Degraded <-> isConnected m = true /\ 2 <= missedPongs h)
  /\ (hr_health r = Stale <->
        isConnected m = true /\ missedPongs h < 2
        /\ 60000 < now - lastPongReceived h)
  /\ (hr_health r = Healthy <->
        isConnected m = true /\ missedPongs h < 2
        /\ now - lastPongReceived h <= 60000)
  /\ (forall cfg, maxMissedPongs (connectionHealth (new_manager cfg)) - 1 = 2)
  /\ (getConnectionHealth now m).2 = m.
Proof.
  cbn zeta. unfold getConnectionHealth. cbn [fst snd hr_health].
  destruct (isConnected m); cbn [negb].
  - destruct (Z.geb_spec (missedPongs (connectionHealth m)) 2) as [Hm | Hm].
    + repeat split; try discriminate; try lia; intros; intuition (try discriminate; try lia).
    + destruct (Z.gtb_spec (now - lastPongReceived (connectionHealth m)) 60000) as [Ht | Ht];
        repeat split; try discriminate; try lia;
        intros; intuition (try discriminate; try lia).
  - repeat split; try discriminate; intros; intuition (try discriminate; try lia).
Qed.

(** ** Liveness checker *)

Lemma filter_app_length {A} (f : A -> bool) (l : list A) (x : A) :
  length (filter f (l ++ [x])) = (length (filter f l) + (if f x then 1 else 0))%nat.
Proof.
  rewrite filter_app, length_app. cbn. destruct (f x); reflexivity.
Qed.

Lemma reconnect_health (m : Manager) :
  connectionHealth (reconnect m).2 = connectionHealth m
  /\ logged (reconnect m).2 = logged m
  /\ isConnected (reconnect m).2 = false.
Proof.
  unfold reconnect, init, disconnect. destruct (isConnected m); cbn; auto.
Qed.

Lemma pong_missed_spec (now : Z) (h : ConnectionHealth) :
  pong_missed now h = true <->
  lastPingSent h > lastPongReceived h /\ now - lastPongReceived h > pongTimeout h.
Proof.
  unfold pong_missed. rewrite andb_true_iff.
  rewrite !Z.gtb_ltb, !Z.ltb_lt. lia.
Qed.

(** The effect of one run of the checker on the counter, on its two log
    lines and on the connection flag. *)
Lemma monitor_tick_effect (now : Z) (m : Manager) :
  let h := connectionHealth m in
  let missed := isConnected m && pong_missed now h in
  let forced := missed && (missedPongs h + 1 >=? maxMissedPongs h) in
  let m' := monitor_tick now m in
  missedPongs (connectionHealth m') = missedPongs h + (if missed then 1 else 0)
  /\ maxMissedPongs (connectionHealth m') = maxMissedPongs h
  /\ missed_count m' = (missed_count m + (if missed then 1 else 0))%nat
  /\ forced_count m' = (forced_count m + (if forced then 1 else 0))%nat
  /\ isConnected m' = isConnected m && negb forced.
Proof.
  cbn zeta. unfold monitor_tick.
  destruct (isConnected m) eqn:Hc; cbn [negb andb].
  - destruct (pong_missed now (connectionHealth m)) eqn:Hp; cbn [andb].
    + destruct (missedPongs (connectionHealth m) + 1 >=? maxMissedPongs (connectionHealth m)) eqn:Hf.
      * destruct (reconnect_health
                    (log (LogForcingReconnect (missedPongs (connectionHealth m) + 1))
                       (log (LogMissedPong (missedPongs (connectionHealth m) + 1))
                          (set_connectionHealth
                             (with_missedPongs (missedPongs (connectionHealth m) + 1)
                                (connectionHealth m)) m)))) as (Hh & Hl & Hk).
        unfold missed_count, forced_count. rewrite Hh, Hl, Hk. cbn.
        rewrite !filter_app_length. cbn. repeat split; lia.
      * unfold missed_count, forced_count. cbn. rewrite !filter_app_length. cbn.
        rewrite Hc. repeat split; lia.
    + rewrite Hc. repeat split; lia.
  - rewrite Hc. repeat split; lia.
Qed.

Lemma heartbeat_tick_effect (now : Z) (m : Manager) :
  let m' := heartbeat_tick now m in
  missedPongs (connectionHealth m') = missedPongs (connectionHealth m)
  /\ maxMissedPongs (connectionHealth m') = maxMissedPongs (connectionHealth m)
  /\ logged m' = logged m
  /\ isConnected m' = isConnected m.
Proof.
  cbn zeta. unfold heartbeat_tick. destruct (isConnected m) eqn:Hc; cbn; auto.
Qed.

Lemma on_connect_begin_effect (p : nat) (now : Z) (m : Manager) :
  let m' := on_connect_begin p now m in
  missedPongs (connectionHealth m') = 0
  /\ lastPongReceived (connectionHealth m') = now
  /\ maxMissedPongs (connectionHealth m') = maxMissedPongs (connectionHealth m)
  /\ missed_count m' = missed_count m
  /\ forced_count m' = forced_count m
  /\ isConnected m' = true.
Proof.
  cbn zeta. unfold on_connect_begin, missed_count, forced_count. cbn.
  rewrite !filter_app_length. cbn. repeat split; lia.
Qed.

Lemma balanced_step (bm bf : nat) (m : Manager) (e : HealthEvent) :
  balanced bm bf m -> steady m [e] -> balanced bm bf (health_step m e).
Proof.
  intros (Hmax & Hrange & Hle & Hcount) [He _].
  destruct e as [now | now | now ts | now | ]; cbn [health_step]; try contradiction.
  - destruct (monitor_tick_effect now m) as (Hm & Hx & Hmc & Hfc & Hco).
    unfold balanced, pending_misses in *.
    rewrite Hm, Hx, Hmc, Hfc, Hco, Hmax.
    destruct (isConnected m) eqn:Hc; cbn [andb].
    + specialize (Hrange eq_refl).
      destruct (pong_missed now (connectionHealth m)); cbn [andb negb].
      * destruct (Z.geb_spec (missedPongs (connectionHealth m) + 1) 3) as [Hge | Hlt];
          cbn [negb]; repeat split; try lia; try discriminate.
      * repeat split; try lia.
    + repeat split; try lia; try discriminate.
  - destruct (heartbeat_tick_effect now m) as (Hm & Hx & Hl & Hco).
    unfold balanced, pending_misses, missed_count, forced_count in *.
    rewrite Hm, Hx, Hl, Hco. auto.
  - destruct (on_connect_begin_effect (connect_promise m) now m)
      as (Hm & _ & Hx & Hmc & Hfc & Hco).
    unfold balanced, pending_misses in *.
    rewrite Hm, Hx, Hmc, Hfc, Hco. rewrite He in Hcount.
    repeat split; try lia.
Qed.

Lemma balanced_run (bm bf : nat) (es : list HealthEvent) (m : Manager) :
  balanced bm bf m -> steady m es -> balanced bm bf (health_run m es).
Proof.
  revert m. induction es as [| e es IH]; intros m Hb Hs; [exact Hb |].
  destruct Hs as [He Hs]. cbn [health_run fold_left].
  apply IH; [| exact Hs]. apply balanced_step; [exact Hb |]. split; [exact He | exact I].
Qed.

(** C2, as the code has it. A run of the checker on a manager that is not
    connected does nothing. On a connected manager it increments
    [missedPongs] exactly when a ping was sent more recently than the last
    pong and the last pong is older than [pongTimeout]; when the
    incremented counter has reached [maxMissedPongs] it calls [reconnect],
    which leaves the manager disconnected with the counter as it is; the
    ['connect'] handler of the new connection sets the counter to 0. With
    a threshold of 3, from a fresh connection and on a trace without pongs
    and without a link drop, the misses counted are exactly three per
    forced reconnect plus fewer than three pending ones. *)
Theorem monitor_forces_reconnect_every_third_miss
    (now : Z) (m1 m : Manager) (es : list HealthEvent) :
  steady m es ->
  maxMissedPongs (connectionHealth m) = 3 ->
  isConnected m = true ->
  missedPongs (connectionHealth m) = 0 ->
  let h := connectionHealth m1 in
  let missed := isConnected m1 && pong_missed now h in
  let forced := missed && (missedPongs h + 1 >=? maxMissedPongs h) in
  (pong_missed now h = true <->
   lastPingSent h > lastPongReceived h /\ now - lastPongReceived h > pongTimeout h)
  /\ missedPongs (connectionHealth (monitor_tick now m1))
     = missedPongs h + (if missed then 1 else 0)
  /\ missed_count (monitor_tick now m1)
     = (missed_count m1 + (if missed then 1 else 0))%nat
  /\ forced_count (monitor_tick now m1)
     = (forced_count m1 + (if forced then 1 else 0))%nat
  /\ isConnected (monitor_tick now m1) = isConnected m1 && negb forced
  /\ missedPongs (connectionHealth (health_step m1 (EvConnect now))) = 0
  /\ (forced_count m <= forced_count (health_run m es))%nat
  /\ missed_count (health_run m es)
     = (missed_count m + 3 * (forced_count (health_run m es) - forced_count m)
        + pending_misses (health_run m es))%nat
  /\ (pending_misses (health_run m es) < 3)%nat.
Proof.
  intros Hs Hmax Hc H0. cbn zeta.
  destruct (monitor_tick_effect now m1) as (Hm & _ & Hmc & Hfc & Hco).
  destruct (on_connect_begin_effect (connect_promise m1) now m1) as (Hr & _).
  assert (Hb : balanced (missed_count m) (forced_count m) m).
  { unfold balanced, pending_misses. rewrite Hc, H0, Hmax, Nat.sub_diag. cbn.
    repeat split; lia. }
  destruct (balanced_run _ _ es m Hb Hs) as (_ & Hrange & Hle & Hcount).
  split; [apply pong_missed_spec |].
  repeat (split; [assumption |]).
  unfold pending_misses. destruct (isConnected (health_run m es)); [| lia].
  specialize (Hrange eq_refl). lia.
Qed.

(** The theorem on two silent minutes of a fresh connection: three misses,
    one forced reconnect. *)
Lemma monitor_forces_reconnect_every_third_miss_witness :
  steady connected_manager silent_two_minutes
  /\ forced_count (health_run connected_manager silent_two_minutes) = 1%nat
  /\ missed_count (health_run connected_manager silent_two_minutes) = 3%nat.
Proof.
  assert (Hs : steady connected_manager silent_two_minutes)
    by (cbn; tauto).
  split; [exact Hs |].
  destruct (monitor_forces_reconnect_every_third_miss 0 connected_manager
              connected_manager silent_two_minutes Hs eq_refl eq_refl eq_refl)
    as (_ & _ & _ & _ & _ & _ & _ & Hcount & _).
  split; [vm_compute; reflexivity |].
  rewrite Hcount. vm_compute. reflexivity.
Defined.

(** C2, the claim as stated fails. After a link drop the checker still
    runs; a ping is more recent than the last pong and the last pong is
    older than [pongTimeout], yet the counter is not incremented. And the
    run of the checker that forces the reconnect leaves the counter at the
    threshold: the checker does not reset it. *)
Lemma monitor_tick_skips_disconnected_and_keeps_counter :
  (let h := connectionHealth dropped_link in
   lastPingSent h > lastPongReceived h
   /\ 60000 - lastPongReceived h > pongTimeout h
   /\ missedPongs (connectionHealth (monitor_tick 60000 dropped_link))
      = missedPongs h)
  /\ (let m := health_run connected_manager silent_two_minutes in
      forced_count m = 1%nat
      /\ missedPongs (connectionHealth m) = 3
      /\ maxMissedPongs (connectionHealth m) = 3).
Proof.
  vm_compute. repeat split; reflexivity.
Qed.

(** ** State cache *)

Lemma fold_left_preserves {A B C} (f : A -> B -> A) (g : A -> C) :
  (forall a b, g (f a b) = g a) ->
  forall l a, g (fold_left f l a) = g a.
Proof.
  intros Hf l. induction l as [| b l IH]; intros a; cbn; [reflexivity |].
  rewrite IH. apply Hf.
Qed.

Section CacheProperties.

Variable JSON_parse : JsValue -> option JsValue.

Lemma store_sources_values (c : Control) (s : CachedState) :
  parse_sources JSON_parse c = None ->
  store_sources JSON_parse c s = s.
Proof. unfold store_sources. intros ->. reflexivity. Qed.

Lemma parse_sources_invalid (c : Control) :
  JSON_parse (or_else (c_string c) (c_value c)) = None ->
  parse_sources JSON_parse c = None.
Proof. unfold parse_sources. intros ->. reflexivity. Qed.

Lemma handleControlUpdate_outbox (now : Z) (d : ControlUpdate) (m : Manager) :
  outbox (handleControlUpdate JSON_parse now d m) = outbox m.
Proof. reflexivity. Qed.

Lemma handleComponentState_outbox (now : Z) (d : ComponentStateMsg) (m : Manager) :
  outbox (handleComponentState JSON_parse now d m) = outbox m.
Proof.
  unfold handleComponentState. destruct (csm_component d ≫= cp_controls); reflexivity.
Qed.

Lemma onState_outbox (p : nat) (cid : string) (now : Z) (d : ComponentStateMsg)
    (m : Manager) :
  outbox (onState p cid now d m) = outbox m.
Proof. unfold onState. destruct (_ || _); reflexivity. Qed.

(** A state update makes no listener emit. *)
Lemma recv_update_outbox (now : Z) (u : StateUpdate) (m : Manager) :
  outbox (recv JSON_parse now (inbound_of u) m) = outbox m.
Proof.
  unfold recv. apply fold_left_preserves. intros a l.
  destruct u as [d | d], l; cbn [inbound_of run_listener]; try reflexivity.
  - apply handleComponentState_outbox.
  - apply onState_outbox.
Qed.

Lemma grace_outbox (grace : list (Z * StateUpdate)) (m : Manager) :
  outbox (fold_left (fun m tu => recv JSON_parse tu.1 (inbound_of tu.2) m) grace m)
  = outbox m.
Proof.
  apply fold_left_preserves. intros a [t u]. apply recv_update_outbox.
Qed.

(** C5. A call of [getState] in the TTL window returns the cache as it is
    and emits nothing. A call after it emits exactly one
    ['controller:subscribe'], sleeps 100 ms, and returns the cache as the
    updates that arrived meanwhile left it. There is no other outcome: no
    error, and no wait beyond the 100 ms. *)
Theorem getState_refreshes_once_when_stale
    (now : Z) (grace : list (Z * StateUpdate)) (m : Manager) :
  let r := getState JSON_parse now grace m in
  let s := r.1.1 in
  let slept := r.1.2 in
  let m' := r.2 in
  (now - timestamp (state m) <= TTL (state m)
   /\ s = state m /\ slept = 0 /\ m' = m /\ outbox m' = outbox m)
  \/ (now - timestamp (state m) > TTL (state m)
      /\ outbox m' = outbox m ++ [MsgControllerSubscribe (controllerId (config m))]
      /\ slept = 100
      /\ s = state m'
      /\ m' = fold_left (fun m tu => recv JSON_parse tu.1 (inbound_of tu.2) m) grace
                (emit (MsgControllerSubscribe (controllerId (config m))) m)).
Proof.
  cbn zeta. unfold getState.
  destruct (Z.gtb_spec (now - timestamp (state m)) (TTL (state m))) as [Hs | Hf].
  - right. cbn [fst snd]. rewrite grace_outbox. cbn. repeat split; try reflexivity. lia.
  - left. cbn [fst snd]. repeat split; try reflexivity. lia.
Qed.

(** C9. Every ['control:update'] event sets the timestamp of the cache to
    the time it arrives and calls every state listener once with the
    cache; an event whose control is not in the table, or whose
    [ConnectedSources] payload fails to parse, leaves the value fields as
    they were. So a call of [getState] within the TTL after any such event
    finds the cache fresh and requests no refresh. *)
Theorem handleControlUpdate_renews_freshness
    (now now' : Z) (data : ControlUpdate) (grace : list (Z * StateUpdate))
    (m : Manager) :
  let m' := handleControlUpdate JSON_parse now data m in
  timestamp (state m') = now
  /\ TTL (state m') = TTL (state m)
  /\ notified m' = notified m ++ map (fun l => (l, state m')) (stateListeners m)
  /\ outbox m' = outbox m
  /\ (cu_controlId data <> "ConnectedSources" ->
      control_map (cu_controlId data) = None ->
      values (state m') = values (state m))
  /\ (cu_controlId data = "ConnectedSources" ->
      parse_sources JSON_parse (cu_control data) = None ->
      values (state m') = values (state m))
  /\ (now' - now <= TTL (state m) ->
      getState JSON_parse now' grace m' = (state m', 0, m')).
Proof.
  cbn zeta. unfold handleControlUpdate.
  split; [reflexivity |]. split.
  { cbn. destruct (String.eqb (cu_controlId data) "ConnectedSources");
      [unfold store_sources; destruct (parse_sources _ _) | destruct (control_map _)];
      reflexivity. }
  repeat (split; [reflexivity |]). repeat split.
  - intros Hne Hmap.
    destruct (String.eqb_spec (cu_controlId data) "ConnectedSources") as [He | _];
      [contradiction |].
    rewrite Hmap. reflexivity.
  - intros He Hp. rewrite He. cbn [String.eqb Ascii.eqb Bool.eqb].
    rewrite store_sources_values by exact Hp. reflexivity.
  - intros Hfresh. unfold getState. cbn [state set_state notifyStateChange set_notified
      timestamp TTL with_timestamp].
    match goal with |- context [?a >? ?b] => destruct (Z.gtb_spec a b) as [Hs | Hf] end.
    + exfalso.
      destruct (String.eqb (cu_controlId data) "ConnectedSources");
        [unfold store_sources in Hs; destruct (parse_sources _ _) |
         destruct (control_map _)]; cbn in Hs; lia.
    + reflexivity.
Qed.

(** C8, as the code has it. A ['control:update'] event for
    [ConnectedSources] whose payload is not valid JSON leaves every value
    field of the cache as it was. A ['component:state'] snapshot whose
    [ConnectedSources] payload is not valid JSON leaves [connectedSources]
    as it was, and applies the other controls it carries: each other field
    holds the value of its control in the snapshot, or its previous value
    when the snapshot has no such control. Both handlers return normally
    and set the timestamp. *)
Theorem malformed_sources_are_dropped
    (now : Z) (du : ControlUpdate) (dc : ComponentStateMsg)
    (c : gmap string Control) (ctl : Control) (m : Manager) :
  cu_controlId du = "ConnectedSources" ->
  JSON_parse (or_else (c_string (cu_control du)) (c_value (cu_control du))) = None ->
  csm_component dc ≫= cp_controls = Some c ->
  c !! "ConnectedSources" = Some ctl ->
  JSON_parse (or_else (c_string ctl) (c_value ctl)) = None ->
  let mu := handleControlUpdate JSON_parse now du m in
  let mc := handleComponentState JSON_parse now dc m in
  let carried name old := match c !! name with Some x => c_value x | None => old end in
  values (state mu) = values (state m)
  /\ timestamp (state mu) = now
  /\ connectedSources (state mc) = connectedSources (state m)
  /\ hardwareState (state mc) = carried "HardwareState" (hardwareState (state m))
  /\ screenPower (state mc) = carried "hdmi.enabled.button" (screenPower (state m))
  /\ privacyGlass (state mc) = carried "pin.8.digital.out" (privacyGlass (state m))
  /\ didoOutput (state mc) = carried "hdmi.out.1.select.hdmi.1" (didoOutput (state m))
  /\ lightingLevel (state mc) = carried "ZoneDimLevel1" (lightingLevel (state m))
  /\ volumeLevel (state mc) = carried "output.1.gain" (volumeLevel (state m))
  /\ timestamp (state mc) = now.
Proof.
  intros Hid Hbad Hc Hsrc Hbad'. cbn zeta.
  split; [| split].
  - unfold handleControlUpdate. rewrite Hid. cbn [String.eqb Ascii.eqb Bool.eqb].
    rewrite store_sources_values by (apply parse_sources_invalid; exact Hbad).
    reflexivity.
  - reflexivity.
  - unfold handleComponentState. rewrite Hc, Hsrc.
    rewrite store_sources_values by (apply parse_sources_invalid; exact Hbad').
    unfold copy_control.
    destruct (c !! "HardwareState"), (c !! "hdmi.enabled.button"),
      (c !! "pin.8.digital.out"), (c !! "hdmi.out.1.select.hdmi.1"),
      (c !! "ZoneDimLevel1"), (c !! "output.1.gain");
      cbn; repeat split; reflexivity.
Qed.

End CacheProperties.

(** The theorem on a payload that is not JSON, in both shapes. *)
Lemma malformed_sources_are_dropped_witness :
  cu_controlId bad_update = "ConnectedSources"
  /\ parse_fragment (or_else (c_string bad_control) (c_value bad_control)) = None
  /\ values (state (handleControlUpdate parse_fragment 1000 bad_update connected_manager))
     = values (state connected_manager)
  /\ connectedSources
       (state (handleComponentState parse_fragment 1000 bad_snapshot connected_manager))
     = connectedSources (state connected_manager).
Proof.
  split; [reflexivity |]. split; [reflexivity |].
  destruct (malformed_sources_are_dropped parse_fragment 1000 bad_update bad_snapshot
              bad_controls bad_control connected_manager
              eq_refl eq_refl eq_refl eq_refl eq_refl) as (Hu & _ & Hc & _).
  split; [exact Hu | exact Hc].
Defined.

(** C8, the claim as stated fails. A ['component:state'] snapshot carries
    a [ConnectedSources] payload that is not valid JSON next to a
    [HardwareState] control; the handler applies the latter, so a value
    field of the cache changes. *)
Lemma malformed_sources_snapshot_changes_cache :
  bad_controls !! "ConnectedSources" = Some bad_control
  /\ parse_fragment (or_else (c_string bad_control) (c_value bad_control)) = None
  /\ hardwareState (state connected_manager) = JNull
  /\ hardwareState
       (state (recv parse_fragment 1000 (InComponentState bad_snapshot) connected_manager))
     = JNum 1
  /\ values (state (recv parse_fragment 1000 (InComponentState bad_snapshot)
                      connected_manager))
     <> values (state connected_manager).
Proof.
  repeat split; try (vm_compute; reflexivity).
  vm_compute. discriminate.
Qed.

(** ** Component directory *)

Lemma resolve_role_list (entries : list (string * Component)) (m : Manager)
    (pat : string * list string) :
  discoveredList (resolve_role entries m pat) = discoveredList m.
Proof. unfold resolve_role. destruct (find_role _ _); reflexivity. Qed.

Lemma on_controller_state_list (p : nat) (data : ControllerStateMsg) (m : Manager) :
  discoveredList (on_controller_state p data m)
  = match ctl_components data with
    | Some entries => fold_left store_component entries (discoveredList m)
    | None => discoveredList m
    end.
Proof.
  unfold on_controller_state. destruct (ctl_components data) as [entries |];
    [| reflexivity].
  cbn [discoveredList settle set_settled].
  rewrite (fold_left_preserves _ discoveredList) by reflexivity.
  rewrite (fold_left_preserves _ discoveredList) by (intros; apply resolve_role_list).
  reflexivity.
Qed.

Lemma fold_store_snoc (entries : list (string * Component)) (e : string * Component)
    (l : gmap string ComponentRecord) :
  fold_left store_component (entries ++ [e]) l
  = store_component (fold_left store_component entries l) e.
Proof. rewrite fold_left_app. reflexivity. Qed.

(** A name the response does not carry keeps its record, or its absence. *)
Lemma fold_store_other (entries : list (string * Component))
    (l : gmap string ComponentRecord) (name : string) :
  name ∉ names_of entries ->
  fold_left store_component entries l !! name = l !! name.
Proof.
  revert l. induction entries as [| e entries IH]; intros l Hn; [reflexivity |].
  cbn [fold_left]. unfold names_of in *. cbn [map] in Hn.
  apply not_elem_of_cons in Hn as [Hne Hn].
  rewrite IH by exact Hn. unfold store_component.
  apply lookup_insert_ne. congruence.
Qed.

(** A name the response carries holds a record of the response. *)
Lemma fold_store_carried (entries : list (string * Component))
    (l : gmap string ComponentRecord) (id : string) (c : Component) :
  (id, c) ∈ entries ->
  exists r id' c',
    fold_left store_component entries l !! comp_name c = Some r
    /\ (id', c') ∈ entries
    /\ comp_name c' = comp_name c
    /\ r = {| rec_id := id'; rec_name := comp_name c';
              rec_controls := default ∅ (comp_controls c') |}.
Proof.
  induction entries as [| e entries IH] using rev_ind; intros Hin.
  - apply elem_of_nil in Hin. contradiction.
  - rewrite fold_store_snoc. unfold store_component at 1.
    destruct (decide (comp_name e.2 = comp_name c)) as [Heq | Hne].
    + exists {| rec_id := e.1; rec_name := comp_name e.2;
                rec_controls := default ∅ (comp_controls e.2) |}, e.1, e.2.
      rewrite Heq, lookup_insert_eq. repeat split; try reflexivity.
      apply elem_of_app. right. destruct e. apply list_elem_of_singleton. reflexivity.
    + rewrite lookup_insert_ne by exact Hne.
      apply elem_of_app in Hin as [Hin | Hin].
      * destruct (IH Hin) as (r & id' & c' & Hl & Hin' & Hn & Hr).
        exists r, id', c'. repeat split; try assumption.
        apply elem_of_app. left. exact Hin'.
      * apply list_elem_of_singleton in Hin. subst e. cbn in Hne. contradiction.
Qed.

(** C3, as the code has it. A discovery response is merged into the
    directory by name: every component it carries has, under its name, a
    record built from a component of the response with that name, and a
    record under a name the response does not carry stays as it was. *)
Theorem discovery_merges_by_name
    (p : nat) (data : ControllerStateMsg) (entries : list (string * Component))
    (m : Manager) :
  ctl_components data = Some entries ->
  let l' := discoveredList (on_controller_state p data m) in
  (forall id c, (id, c) ∈ entries ->
     exists r id' c',
       l' !! comp_name c = Some r
       /\ (id', c') ∈ entries
       /\ comp_name c' = comp_name c
       /\ r = {| rec_id := id'; rec_name := comp_name c';
                 rec_controls := default ∅ (comp_controls c') |})
  /\ (forall name, name ∉ names_of entries -> l' !! name = discoveredList m !! name).
Proof.
  intros Hd. cbn zeta. rewrite on_controller_state_list, Hd. split.
  - intros id c Hin. apply fold_store_carried with (id := id). exact Hin.
  - intros name Hn. apply fold_store_other. exact Hn.
Qed.

(** The theorem on a second discovery that does not list the mixer. *)
Lemma discovery_merges_by_name_witness :
  ctl_components second_discovery
  = Some [("comp-2", {| comp_name := "LutronLEAPZone 1"; comp_controls := None |})]
  /\ discoveredList (on_controller_state 1 second_discovery
                       (on_controller_state 0 first_discovery connected_manager))
     !! "Mixer_8x8_2"
     = discoveredList (on_controller_state 0 first_discovery connected_manager)
       !! "Mixer_8x8_2".
Proof.
  split; [reflexivity |].
  apply (discovery_merges_by_name 1 second_discovery _
           (on_controller_state 0 first_discovery connected_manager) eq_refl).
  vm_compute. intros H. inversion H as [| ? ? ? H']; subst; inversion H'.
Defined.

(** C3, the claim as stated fails. The first discovery lists the mixer,
    the second does not; after the second the record of the mixer is still
    in the directory, next to the one the second response carries. *)
Lemma rediscovery_keeps_old_records :
  let m1 := on_controller_state 0 first_discovery connected_manager in
  let m2 := on_controller_state 1 second_discovery m1 in
  names_of [("comp-2", {| comp_name := "LutronLEAPZone 1"; comp_controls := None |})]
  = ["LutronLEAPZone 1"]
  /\ discoveredList m2 !! "Mixer_8x8_2"
     = Some {| rec_id := "comp-1"; rec_name := "Mixer_8x8_2"; rec_controls := ∅ |}
  /\ discoveredList m2 !! "LutronLEAPZone 1"
     = Some {| rec_id := "comp-2"; rec_name := "LutronLEAPZone 1"; rec_controls := ∅ |}.
Proof.
  cbn zeta. split; [reflexivity |]. split; vm_compute; reflexivity.
Qed.

(** ** Backoff *)

Lemma pow2_le (a : nat) :
  (inject_Z (2 ^ Z.of_nat a) <= inject_Z (2 ^ Z.of_nat (S a)))%Q.
Proof.
  rewrite <- Zle_Qle. apply Z.pow_le_mono_r; lia.
Qed.

Lemma pow2_nonneg (a : nat) : (0 <= inject_Z (2 ^ Z.of_nat a))%Q.
Proof.
  change 0%Q with (inject_Z 0). rewrite <- Zle_Qle. apply Z.pow_nonneg. lia.
Qed.

Lemma capped_delay_bounds (base cap : Q) (a : nat) :
  (0 <= base -> 0 <= cap ->
   0 <= Qmin (base * inject_Z (2 ^ Z.of_nat a)) cap
   /\ Qmin (base * inject_Z (2 ^ Z.of_nat a)) cap <= cap)%Q.
Proof.
  intros Hb Hc. split; [| apply Q.le_min_r].
  apply Q.min_glb; [| exact Hc].
  apply Qmult_le_0_compat; [exact Hb | apply pow2_nonneg].
Qed.

Lemma capped_delay_mono (base cap : Q) (a : nat) :
  (0 <= base ->
   Qmin (base * inject_Z (2 ^ Z.of_nat a)) cap
   <= Qmin (base * inject_Z (2 ^ Z.of_nat (S a))) cap)%Q.
Proof.
  intros Hb. apply Q.min_le_compat_r.
  rewrite !(Qmult_comm base). apply Qmult_le_compat_r; [apply pow2_le | exact Hb].
Qed.

Lemma calculateBackoff_mono (base cap : Q) (a : nat) (r : Q) :
  (0 <= base -> 0 <= r ->
   calculateBackoff base cap a r <= calculateBackoff base cap (S a) r)%Q.
Proof.
  intros Hb Hr. unfold calculateBackoff.
  apply Qmult_le_compat_r; [apply capped_delay_mono; exact Hb | lra].
Qed.

Lemma draws_in_unit_interval (n : nat) :
  Forall (fun r => 0 <= r /\ r < 1)%Q (draws n).
Proof.
  unfold draws. apply List.Forall_forall. intros r Hin.
  apply in_map_iff in Hin as (k & <- & Hk). apply in_seq in Hk.
  unfold Qle, Qlt. cbn. split; [lia |].
  rewrite Z.mul_1_r. destruct n as [| n]; [lia |].
  rewrite <- Pos.of_nat_succ. lia.
Qed.

Lemma Qsum_map_le (f g : Q -> Q) (l : list Q) :
  Forall (fun x => f x <= g x)%Q l -> (Qsum (map f l) <= Qsum (map g l))%Q.
Proof.
  induction 1 as [| x l Hx _ IH]; cbn; [lra |].
  apply Qplus_le_compat; assumption.
Qed.

Lemma expected_backoff_mono (base cap : Q) (n a : nat) :
  (0 <= base ->
   expected_backoff base cap n a <= expected_backoff base cap n (S a))%Q.
Proof.
  intros Hb. unfold expected_backoff, Qdiv.
  apply Qmult_le_compat_r.
  - apply Qsum_map_le.
    eapply List.Forall_impl; [| apply draws_in_unit_interval].
    intros r [Hr _]. apply calculateBackoff_mono; assumption.
  - apply Qinv_le_0_compat. change 0%Q with (inject_Z 0).
    rewrite <- Zle_Qle. lia.
Qed.

(** C7. With [Math.random()] as an explicit draw in the interval from 0 to
    1 and a configuration of non-negative delays, [calculateBackoff] is
    the formula of the specification with a jitter in the interval from 0
    to 0.25; its value is at most 1.25 times the cap for every attempt,
    those from 1 to 10 among them; it is non-decreasing in the attempt for
    a fixed draw, and so is its expected value over the equally likely
    draws of a uniform generator of any resolution. *)
Theorem calculateBackoff_capped_and_monotone
    (base cap : Q) (attempt n : nat) (random : Q) :
  (0 <= base -> 0 <= cap -> 0 <= random -> random < 1 ->
   calculateBackoff base cap attempt random
   == backoff_spec base cap attempt (random * (1 # 4))
   /\ 0 <= random * (1 # 4) /\ random * (1 # 4) < 1 # 4
   /\ calculateBackoff base cap attempt random <= cap * (5 # 4)
   /\ calculateBackoff base cap attempt random
      <= calculateBackoff base cap (S attempt) random
   /\ Forall (fun r => 0 <= r /\ r < 1) (draws n)
   /\ expected_backoff base cap n attempt
      <= expected_backoff base cap n (S attempt))%Q.
Proof.
  intros Hb Hc Hr0 Hr1.
  destruct (capped_delay_bounds base cap attempt Hb Hc) as [Hm0 Hm1].
  split; [reflexivity |].
  split; [lra |]. split; [lra |].
  split; [unfold calculateBackoff; nra |].
  split; [apply calculateBackoff_mono; assumption |].
  split; [apply draws_in_unit_interval |].
  apply expected_backoff_mono. exact Hb.
Qed.

(** The theorem on the default configuration: base 1000 ms, cap 30000 ms. *)
Lemma calculateBackoff_capped_and_monotone_witness :
  (0 <= 1000 /\ 0 <= 30000 /\ 0 <= 1 # 2 /\ 1 # 2 < 1
   /\ calculateBackoff 1000 30000 10 (1 # 2) <= 30000 * (5 # 4)
   /\ expected_backoff 1000 30000 4 3 <= expected_backoff 1000 30000 4 4)%Q.
Proof.
  assert (H0 : (0 <= 1000)%Q) by (unfold Qle; cbn; lia).
  assert (H1 : (0 <= 30000)%Q) by (unfold Qle; cbn; lia).
  assert (H2 : (0 <= 1 # 2)%Q) by (unfold Qle; cbn; lia).
  assert (H3 : (1 # 2 < 1)%Q) by (unfold Qlt; cbn; lia).
  split; [exact H0 |]. split; [exact H1 |]. split; [exact H2 |]. split; [exact H3 |].
  split.
  - apply (calculateBackoff_capped_and_monotone 1000 30000 10 4 (1 # 2) H0 H1 H2 H3).
  - apply (calculateBackoff_capped_and_monotone 1000 30000 3 4 (1 # 2) H0 H1 H2 H3).
Defined.

(** ** Subscriptions *)

Lemma listeners_on (ev ev' : string) (l : Listener) (m : Manager) :
  listeners ev (on ev' l m)
  = listeners ev m ++ (if decide (ev' = ev) then [l] else []).
Proof.
  unfold listeners, on. cbn [handlers set_handlers].
  rewrite filter_app, fmap_app. f_equal.
  cbn. unfold filter. cbn. destruct (decide (ev' = ev)); reflexivity.
Qed.

Section SubscriptionProperties.

Variable JSON_parse : JsValue -> option JsValue.

Lemma handleComponentState_frame (now : Z) (d : ComponentStateMsg) (m : Manager) :
  let m' := handleComponentState JSON_parse now d m in
  isConnected m' = isConnected m /\ isIdentified m' = isIdentified m
  /\ discoveredWatched m' = discoveredWatched m /\ settled m' = settled m.
Proof.
  cbn zeta. unfold handleComponentState.
  destruct (csm_component d ≫= cp_controls); repeat split; reflexivity.
Qed.

Lemma onState_flags (p : nat) (cid : string) (now : Z) (d : ComponentStateMsg)
    (m : Manager) :
  isConnected (onState p cid now d m) = isConnected m
  /\ isIdentified (onState p cid now d m) = isIdentified m.
Proof. unfold onState. destruct (_ || _); split; reflexivity. Qed.

(** A ['component:state'] event leaves the connection flags alone. *)
Lemma recv_component_state_flags (now : Z) (d : ComponentStateMsg) (m : Manager) :
  isConnected (recv JSON_parse now (InComponentState d) m) = isConnected m
  /\ isIdentified (recv JSON_parse now (InComponentState d) m) = isIdentified m.
Proof.
  unfold recv. split; apply fold_left_preserves; intros a l;
    destruct l; cbn [run_listener]; try reflexivity;
    try apply handleComponentState_frame; apply onState_flags.
Qed.

Lemma matches_test (componentId : string) (d : ComponentStateMsg) :
  matches componentId d ->
  bool_decide (csm_componentId d = Some componentId)
  || bool_decide (csm_component d ≫= cp_id = Some componentId) = true.
Proof.
  intros [H | H]; apply orb_true_iff; [left | right]; apply bool_decide_eq_true; exact H.
Qed.

(** What a listener of ['component:state'] does to the record of
    [componentId] and to the settlements: a record written at [now] from
    [d] stays, and so does a settlement. *)
Lemma run_listener_keeps_record (now : Z) (d : ComponentStateMsg) (cid : string)
    (l : Listener) (m : Manager) (e : nat * Settlement) :
  let R := {| subscribedAt := now; watch_state := watched_state d |} in
  let m' := run_listener JSON_parse now (InComponentState d) l m in
  (discoveredWatched m !! cid = Some R -> discoveredWatched m' !! cid = Some R)
  /\ (e ∈ settled m -> e ∈ settled m').
Proof.
  cbn zeta. destruct l; cbn [run_listener]; try (split; intros H; exact H).
  - destruct (handleComponentState_frame now d m) as (_ & _ & -> & ->).
    split; intros H; exact H.
  - unfold onState. destruct (_ || _); [| split; intros H; exact H].
    cbn. split.
    + intros H. destruct (decide (componentId = cid)) as [-> | Hne].
      * apply lookup_insert_eq.
      * rewrite lookup_insert_ne by exact Hne. exact H.
    + intros H. apply elem_of_app. left. exact H.
Qed.

Lemma fold_keeps_record (now : Z) (d : ComponentStateMsg) (cid : string)
    (ls : list Listener) (m : Manager) (e : nat * Settlement) :
  let R := {| subscribedAt := now; watch_state := watched_state d |} in
  let m' := fold_left (fun m l => run_listener JSON_parse now (InComponentState d) l m)
              ls m in
  (discoveredWatched m !! cid = Some R -> discoveredWatched m' !! cid = Some R)
  /\ (e ∈ settled m -> e ∈ settled m').
Proof.
  cbn zeta. revert m. induction ls as [| l ls IH]; intros m; [split; auto |].
  cbn [fold_left].
  destruct (run_listener_keeps_record now d cid l m e) as [H1 H2].
  destruct (IH (run_listener JSON_parse now (InComponentState d) l m)) as [H3 H4].
  split; auto.
Qed.

(** The listener of a subscription writes the record and resolves the
    promise when the event matches. *)
Lemma onState_writes_record (p : nat) (cid : string) (now : Z)
    (d : ComponentStateMsg) (m : Manager) :
  matches cid d ->
  let R := {| subscribedAt := now; watch_state := watched_state d |} in
  discoveredWatched (onState p cid now d m) !! cid = Some R
  /\ (p, ResolveSubscribe (watched_state d)) ∈ settled (onState p cid now d m).
Proof.
  intros Hm. cbn zeta. unfold onState. rewrite (matches_test _ _ Hm). cbn. split.
  - apply lookup_insert_eq.
  - apply elem_of_app. right. apply list_elem_of_singleton. reflexivity.
Qed.

Lemma fold_writes_record (p : nat) (cid : string) (now : Z)
    (d : ComponentStateMsg) (ls : list Listener) (m : Manager) :
  matches cid d ->
  OnState p cid ∈ ls ->
  let R := {| subscribedAt := now; watch_state := watched_state d |} in
  let m' := fold_left (fun m l => run_listener JSON_parse now (InComponentState d) l m)
              ls m in
  discoveredWatched m' !! cid = Some R
  /\ (p, ResolveSubscribe (watched_state d)) ∈ settled m'.
Proof.
  intros Hm Hin. cbn zeta. revert m.
  induction ls as [| l ls IH]; intros m; [apply elem_of_nil in Hin; contradiction |].
  cbn [fold_left]. apply elem_of_cons in Hin as [<- | Hin].
  - cbn [run_listener].
    destruct (onState_writes_record p cid now d m Hm) as [H1 H2].
    destruct (fold_keeps_record now d cid ls (onState p cid now d m)
                (p, ResolveSubscribe (watched_state d))) as [H3 H4].
    split; auto.
  - apply IH. exact Hin.
Qed.

Lemma recv_writes_record (p : nat) (cid : string) (now : Z)
    (d : ComponentStateMsg) (m : Manager) :
  matches cid d ->
  OnState p cid ∈ listeners "component:state" m ->
  let R := {| subscribedAt := now; watch_state := watched_state d |} in
  discoveredWatched (recv JSON_parse now (InComponentState d) m) !! cid = Some R
  /\ (p, ResolveSubscribe (watched_state d))
     ∈ settled (recv JSON_parse now (InComponentState d) m).
Proof.
  intros Hm Hin. apply fold_writes_record; assumption.
Qed.

(** For a component id that names no member of [Object.prototype],
    [subscribeToComponent] is idempotent. A first call on a connected and
    identified manager that does not watch the component emits one
    ['component:subscribe']; the matching ['component:state'] event
    resolves its promise and writes the subscription record; a second call
    then returns that record and emits nothing, so the two calls emit
    exactly one request. In any state, a call for a component that has a
    record emits nothing. *)
Theorem subscribeToComponent_idempotent
    (componentId : string) (now : Z) (data : ComponentStateMsg) (m : Manager) :
  isConnected m = true ->
  isIdentified m = true ->
  discoveredWatched m !! componentId = None ->
  inherited_key componentId = false ->
  matches componentId data ->
  let r1 := subscribeToComponent componentId m in
  let m2 := recv JSON_parse now (InComponentState data) r1.2 in
  let r2 := subscribeToComponent componentId m2 in
  let record := {| subscribedAt := now; watch_state := watched_state data |} in
  r1.1 = SubPending (nextId m)
  /\ outbox r1.2
     = outbox m ++ [MsgComponentSubscribe (controllerId (config m)) componentId]
  /\ (nextId m, ResolveSubscribe (watched_state data)) ∈ settled m2
  /\ discoveredWatched m2 !! componentId = Some record
  /\ r2.1 = SubCached record
  /\ outbox r2.2 = outbox r1.2
  /\ length (filter (is_component_subscribe componentId) (outbox r2.2))
     = S (length (filter (is_component_subscribe componentId) (outbox m)))
  /\ (forall m0 r0, discoveredWatched m0 !! componentId = Some r0 ->
        outbox (subscribeToComponent componentId m0).2 = outbox m0).
Proof.
  intros Hc Hi Hw Hk Hm. cbn zeta.
  assert (Hfirst : subscribeToComponent componentId m
                   = (SubPending (nextId m),
                      emit (MsgComponentSubscribe (controllerId (config m)) componentId)
                        (on "component:state" (OnState (nextId m) componentId)
                           (setTimeout (TSubscribe (nextId m))
                              (num_or (commandTimeout (config m)) 10000)
                              (set_nextId (S (nextId m)) m))))).
  { unfold subscribeToComponent. rewrite Hc, Hi, Hw, Hk. reflexivity. }
  rewrite Hfirst. cbn [fst snd].
  set (m1 := emit _ _).
  assert (Hin : OnState (nextId m) componentId ∈ listeners "component:state" m1).
  { subst m1. change (listeners "component:state" (emit ?w ?x))
      with (listeners "component:state" x).
    rewrite listeners_on. rewrite decide_True by reflexivity.
    apply elem_of_app. right. apply list_elem_of_singleton. reflexivity. }
  destruct (recv_writes_record (nextId m) componentId now data m1 Hm Hin) as [Hrec Hset].
  destruct (recv_component_state_flags now data m1) as [Hc2 Hi2].
  assert (Hsecond : subscribeToComponent componentId
                      (recv JSON_parse now (InComponentState data) m1)
                    = (SubCached {| subscribedAt := now; watch_state := watched_state data |},
                       log (LogAlreadySubscribed componentId)
                         (recv JSON_parse now (InComponentState data) m1))).
  { unfold subscribeToComponent. rewrite Hc2, Hi2, Hrec.
    subst m1. cbn [isConnected isIdentified emit on setTimeout set_outbox set_handlers
                     set_timers set_nextId]. rewrite Hc, Hi. reflexivity. }
  rewrite Hsecond. cbn [fst snd].
  assert (Hout : outbox (recv JSON_parse now (InComponentState data) m1) = outbox m1)
    by (apply (recv_update_outbox JSON_parse now (UpdComponent data))).
  split; [reflexivity |]. split; [reflexivity |].
  split; [exact Hset |]. split; [exact Hrec |]. split; [reflexivity |].
  split; [exact Hout |]. split.
  - change (outbox (log ?e ?x)) with (outbox x). rewrite Hout. subst m1.
    cbn [outbox emit set_outbox on set_handlers setTimeout set_timers set_nextId].
    rewrite filter_app_length. cbn [is_component_subscribe].
    rewrite String.eqb_refl. lia.
  - intros m0 r0 H0. unfold subscribeToComponent.
    destruct (negb (isConnected m0) || negb (isIdentified m0)); [reflexivity |].
    rewrite H0. reflexivity.
Qed.

End SubscriptionProperties.

(** The theorem on a subscription to the mixer of [ready_manager]. *)
Lemma subscribeToComponent_idempotent_witness :
  isConnected ready_manager = true
  /\ isIdentified ready_manager = true
  /\ discoveredWatched ready_manager !! "comp-1" = None
  /\ inherited_key "comp-1" = false
  /\ matches "comp-1" bad_snapshot
  /\ (subscribeToComponent "comp-1"
        (recv parse_fragment 1000 (InComponentState bad_snapshot)
           (subscribeToComponent "comp-1" ready_manager).2)).1
     = SubCached {| subscribedAt := 1000; watch_state := watched_state bad_snapshot |}.
Proof.
  assert (Hc : isConnected ready_manager = true) by (vm_compute; reflexivity).
  assert (Hi : isIdentified ready_manager = true) by (vm_compute; reflexivity).
  assert (Hw : discoveredWatched ready_manager !! "comp-1" = None)
    by (vm_compute; reflexivity).
  assert (Hk : inherited_key "comp-1" = false) by (vm_compute; reflexivity).
  assert (Hm : matches "comp-1" bad_snapshot) by (left; reflexivity).
  split; [exact Hc |]. split; [exact Hi |]. split; [exact Hw |]. split; [exact Hk |].
  split; [exact Hm |].
  apply (subscribeToComponent_idempotent parse_fragment "comp-1" 1000 bad_snapshot
           ready_manager Hc Hi Hw Hk Hm).
Defined.



(** ** Handshake *)

Lemma listeners_off_other (ev ev' : string) (l : Listener) (m : Manager) :
  ev <> ev' -> listeners ev (off ev' l m) = listeners ev m.
Proof.
  intros Hne. unfold listeners, off. cbn [handlers set_handlers]. f_equal.
  induction (handlers m) as [| h hs IH]; [reflexivity |].
  cbn [remove_first]. destruct (decide (h = (ev', l))) as [-> | Hh].
  - rewrite filter_cons_False by (cbn; congruence). reflexivity.
  - rewrite !filter_cons. rewrite IH. reflexivity.
Qed.

Lemma remove_first_subset {A} `{EqDecision A} (x y : A) (hs : list A) :
  x ∈ remove_first y hs -> x ∈ hs.
Proof.
  induction hs as [| h hs IH]; cbn [remove_first]; [auto |].
  destruct (decide (h = y)); intros H.
  - apply elem_of_cons. right. exact H.
  - apply elem_of_cons in H as [-> | H]; apply elem_of_cons; [left | right]; auto.
Qed.

Lemma calls_settle (p q : nat) (o : Settlement) (m : Manager) :
  calls p (settle q o m) = calls p m ++ (if decide (q = p) then [o] else []).
Proof.
  unfold calls, settle. cbn [settled set_settled].
  rewrite filter_app, fmap_app. f_equal.
  unfold filter. cbn. destruct (decide (q = p)); reflexivity.
Qed.

Lemma discovery_requests_emit (w : WireMsg) (m : Manager) :
  discovery_requests (emit w m)
  = (discovery_requests m + (if is_controller_subscribe w then 1 else 0))%nat.
Proof. unfold discovery_requests, emit. cbn. apply filter_app_length. Qed.


Lemma resolve_role_frame (entries : list (string * Component)) (m : Manager)
    (pat : string * list string) :
  let m' := resolve_role entries m pat in
  isConnected m' = isConnected m /\ isIdentified m' = isIdentified m
  /\ nextId m' = nextId m /\ settled m' = settled m /\ outbox m' = outbox m
  /\ handlers m' = handlers m /\ config m' = config m.
Proof.
  cbn zeta. unfold resolve_role. destruct (find_role _ _); repeat split; reflexivity.
Qed.

Lemma resolve_role_nil (m : Manager) (pat : string * list string) :
  resolve_role [] m pat = m.
Proof. reflexivity. Qed.

(** What the listener of a discovery leaves alone. *)
Lemma on_controller_state_frame (p q : nat) (d : ControllerStateMsg) (m : Manager) :
  q <> p ->
  let m' := on_controller_state q d m in
  isConnected m' = isConnected m
  /\ isIdentified m' = isIdentified m
  /\ nextId m' = nextId m
  /\ calls p m' = calls p m
  /\ discovery_requests m' = discovery_requests m
  /\ handlers m' = remove_first ("controller:state", OnceControllerState q) (handlers m)
  /\ (no_components (Some d) ->
      components m' = components m /\ discoveredList m' = discoveredList m).
Proof.
  intros Hq. cbn zeta. unfold on_controller_state.
  destruct (ctl_components d) as [entries |] eqn:Hd.
  - set (m0 := clearTimeout _ _).
    set (m1 := set_discoveredList _ m0).
    set (m2 := fold_left (resolve_role entries) patterns m1).
    set (m3 := fold_left _ (known_components m2) m2).
    assert (Hc2 : isConnected m2 = isConnected m)
      by (subst m2; rewrite (fold_left_preserves _ isConnected)
            by (intros; apply resolve_role_frame); reflexivity).
    assert (Hi2 : isIdentified m2 = isIdentified m)
      by (subst m2; rewrite (fold_left_preserves _ isIdentified)
            by (intros; apply resolve_role_frame); reflexivity).
    assert (Hn2 : nextId m2 = nextId m)
      by (subst m2; rewrite (fold_left_preserves _ nextId)
            by (intros; apply resolve_role_frame); reflexivity).
    assert (Hs2 : settled m2 = settled m)
      by (subst m2; rewrite (fold_left_preserves _ settled)
            by (intros; apply resolve_role_frame); reflexivity).
    assert (Ho2 : outbox m2 = outbox m)
      by (subst m2; rewrite (fold_left_preserves _ outbox)
            by (intros; apply resolve_role_frame); reflexivity).
    assert (Hh2 : handlers m2
                  = remove_first ("controller:state", OnceControllerState q) (handlers m))
      by (subst m2; rewrite (fold_left_preserves _ handlers)
            by (intros; apply resolve_role_frame); reflexivity).
    assert (Hc3 : isConnected m3 = isConnected m2)
      by (apply (fold_left_preserves _ isConnected); reflexivity).
    assert (Hi3 : isIdentified m3 = isIdentified m2)
      by (apply (fold_left_preserves _ isIdentified); reflexivity).
    assert (Hn3 : nextId m3 = nextId m2)
      by (apply (fold_left_preserves _ nextId); reflexivity).
    assert (Hs3 : settled m3 = settled m2)
      by (apply (fold_left_preserves _ settled); reflexivity).
    assert (Hh3 : handlers m3 = handlers m2)
      by (apply (fold_left_preserves _ handlers); reflexivity).
    assert (Hr3 : discovery_requests m3 = discovery_requests m2).
    { apply (fold_left_preserves _ discovery_requests). intros a b.
      rewrite discovery_requests_emit. cbn. lia. }
    rewrite calls_settle, decide_False by exact Hq. rewrite app_nil_r.
    change (isConnected (settle ?a ?b ?x)) with (isConnected x).
    change (isIdentified (settle ?a ?b ?x)) with (isIdentified x).
    change (nextId (settle ?a ?b ?x)) with (nextId x).
    change (discovery_requests (settle ?a ?b ?x)) with (discovery_requests x).
    change (handlers (settle ?a ?b ?x)) with (handlers x).
    change (components (settle ?a ?b ?x)) with (components x).
    change (discoveredList (settle ?a ?b ?x)) with (discoveredList x).
    unfold calls. rewrite Hc3, Hi3, Hn3, Hs3, Hh3, Hr3, Hc2, Hi2, Hn2, Hs2, Hh2.
    unfold discovery_requests at 1. rewrite Ho2.
    repeat (split; [reflexivity |]).
    cbn [no_components]. rewrite Hd. intros ->. split.
    + subst m3. rewrite (fold_left_preserves _ components) by reflexivity.
      subst m2 m1 m0. reflexivity.
    + subst m3. rewrite (fold_left_preserves _ discoveredList) by reflexivity.
      subst m2 m1 m0. reflexivity.
  - rewrite calls_settle, decide_False by exact Hq. rewrite app_nil_r.
    repeat (split; [reflexivity |]). reflexivity.
Qed.

Lemma elem_of_listeners (ev : string) (l : Listener) (m : Manager) :
  l ∈ listeners ev m <-> (ev, l) ∈ handlers m.
Proof.
  unfold listeners. rewrite list_elem_of_fmap. split.
  - intros ([ev' l'] & -> & Hin). apply list_elem_of_filter in Hin as [He Hin].
    cbn in He. subst ev'. exact Hin.
  - intros Hin. exists (ev, l). split; [reflexivity |].
    apply list_elem_of_filter. split; [reflexivity | exact Hin].
Qed.

Lemma listeners_remove_first_other (ev ev' : string) (l : Listener) (m m' : Manager) :
  ev <> ev' ->
  handlers m' = remove_first (ev', l) (handlers m) ->
  listeners ev m' = listeners ev m.
Proof.
  intros Hne Hh. rewrite <- (listeners_off_other ev ev' l m Hne).
  unfold listeners, off. cbn [handlers set_handlers]. rewrite Hh. reflexivity.
Qed.

Section HandshakeProperties.

Variable JSON_parse : JsValue -> option JsValue.







End HandshakeProperties.

(** ** Commands *)

Lemma remove_first_filter {A} `{EqDecision A} (x : A) (l : list A) :
  NoDup l -> remove_first x l = filter (fun y => y <> x) l.
Proof.
  induction 1 as [| y l Hy Hl IH]; [reflexivity |].
  cbn [remove_first]. destruct (decide (y = x)) as [-> | Hne].
  - rewrite filter_cons_False by (intros Hc; apply Hc; reflexivity).
    clear IH. induction l as [| z l IH]; [reflexivity |].
    apply not_elem_of_cons in Hy as [Hz Hy]. apply NoDup_cons in Hl as [_ Hl].
    rewrite filter_cons_True by congruence. f_equal. apply IH; assumption.
  - rewrite filter_cons_True by exact Hne. f_equal. exact IH.
Qed.

Lemma remove_first_length {A} `{EqDecision A} (x : A) (l : list A) :
  x ∈ l -> S (length (remove_first x l)) = length l.
Proof.
  induction l as [| y l IH]; intros Hin; [apply elem_of_nil in Hin; contradiction |].
  cbn [remove_first]. destruct (decide (y = x)) as [-> | Hne]; [reflexivity |].
  apply elem_of_cons in Hin as [-> | Hin]; [contradiction |].
  cbn. rewrite IH by exact Hin. reflexivity.
Qed.

Lemma remove_first_fst_NoDup (x : nat * string) (l : list (nat * string)) :
  NoDup l.*1 -> NoDup (remove_first x l).*1.
Proof.
  induction l as [| y l IH]; intros Hn; [exact Hn |].
  cbn [fmap list_fmap] in Hn. apply NoDup_cons in Hn as [Hy Hl].
  cbn [remove_first]. destruct (decide (y = x)); [exact Hl |].
  cbn [fmap list_fmap]. apply NoDup_cons. split; [| apply IH; exact Hl].
  intros Hin. apply Hy. apply list_elem_of_fmap in Hin as (z & -> & Hz).
  apply list_elem_of_fmap. exists z. split; [reflexivity |].
  eapply remove_first_subset. exact Hz.
Qed.

Lemma remove_first_elem (x y : nat * string) (l : list (nat * string)) :
  NoDup l.*1 -> x ∈ l ->
  (y ∈ remove_first x l <-> y ∈ l /\ y.1 <> x.1).
Proof.
  induction l as [| z l IH]; intros Hn Hx; [apply elem_of_nil in Hx; contradiction |].
  cbn [fmap list_fmap] in Hn. apply NoDup_cons in Hn as [Hz Hl].
  cbn [remove_first]. destruct (decide (z = x)) as [-> | Hne].
  - split.
    + intros Hy. split; [apply elem_of_cons; right; exact Hy |].
      intros He. apply Hz. rewrite <- He. apply list_elem_of_fmap_2. exact Hy.
    + intros [Hy He]. apply elem_of_cons in Hy as [-> | Hy]; [contradiction | exact Hy].
  - apply elem_of_cons in Hx as [-> | Hx]; [contradiction |].
    rewrite !elem_of_cons, (IH Hl Hx). split.
    + intros [-> | [Hy He]]; [| split; [right |]; assumption].
      split; [left; reflexivity |].
      intros He. apply Hz. rewrite He. apply list_elem_of_fmap_2. exact Hx.
    + intros [[-> | Hy] He]; [left; reflexivity | right; split; assumption].
Qed.

Lemma listeners_off_same (ev : string) (l : Listener) (m : Manager) :
  listeners ev (off ev l m) = remove_first l (listeners ev m).
Proof.
  unfold listeners, off. cbn [handlers set_handlers].
  induction (handlers m) as [| [ev' l'] hs IH]; [reflexivity |].
  cbn [remove_first]. destruct (decide ((ev', l') = (ev, l))) as [He | Hne].
  - injection He as -> ->. rewrite filter_cons_True by reflexivity.
    cbn [fmap list_fmap remove_first snd]. rewrite decide_True by reflexivity. reflexivity.
  - destruct (decide (ev' = ev)) as [-> | Hev].
    + rewrite !filter_cons_True by reflexivity.
      cbn [fmap list_fmap remove_first snd].
      rewrite decide_False by congruence. f_equal. exact IH.
    + rewrite !filter_cons_False by (cbn; congruence). exact IH.
Qed.

Lemma omap_remove_first_success (p : nat) (tid : string) (ls : list Listener) :
  omap command_of_success (remove_first (OnSuccess p tid) ls)
  = remove_first (p, tid) (omap command_of_success ls).
Proof.
  induction ls as [| l ls IH]; [reflexivity |].
  cbn [remove_first]. destruct (decide (l = OnSuccess p tid)) as [-> | Hne].
  - cbn. rewrite decide_True by reflexivity. reflexivity.
  - destruct l; cbn [omap list_omap command_of_success]; try exact IH.
    cbn [remove_first]. rewrite decide_False by congruence. f_equal. exact IH.
Qed.

Lemma omap_remove_first_error (p : nat) (tid : string) (ls : list Listener) :
  omap command_of_error (remove_first (OnError p tid) ls)
  = remove_first (p, tid) (omap command_of_error ls).
Proof.
  induction ls as [| l ls IH]; [reflexivity |].
  cbn [remove_first]. destruct (decide (l = OnError p tid)) as [-> | Hne].
  - cbn. rewrite decide_True by reflexivity. reflexivity.
  - destruct l; cbn [omap list_omap command_of_error]; try exact IH.
    cbn [remove_first]. rewrite decide_False by congruence. f_equal. exact IH.
Qed.

Lemma in_flight_clearTimeout (p : nat) (tid : string) (m : Manager) :
  in_flight (clearTimeout (TCommand p tid) m)
  = filter (fun c => c <> (p, tid)) (in_flight m).
Proof.
  unfold in_flight, clearTimeout. cbn [timers set_timers].
  induction (timers m) as [| [t d] ts IH]; [reflexivity |].
  destruct (decide (t = TCommand p tid)) as [-> | Hne].
  - rewrite filter_cons_False by (cbn; intros Hc; apply Hc; reflexivity).
    cbn [omap list_omap fst]. rewrite filter_cons_False
      by (intros Hc; apply Hc; reflexivity). exact IH.
  - rewrite filter_cons_True by exact Hne.
    destruct t; cbn [omap list_omap fst]; try exact IH.
    rewrite filter_cons_True by congruence. f_equal. exact IH.
Qed.

Lemma command_registered_success (p : nat) (tid : string) (m : Manager) :
  (p, tid) ∈ success_listeners m <-> OnSuccess p tid ∈ listeners "control:set:success" m.
Proof.
  unfold success_listeners. rewrite list_elem_of_omap. split.
  - intros (l & Hl & Hc). destruct l; try discriminate. injection Hc as -> ->. exact Hl.
  - intros Hl. exists (OnSuccess p tid). split; [exact Hl | reflexivity].
Qed.

Lemma command_registered_error (p : nat) (tid : string) (m : Manager) :
  (p, tid) ∈ error_listeners m <-> OnError p tid ∈ listeners "control:set:error" m.
Proof.
  unfold error_listeners. rewrite list_elem_of_omap. split.
  - intros (l & Hl & Hc). destruct l; try discriminate. injection Hc as -> ->. exact Hl.
  - intros Hl. exists (OnError p tid). split; [exact Hl | reflexivity].
Qed.

(** The end of a command in flight: it leaves the flight, its promise is
    settled by this one call, nothing else changes for the other
    commands, and the invariant stays. *)
Lemma complete_effect (m0 m : Manager) (p : nat) (tid : string) (o : Settlement) :
  tracked m0 m ->
  (p, tid) ∈ in_flight m ->
  let m' := complete p tid o m in
  tracked m0 m'
  /\ in_flight m' = remove_first (p, tid) (in_flight m)
  /\ calls p m' = [o]
  /\ (forall q, q <> p -> calls q m' = calls q m).
Proof.
  intros (Hs & He & Hn & Hid & Hfl & Hdone & Hnew & Hcs & Hce) Hin. cbn zeta.
  assert (Hnp : NoDup (in_flight m)) by (eapply NoDup_fmap_1; exact Hn).
  assert (Hf' : in_flight (complete p tid o m) = remove_first (p, tid) (in_flight m)).
  { unfold complete, cleanup.
    change (in_flight (settle ?a ?b (off ?e1 ?l1 (off ?e2 ?l2 ?x)))) with (in_flight x).
    rewrite in_flight_clearTimeout. symmetry. apply remove_first_filter. exact Hnp. }
  assert (Hls : listeners "control:set:success" (complete p tid o m)
                = remove_first (OnSuccess p tid) (listeners "control:set:success" m)).
  { unfold complete, cleanup.
    change (listeners ?ev (settle ?a ?b ?x)) with (listeners ev x).
    rewrite listeners_off_other by discriminate.
    rewrite listeners_off_same. reflexivity. }
  assert (Hle : listeners "control:set:error" (complete p tid o m)
                = remove_first (OnError p tid) (listeners "control:set:error" m)).
  { unfold complete, cleanup.
    change (listeners ?ev (settle ?a ?b ?x)) with (listeners ev x).
    rewrite listeners_off_same.
    rewrite listeners_off_other by discriminate. reflexivity. }
  assert (Hcalls : forall q, calls q (complete p tid o m)
                             = calls q m ++ (if decide (p = q) then [o] else [])).
  { intros q. unfold complete. rewrite calls_settle. reflexivity. }
  destruct (Hfl p tid Hin) as [Hrange Hnone].
  assert (Hlen : S (length (in_flight (complete p tid o m))) = length (in_flight m)).
  { rewrite Hf'. apply remove_first_length. exact Hin. }
  split; [| split; [exact Hf' | split]].
  - unfold tracked. rewrite Hf'.
    split.
    { unfold success_listeners. rewrite Hls, omap_remove_first_success.
      fold (success_listeners m). rewrite Hs. reflexivity. }
    split.
    { unfold error_listeners. rewrite Hle, omap_remove_first_error.
      fold (error_listeners m). rewrite He. reflexivity. }
    split; [apply remove_first_fst_NoDup; exact Hn |].
    split; [exact Hid |].
    split.
    { intros q t Hq.
      apply remove_first_elem in Hq as [Hq Hne]; [| exact Hn | exact Hin].
      destruct (Hfl q t Hq) as [Hr Hc]. split; [exact Hr |].
      rewrite Hcalls, decide_False by (cbn in Hne; congruence).
      rewrite app_nil_r. exact Hc. }
    split.
    { intros q Hq Hnot. rewrite Hcalls.
      destruct (decide (p = q)) as [<- | Hne].
      - rewrite Hnone. reflexivity.
      - rewrite app_nil_r. apply Hdone; [exact Hq |].
        intros Hc. apply Hnot. apply list_elem_of_fmap in Hc as ([q' t'] & -> & Hc).
        apply list_elem_of_fmap. exists (q', t'). split; [reflexivity |].
        apply remove_first_elem; [exact Hn | exact Hin |].
        split; [exact Hc | cbn in *; congruence]. }
    split.
    { intros q Hq. rewrite Hcalls, decide_False by (cbn in Hq; lia).
      rewrite app_nil_r. apply Hnew. exact Hq. }
    split.
    { unfold listenerCount in *. rewrite Hls.
      assert (Hreg : OnSuccess p tid ∈ listeners "control:set:success" m).
      { apply command_registered_success. rewrite Hs. exact Hin. }
      pose proof (remove_first_length _ _ Hreg) as Hl1. rewrite <- Hf'. lia. }
    { unfold listenerCount in *. rewrite Hle.
      assert (Hreg : OnError p tid ∈ listeners "control:set:error" m).
      { apply command_registered_error. rewrite He. exact Hin. }
      pose proof (remove_first_length _ _ Hreg) as Hl1. rewrite <- Hf'. lia. }
  - rewrite Hcalls, decide_True by reflexivity. rewrite Hnone. reflexivity.
  - intros q Hq. rewrite Hcalls, decide_False by congruence. apply app_nil_r.
Qed.

Lemma timer_set_in_flight (p : nat) (tid : string) (m : Manager) :
  timer_set (TCommand p tid) m = true <-> (p, tid) ∈ in_flight m.
Proof.
  unfold timer_set, in_flight. rewrite bool_decide_eq_true, list_elem_of_omap,
    list_elem_of_fmap. split.
  - intros ([t d] & Ht & Hin). cbn in Ht. subst t. exists (TCommand p tid, d).
    split; [exact Hin | reflexivity].
  - intros ([t d] & Hin & Ht). cbn in Ht. destruct t; try discriminate.
    injection Ht as -> ->. exists (TCommand p tid, d). split; [reflexivity | exact Hin].
Qed.

Lemma idle_tracked (m0 : Manager) : idle m0 -> tracked m0 m0.
Proof.
  intros (Hf & Hs & He & Hnew). unfold tracked. rewrite Hf, Hs, He.
  split; [reflexivity |]. split; [reflexivity |]. split; [apply NoDup_nil_2 |].
  split; [lia |]. split.
  { intros p tid Hin. apply elem_of_nil in Hin. contradiction. }
  split; [intros p Hp _; lia |]. split; [exact Hnew |]. cbn. split; lia.
Qed.

Lemma in_flight_ids_bound (m0 m : Manager) (p : nat) :
  tracked m0 m -> p ∈ (in_flight m).*1 -> (nextId m0 <= p < nextId m)%nat.
Proof.
  intros (_ & _ & _ & _ & Hfl & _) Hin.
  apply list_elem_of_fmap in Hin as ([q tid] & -> & Hin). apply (Hfl q tid Hin).
Qed.

(** [sendControl] draws a new promise; it either rejects it at once or
    puts the command in flight. *)
Lemma sendControl_effect (m0 m : Manager) (k c : string) (v : JsValue) (tid : string) :
  tracked m0 m ->
  let r := sendControl k c v tid m in
  r.1 = nextId m
  /\ tracked m0 r.2
  /\ nextId r.2 = S (nextId m)
  /\ (forall q, q <> nextId m -> calls q r.2 = calls q m)
  /\ (forall x, x ∈ in_flight r.2 -> x ∈ in_flight m \/ x = (nextId m, tid))
  /\ (forall cid, isConnected m = true -> isIdentified m = true ->
        resolve_target k m = Some cid ->
        in_flight r.2 = in_flight m ++ [(nextId m, tid)]
        /\ outbox r.2 = outbox m ++ [MsgControlSet (controllerId (config m)) cid c v tid]).
Proof.
  intros (Hs & He & Hn & Hid & Hfl & Hdone & Hnew & Hcs & Hce). cbn zeta.
  assert (Hfresh : nextId m ∉ (in_flight m).*1).
  { intros Hin. apply list_elem_of_fmap in Hin as ([q t] & Hq & Hin).
    cbn in Hq. subst q. destruct (Hfl _ _ Hin) as [Hr _]. lia. }
  assert (Hrej : forall msg,
    let m' := settle (nextId m) (Reject msg) (set_nextId (S (nextId m)) m) in
    tracked m0 m' /\ nextId m' = S (nextId m)
    /\ (forall q, q <> nextId m -> calls q m' = calls q m)
    /\ (forall x, x ∈ in_flight m' -> x ∈ in_flight m \/ x = (nextId m, tid))).
  { intros msg. cbn zeta.
    assert (Hcalls : forall q, calls q (settle (nextId m) (Reject msg)
                                          (set_nextId (S (nextId m)) m))
                               = calls q m ++ (if decide (nextId m = q)
                                               then [Reject msg] else []))
      by (intros q; rewrite calls_settle; reflexivity).
    split; [| split; [reflexivity | split]].
    - unfold tracked.
      change (in_flight (settle ?a ?b (set_nextId ?n ?x))) with (in_flight x).
      change (success_listeners (settle ?a ?b (set_nextId ?n ?x)))
        with (success_listeners x).
      change (error_listeners (settle ?a ?b (set_nextId ?n ?x)))
        with (error_listeners x).
      change (listenerCount ?ev (settle ?a ?b (set_nextId ?n ?x)))
        with (listenerCount ev x).
      change (nextId (settle ?a ?b (set_nextId ?n ?x))) with n.
      split; [exact Hs |]. split; [exact He |]. split; [exact Hn |].
      split; [lia |]. split; [| split; [| split; [| split; assumption]]].
      + intros q t Hin. destruct (Hfl q t Hin) as [Hr Hc]. split; [lia |].
        rewrite Hcalls, decide_False by lia. rewrite app_nil_r. exact Hc.
      + intros q Hq Hnot. rewrite Hcalls. destruct (decide (nextId m = q)) as [<- | Hne].
        * rewrite Hnew by lia. reflexivity.
        * rewrite app_nil_r. apply Hdone; [lia | exact Hnot].
      + intros q Hq. rewrite Hcalls, decide_False by lia. rewrite app_nil_r.
        apply Hnew. lia.
    - intros q Hq. rewrite Hcalls, decide_False by congruence. apply app_nil_r.
    - intros x Hx. left. exact Hx. }
  unfold sendControl, fresh.
  change (isConnected (set_nextId ?n ?x)) with (isConnected x).
  change (isIdentified (set_nextId ?n ?x)) with (isIdentified x).
  change (resolve_target k (set_nextId ?n ?x)) with (resolve_target k x).
  destruct (negb (isConnected m) || negb (isIdentified m)) eqn:Hguard.
  { cbn [fst snd]. destruct (Hrej "Not connected") as (H1 & H2 & H3 & H4).
    split; [reflexivity |]. repeat (split; [assumption |]).
    intros cid Hc Hi. rewrite Hc, Hi in Hguard. discriminate. }
  destruct (resolve_target k m) as [cid |] eqn:Hres.
  2:{ cbn [fst snd].
      destruct (Hrej ("Component not found: " +:+ k)) as (H1 & H2 & H3 & H4).
      split; [reflexivity |]. repeat (split; [assumption |]).
      intros cid _ _ Hc. discriminate. }
  cbn [fst snd].
  set (p := nextId m) in *.
  set (m' := emit _ _).
  assert (Hf' : in_flight m' = in_flight m ++ [(p, tid)]).
  { subst m'. unfold in_flight. cbn [timers emit set_outbox on set_handlers setTimeout
      set_timers set_nextId]. rewrite omap_app. reflexivity. }
  assert (Hs' : success_listeners m' = success_listeners m ++ [(p, tid)]).
  { subst m'. unfold success_listeners.
    change (listeners ?ev (emit ?w ?x)) with (listeners ev x).
    rewrite !listeners_on. rewrite decide_True by reflexivity.
    rewrite decide_False by discriminate. rewrite app_nil_r, omap_app. reflexivity. }
  assert (He' : error_listeners m' = error_listeners m ++ [(p, tid)]).
  { subst m'. unfold error_listeners.
    change (listeners ?ev (emit ?w ?x)) with (listeners ev x).
    rewrite !listeners_on. rewrite decide_False by discriminate.
    rewrite decide_True by reflexivity. rewrite app_nil_r, omap_app. reflexivity. }
  assert (Hcs' : listenerCount "control:set:success" m'
                 = S (listenerCount "control:set:success" m)).
  { subst m'. unfold listenerCount.
    change (listeners ?ev (emit ?w ?x)) with (listeners ev x).
    rewrite !listeners_on. rewrite decide_True by reflexivity.
    rewrite decide_False by discriminate. rewrite app_nil_r, length_app. cbn.
    unfold listeners. cbn. lia. }
  assert (Hce' : listenerCount "control:set:error" m'
                 = S (listenerCount "control:set:error" m)).
  { subst m'. unfold listenerCount.
    change (listeners ?ev (emit ?w ?x)) with (listeners ev x).
    rewrite !listeners_on. rewrite decide_False by discriminate.
    rewrite decide_True by reflexivity. rewrite !length_app. cbn.
    unfold listeners. cbn. lia. }
  assert (Hcalls' : forall q, calls q m' = calls q m) by reflexivity.
  split; [reflexivity |]. split; [| split; [reflexivity | split; [| split]]].
  - unfold tracked. rewrite Hf', Hs', He', Hcs', Hce', Hs, He, length_app.
    change (nextId m') with (S p).
    split; [reflexivity |]. split; [reflexivity |]. split.
    { rewrite fmap_app. apply NoDup_app. split; [exact Hn |]. split.
      - intros x Hx Hx'. cbn in Hx'. apply list_elem_of_singleton in Hx'. subst x.
        apply Hfresh. exact Hx.
      - apply NoDup_singleton. }
    split; [subst p; lia |]. split; [| split; [| split; [| split; cbn; lia]]].
    + intros q t Hin. rewrite Hcalls'. apply elem_of_app in Hin as [Hin | Hin].
      * destruct (Hfl q t Hin) as [Hr Hc]. split; [subst p; lia | exact Hc].
      * apply list_elem_of_singleton in Hin. injection Hin as -> ->.
        split; [subst p; lia | apply Hnew; subst p; lia].
    + intros q Hq Hnot. rewrite Hcalls'. rewrite fmap_app in Hnot.
      apply not_elem_of_app in Hnot as [Hnot Hq']. cbn in Hq'.
      apply not_elem_of_cons in Hq' as [Hq' _].
      apply Hdone; [subst p; lia | exact Hnot].
    + intros q Hq. rewrite Hcalls'. apply Hnew. subst p. lia.
  - intros q _. apply Hcalls'.
  - intros x Hx. rewrite Hf' in Hx. apply elem_of_app in Hx as [Hx | Hx];
      [left; exact Hx | right; apply list_elem_of_singleton in Hx; exact Hx].
  - intros cid' _ _ Hc. injection Hc as <-. split; [exact Hf' | reflexivity].
Qed.

Lemma completion_command (e : Inbound) (l : Listener) (p : nat) (tid : string)
    (o : Settlement) :
  completion e l = Some (p, tid, o) -> command_of e l = Some (p, tid).
Proof.
  destruct e, l; cbn; try discriminate;
    destruct (String.eqb _ _); try discriminate; intros H; injection H as -> -> _;
    reflexivity.
Qed.

Lemma completions_in (e : Inbound) (ls : list Listener) (p : nat) (tid : string)
    (o : Settlement) :
  (p, tid, o) ∈ completions e ls -> (p, tid) ∈ omap (command_of e) ls.
Proof.
  unfold completions. rewrite !list_elem_of_omap. intros (l & Hl & Hc).
  exists l. split; [exact Hl | eapply completion_command; exact Hc].
Qed.

Lemma completions_NoDup (e : Inbound) (ls : list Listener) :
  NoDup (omap (command_of e) ls).*1 -> NoDup ((completions e ls).*1).*1.
Proof.
  unfold completions. induction ls as [| l ls IH]; intros Hn; [apply NoDup_nil_2 |].
  cbn [omap list_omap] in *.
  destruct (completion e l) as [[[p tid] o] |] eqn:Hc.
  - rewrite (completion_command _ _ _ _ _ Hc) in Hn. cbn [fmap list_fmap fst] in *.
    apply NoDup_cons in Hn as [Hp Hn]. apply NoDup_cons. split; [| apply IH; exact Hn].
    intros Hin. apply Hp.
    apply list_elem_of_fmap in Hin as ([q t] & Hq & Hin). cbn in Hq. subst q.
    apply list_elem_of_fmap in Hin as ([[q t'] o'] & Hq & Hin). cbn in Hq.
    injection Hq as <- <-.
    apply list_elem_of_fmap. exists (p, t). split; [reflexivity |].
    eapply completions_in. exact Hin.
  - destruct (command_of e l); [| apply IH; exact Hn].
    cbn [fmap list_fmap] in Hn. apply NoDup_cons in Hn as [_ Hn]. apply IH. exact Hn.
Qed.

Section CommandProperties.

Variable JSON_parse : JsValue -> option JsValue.

(** On a reply of the bridge a listener either does nothing or ends its
    command. *)
Lemma run_listener_reply (now : Z) (e : Inbound) (l : Listener) (m : Manager) :
  (exists d, e = InControlSetSuccess d \/ e = InControlSetError d) ->
  run_listener JSON_parse now e l m
  = match completion e l with
    | Some (p, tid, o) => complete p tid o m
    | None => m
    end.
Proof.
  intros (d & [-> | ->]); destruct l; cbn [run_listener completion]; try reflexivity.
  - unfold onSuccess, complete. destruct (String.eqb _ _); reflexivity.
  - unfold onError, complete. destruct (String.eqb _ _); reflexivity.
Qed.

(** The delivery of a reply to the listeners [ls]: the commands it ends
    leave the flight, each settled by one call; the others are as before. *)
Lemma fold_replies (m0 : Manager) (now : Z) (e : Inbound) (ls : list Listener)
    (m : Manager) :
  (exists d, e = InControlSetSuccess d \/ e = InControlSetError d) ->
  tracked m0 m ->
  NoDup ((completions e ls).*1).*1 ->
  (forall p tid o, (p, tid, o) ∈ completions e ls -> (p, tid) ∈ in_flight m) ->
  let m' := fold_left (fun m l => run_listener JSON_parse now e l m) ls m in
  tracked m0 m'
  /\ nextId m' = nextId m
  /\ (forall c, c ∈ in_flight m' <->
                c ∈ in_flight m /\ c.1 ∉ ((completions e ls).*1).*1)
  /\ (forall p tid o, (p, tid, o) ∈ completions e ls -> calls p m' = [o])
  /\ (forall q, q ∉ ((completions e ls).*1).*1 -> calls q m' = calls q m).
Proof.
  intros He. cbn zeta. revert m. unfold completions.
  induction ls as [| l ls IH]; intros m Ht Hn Hin.
  - cbn. split; [exact Ht |]. split; [reflexivity |]. split; [| split].
    + intros c. split; [intros H; split; [exact H | apply not_elem_of_nil] | tauto].
    + intros p tid o H. apply elem_of_nil in H. contradiction.
    + reflexivity.
  - cbn [fold_left omap list_omap] in *. rewrite (run_listener_reply now e l m He).
    destruct (completion e l) as [[[p tid] o] |] eqn:Hc.
    + cbn [fmap list_fmap fst] in *.
      apply NoDup_cons in Hn as [Hp Hn].
      assert (Hfl : (p, tid) ∈ in_flight m)
        by (apply (Hin p tid o); apply elem_of_cons; left; reflexivity).
      destruct (complete_effect m0 m p tid o Ht Hfl) as (Ht1 & Hf1 & Hc1 & Ho1).
      assert (Hnd : NoDup (in_flight m).*1) by apply Ht.
      assert (Hin1 : forall p' tid' o', (p', tid', o') ∈ omap (completion e) ls ->
                                        (p', tid') ∈ in_flight (complete p tid o m)).
      { intros p' tid' o' H. rewrite Hf1. apply remove_first_elem; [exact Hnd | exact Hfl |].
        split; [apply (Hin p' tid' o'); apply elem_of_cons; right; exact H |].
        cbn. intros ->. apply Hp.
        apply list_elem_of_fmap. exists (p, tid'). split; [reflexivity |].
        apply list_elem_of_fmap. exists (p, tid', o'). split; [reflexivity | exact H]. }
      destruct (IH (complete p tid o m) Ht1 Hn Hin1) as (Ht' & Hn' & Hf' & Hc' & Ho').
      split; [exact Ht' |]. split; [exact Hn' |]. split; [| split].
      * intros c. rewrite Hf', Hf1, not_elem_of_cons.
        rewrite (remove_first_elem _ _ _ Hnd Hfl). cbn. tauto.
      * intros p' tid' o' H. apply elem_of_cons in H as [H | H].
        -- injection H as -> -> ->. rewrite Ho' by exact Hp. exact Hc1.
        -- apply (Hc' p' tid' o' H).
      * intros q Hq. apply not_elem_of_cons in Hq as [Hq1 Hq2].
        rewrite Ho' by exact Hq2. apply Ho1. exact Hq1.
    + apply IH; assumption.
Qed.

(** One event of a trace keeps the invariant and leaves a command that is
    no longer in flight as it is. *)
Lemma command_step_effect (m0 m : Manager) (e : CommandEvent) :
  tracked m0 m ->
  let m' := command_step JSON_parse m e in
  tracked m0 m'
  /\ (nextId m <= nextId m')%nat
  /\ (forall p, (p < nextId m)%nat -> p ∉ (in_flight m).*1 ->
        (p ∉ (in_flight m').*1) /\ calls p m' = calls p m).
Proof.
  intros Ht. cbn zeta.
  assert (Hreply : forall now ev,
            (exists d, ev = InControlSetSuccess d \/ ev = InControlSetError d) ->
            omap (command_of ev) (listeners (event_name ev) m) = in_flight m ->
            let m' := recv JSON_parse now ev m in
            tracked m0 m' /\ (nextId m <= nextId m')%nat
            /\ (forall p, (p < nextId m)%nat -> p ∉ (in_flight m).*1 ->
                  (p ∉ (in_flight m').*1) /\ calls p m' = calls p m)).
  { intros now ev Hev Hcmds. cbn zeta. unfold recv.
    assert (Hn : NoDup ((completions ev (listeners (event_name ev) m)).*1).*1).
    { apply completions_NoDup. rewrite Hcmds. apply Ht. }
    assert (Hin : forall p tid o,
               (p, tid, o) ∈ completions ev (listeners (event_name ev) m) ->
               (p, tid) ∈ in_flight m).
    { intros p tid o H. rewrite <- Hcmds. eapply completions_in. exact H. }
    destruct (fold_replies m0 now ev _ m Hev Ht Hn Hin) as (Ht' & Hn' & Hf' & _ & Ho').
    split; [exact Ht' |]. split; [lia |].
    intros p _ Hnot.
    assert (Hp : p ∉ ((completions ev (listeners (event_name ev) m)).*1).*1).
    { intros Hc. apply Hnot.
      apply list_elem_of_fmap in Hc as ([q t] & Hq & Hc). cbn in Hq. subst q.
      apply list_elem_of_fmap in Hc as ([[q t'] o'] & Hq & Hc). cbn in Hq.
      injection Hq as <- <-.
      apply list_elem_of_fmap. exists (p, t). split; [reflexivity |].
      apply (Hin p t o' Hc). }
    split; [| apply Ho'; exact Hp].
    intros Hc. apply Hnot. apply list_elem_of_fmap in Hc as (c & -> & Hc).
    apply Hf' in Hc as [Hc _]. apply list_elem_of_fmap_2. exact Hc. }
  destruct e as [k c v tid | now d | now d | p tid]; cbn [command_step].
  - destruct (sendControl_effect m0 m k c v tid Ht) as (_ & Ht' & Hn' & Hc' & Hf' & _).
    split; [exact Ht' |]. split; [lia |].
    intros p Hp Hnot. split; [| apply Hc'; lia].
    intros Hin. apply list_elem_of_fmap in Hin as (x & -> & Hx).
    destruct (Hf' x Hx) as [Hx' | ->]; [| cbn in Hp; lia].
    apply Hnot. apply list_elem_of_fmap_2. exact Hx'.
  - apply Hreply; [exists d; left; reflexivity | apply Ht].
  - apply Hreply; [exists d; right; reflexivity | apply Ht].
  - unfold fire. destruct (timer_set (TCommand p tid) m) eqn:Hset.
    + apply timer_set_in_flight in Hset.
      destruct (complete_effect m0 m p tid (Reject "Command timeout") Ht Hset)
        as (Ht' & Hf' & _ & Ho').
      change (timer_callback (TCommand p tid) (clearTimeout (TCommand p tid) m))
        with (complete p tid (Reject "Command timeout") m).
      split; [exact Ht' |]. split; [apply Nat.le_refl |].
      intros q _ Hnot. split.
      * intros Hin. apply Hnot. apply list_elem_of_fmap in Hin as (x & -> & Hx).
        rewrite Hf' in Hx. apply remove_first_subset in Hx.
        apply list_elem_of_fmap_2. exact Hx.
      * apply Ho'. intros ->. apply Hnot.
        apply list_elem_of_fmap. exists (p, tid). split; [reflexivity | exact Hset].
    + split; [exact Ht |]. split; [apply Nat.le_refl |]. intros q _ Hnot. split; auto.
Qed.

Lemma command_run_effect (m0 : Manager) (es : list CommandEvent) (m : Manager) :
  tracked m0 m ->
  let m' := command_run JSON_parse m es in
  tracked m0 m'
  /\ (nextId m <= nextId m')%nat
  /\ (forall p, (p < nextId m)%nat -> p ∉ (in_flight m).*1 ->
        (p ∉ (in_flight m').*1) /\ calls p m' = calls p m).
Proof.
  cbn zeta. revert m. induction es as [| e es IH]; intros m Ht.
  - cbn. split; [exact Ht |]. split; [apply Nat.le_refl |]. intros p _ Hn. split; auto.
  - cbn [command_run fold_left].
    destruct (command_step_effect m0 m e Ht) as (Ht1 & Hn1 & Hk1).
    destruct (IH _ Ht1) as (Ht2 & Hn2 & Hk2).
    split; [exact Ht2 |]. split; [unfold command_run in Hn2; lia |].
    intros p Hp Hnot. destruct (Hk1 p Hp Hnot) as [Hnot1 Hc1].
    destruct (Hk2 p (Nat.lt_le_trans _ _ _ Hp Hn1) Hnot1) as [Hnot2 Hc2].
    split; [exact Hnot2 |]. unfold command_run in Hc2. rewrite Hc2. exact Hc1.
Qed.

(** The commands of one socket. On any trace of calls of [sendControl],
    replies of the bridge and command timeouts on a socket that stays the
    socket of the manager, and that starts with no command in flight: a
    command in
    flight is not settled and has its two listeners registered; a command
    that was issued and is no longer in flight has been settled by exactly
    one call of [resolve] or [reject], and neither of its listeners is
    registered; the listeners of ['control:set:success'] and of
    ['control:set:error'] are those present at the start and one per
    command in flight, so when no command is in flight their count is the
    count at the start. A call on a connected and identified manager for a
    target that resolves puts the command in flight and emits the
    ['control:set'] request. For a command in flight, each of the matching
    success event, the matching error event and the timeout settles it by
    that one call and takes it out of flight; and whatever arrives after a
    command has left the flight does not settle it again. *)
Theorem sendControl_settles_once_and_cleans_up
    (m0 : Manager) (es : list CommandEvent) :
  idle m0 ->
  let m := command_run JSON_parse m0 es in
  let step := command_step JSON_parse m in
  (forall p tid, (p, tid) ∈ in_flight m ->
     calls p m = []
     /\ OnSuccess p tid ∈ listeners "control:set:success" m
     /\ OnError p tid ∈ listeners "control:set:error" m)
  /\ (forall p, (nextId m0 <= p < nextId m)%nat -> p ∉ (in_flight m).*1 ->
        length (calls p m) = 1%nat
        /\ forall tid, (OnSuccess p tid ∉ listeners "control:set:success" m)
                       /\ (OnError p tid ∉ listeners "control:set:error" m))
  /\ listenerCount "control:set:success" m
     = (listenerCount "control:set:success" m0 + length (in_flight m))%nat
  /\ listenerCount "control:set:error" m
     = (listenerCount "control:set:error" m0 + length (in_flight m))%nat
  /\ (in_flight m = [] ->
      listenerCount "control:set:success" m = listenerCount "control:set:success" m0
      /\ listenerCount "control:set:error" m = listenerCount "control:set:error" m0)
  /\ (forall k c v tid cid,
        isConnected m = true -> isIdentified m = true ->
        resolve_target k m = Some cid ->
        in_flight (step (CmdSend k c v tid)) = in_flight m ++ [(nextId m, tid)]
        /\ outbox (step (CmdSend k c v tid))
           = outbox m ++ [MsgControlSet (controllerId (config m)) cid c v tid])
  /\ (forall p tid, (p, tid) ∈ in_flight m ->
        (forall now d, sr_transactionId d = tid ->
           calls p (step (CmdSuccess now d)) = [ResolveCommand tid]
           /\ p ∉ (in_flight (step (CmdSuccess now d))).*1)
        /\ (forall now d, sr_transactionId d = tid ->
              calls p (step (CmdError now d))
              = [Reject (or_str (sr_message d) (or_str (sr_error d) "Command failed"))]
              /\ p ∉ (in_flight (step (CmdError now d))).*1)
        /\ calls p (step (CmdTimeout p tid)) = [Reject "Command timeout"]
        /\ p ∉ (in_flight (step (CmdTimeout p tid))).*1)
  /\ (forall p es', (nextId m0 <= p < nextId m)%nat -> p ∉ (in_flight m).*1 ->
        calls p (command_run JSON_parse m es') = calls p m).
Proof.
  intros Hidle. cbn zeta.
  destruct (command_run_effect m0 es m0 (idle_tracked m0 Hidle)) as (Ht & Hn & _).
  set (m := command_run JSON_parse m0 es) in *.
  pose proof Ht as (Hs & He & Hnd & Hid & Hfl & Hdone & Hnew & Hcs & Hce).
  assert (Hreply : forall now ev p tid o,
            (exists d, ev = InControlSetSuccess d \/ ev = InControlSetError d) ->
            omap (command_of ev) (listeners (event_name ev) m) = in_flight m ->
            (p, tid, o) ∈ completions ev (listeners (event_name ev) m) ->
            calls p (recv JSON_parse now ev m) = [o]
            /\ p ∉ (in_flight (recv JSON_parse now ev m)).*1).
  { intros now ev p tid o Hev Hcmds Hin. unfold recv.
    assert (Hn' : NoDup ((completions ev (listeners (event_name ev) m)).*1).*1).
    { apply completions_NoDup. rewrite Hcmds. exact Hnd. }
    assert (Hin' : forall p tid o,
               (p, tid, o) ∈ completions ev (listeners (event_name ev) m) ->
               (p, tid) ∈ in_flight m).
    { intros p' tid' o' H. rewrite <- Hcmds. eapply completions_in. exact H. }
    destruct (fold_replies m0 now ev _ m Hev Ht Hn' Hin') as (_ & _ & Hf' & Hc' & _).
    split; [apply (Hc' p tid o Hin) |].
    intros Hc. apply list_elem_of_fmap in Hc as (c & Hp & Hc).
    apply Hf' in Hc as [_ Hc]. apply Hc. rewrite <- Hp.
    apply list_elem_of_fmap. exists (p, tid). split; [reflexivity |].
    apply list_elem_of_fmap. exists (p, tid, o). split; [reflexivity | exact Hin]. }
  split; [| split; [| split; [exact Hcs | split; [exact Hce | split; [| split; [| split]]]]]].
  - intros p tid Hin. split; [apply (Hfl p tid Hin) |]. split.
    + apply command_registered_success. rewrite Hs. exact Hin.
    + apply command_registered_error. rewrite He. exact Hin.
  - intros p Hp Hnot. split; [apply Hdone; assumption |].
    intros tid. split; intros Hin; apply Hnot.
    + apply command_registered_success in Hin. rewrite Hs in Hin.
      apply list_elem_of_fmap. exists (p, tid). split; [reflexivity | exact Hin].
    + apply command_registered_error in Hin. rewrite He in Hin.
      apply list_elem_of_fmap. exists (p, tid). split; [reflexivity | exact Hin].
  - intros Hnone. rewrite Hcs, Hce, Hnone. cbn. split; lia.
  - intros k c v tid cid Hc Hi Hr. cbn [command_step].
    destruct (sendControl_effect m0 m k c v tid Ht) as (_ & _ & _ & _ & _ & Hsend).
    apply (Hsend cid Hc Hi Hr).
  - intros p tid Hin. split; [| split].
    + intros now d Hd. cbn [command_step].
      apply (Hreply now (InControlSetSuccess d) p tid (ResolveCommand tid)).
      * exists d. left. reflexivity.
      * exact Hs.
      * unfold completions. apply list_elem_of_omap. exists (OnSuccess p tid). split.
        -- apply command_registered_success. rewrite Hs. exact Hin.
        -- cbn. rewrite Hd, String.eqb_refl. reflexivity.
    + intros now d Hd. cbn [command_step].
      apply (Hreply now (InControlSetError d) p tid
               (Reject (or_str (sr_message d) (or_str (sr_error d) "Command failed")))).
      * exists d. right. reflexivity.
      * exact He.
      * unfold completions. apply list_elem_of_omap. exists (OnError p tid). split.
        -- apply command_registered_error. rewrite He. exact Hin.
        -- cbn. rewrite Hd, String.eqb_refl. reflexivity.
    + cbn [command_step]. unfold fire.
      rewrite (proj2 (timer_set_in_flight p tid m) Hin).
      change (timer_callback (TCommand p tid) (clearTimeout (TCommand p tid) m))
        with (complete p tid (Reject "Command timeout") m).
      destruct (complete_effect m0 m p tid (Reject "Command timeout") Ht Hin)
        as (_ & Hf' & Hc' & _).
      split; [exact Hc' |].
      intros Hc. apply list_elem_of_fmap in Hc as ([q t] & Hq & Hc). cbn in Hq. subst q.
      rewrite Hf' in Hc. apply remove_first_elem in Hc as [_ Hc]; [| exact Hnd | exact Hin].
      apply Hc. reflexivity.
  - intros p es' Hp Hnot.
    destruct (command_run_effect m0 es' m Ht) as (_ & _ & Hk).
    apply Hk; [lia | exact Hnot].
Qed.

End CommandProperties.

(** After its handshake [ready_manager] has no command in flight. *)
Lemma ready_manager_idle : idle ready_manager.
Proof.
  split; [vm_compute; reflexivity |]. split; [vm_compute; reflexivity |].
  split; [vm_compute; reflexivity |].
  intros p Hp. change (nextId ready_manager) with 3%nat in Hp.
  unfold calls.
  change (settled ready_manager)
    with [(1%nat, ResolveIdentify); (2%nat, ResolveDiscovery true 1); (0%nat, ResolveInit)].
  rewrite !filter_cons_False by (cbn; lia). reflexivity.
Qed.

(** The theorem on the two commands of [two_commands]. *)
Lemma sendControl_settles_once_and_cleans_up_witness :
  idle ready_manager
  /\ listenerCount "control:set:success"
       (command_run parse_fragment ready_manager two_commands)
     = (listenerCount "control:set:success" ready_manager
        + length (in_flight (command_run parse_fragment ready_manager two_commands)))%nat.
Proof.
  split; [exact ready_manager_idle |].
  pose proof (sendControl_settles_once_and_cleans_up parse_fragment ready_manager
                two_commands ready_manager_idle) as H.
  cbn zeta in H. destruct H as (_ & _ & H & _). exact H.
Defined.



(** ** A manager that is not connected *)

Lemma client_step_offline (m : Manager) (c : ClientCall) :
  isConnected m = false ->
  let m' := client_step m c in
  isConnected m' = false
  /\ outbox m' = outbox m /\ handlers m' = handlers m /\ timers m' = timers m
  /\ nextId m' = (nextId m + (if is_send c then 1 else 0))%nat
  /\ settled m' = settled m
                  ++ (if is_send c then [(nextId m, Reject "Not connected")] else []).
Proof.
  intros Hc. cbn zeta. destruct c as [k c v tid | cid | now | now]; cbn [client_step is_send].
  - unfold sendControl, fresh. cbn [isConnected isIdentified set_nextId].
    rewrite Hc. cbn. rewrite Hc. repeat split; [lia].
  - unfold subscribeToComponent. rewrite Hc. cbn.
    rewrite Nat.add_0_r, app_nil_r. repeat split; assumption.
  - unfold heartbeat_tick. rewrite Hc.
    rewrite Nat.add_0_r, app_nil_r. repeat split; assumption.
  - unfold monitor_tick. rewrite Hc. cbn.
    rewrite Nat.add_0_r, app_nil_r. repeat split; assumption.
Qed.

Lemma client_run_offline (cs : list ClientCall) (m : Manager) :
  isConnected m = false ->
  let m' := fold_left client_step cs m in
  isConnected m' = false
  /\ outbox m' = outbox m /\ handlers m' = handlers m /\ timers m' = timers m
  /\ settled m' = settled m ++ refused m cs.
Proof.
  revert m. induction cs as [| c cs IH]; intros m Hc; cbn zeta.
  - cbn. unfold refused. cbn. rewrite app_nil_r. repeat split; assumption.
  - cbn [fold_left].
    destruct (client_step_offline m c Hc) as (Hc1 & Ho1 & Hh1 & Ht1 & Hn1 & Hs1).
    destruct (IH _ Hc1) as (Hc2 & Ho2 & Hh2 & Ht2 & Hs2).
    rewrite Hc2, Ho2, Hh2, Ht2, Hs2, Ho1, Hh1, Ht1, Hs1.
    repeat (split; [reflexivity |]).
    rewrite <- app_assoc. f_equal. unfold refused. rewrite Hn1.
    cbn [filter]. unfold filter at 2. cbn [list_filter].
    destruct (is_send c); cbn.
    + rewrite Nat.add_1_r. reflexivity.
    + rewrite Nat.add_0_r. reflexivity.
Qed.

Lemma subscribe_results_offline (cs : list ClientCall) (m : Manager) :
  isConnected m = false ->
  subscribe_results m cs
  = map (fun _ => SubThrown "Not connected") (filter is_subscribe cs).
Proof.
  revert m. induction cs as [| c cs IH]; intros m Hc; [reflexivity |].
  cbn [subscribe_results].
  destruct (client_step_offline m c Hc) as (Hc1 & _).
  rewrite (IH _ Hc1).
  destruct c as [k c v tid | cid | now | now].
  - rewrite filter_cons_False by (intros []). reflexivity.
  - rewrite filter_cons_True by exact I. cbn [map app]. f_equal.
    unfold subscribeToComponent. rewrite Hc. reflexivity.
  - rewrite filter_cons_False by (intros []). reflexivity.
  - rewrite filter_cons_False by (intros []). reflexivity.
Qed.

Lemma getState_stale_emits (JSON_parse : JsValue -> option JsValue) (now : Z)
    (m : Manager) :
  now - timestamp (state m) > TTL (state m) ->
  outbox (getState JSON_parse now [] m).2
  = outbox m ++ [MsgControllerSubscribe (controllerId (config m))].
Proof.
  intros Hstale. unfold getState.
  replace (now - timestamp (state m) >? TTL (state m)) with true; [reflexivity |].
  symmetry. rewrite Z.gtb_ltb. apply Z.ltb_lt. lia.
Qed.

(** X1. After [disconnect()], and after a ['disconnect'] event,
    [sendControl], [subscribeToComponent], the heartbeat and the liveness
    checker emit nothing. For every run of calls of these four, the
    outbox, the listeners of the socket and the timeouts stay as they
    were; the promise of every [sendControl] call is rejected, once, with
    ['Not connected'], and the run calls no other [resolve] or [reject];
    every [subscribeToComponent] call throws ['Not connected'], so the
    promise the [async] method returns is rejected with it. [getState] is
    not among the four: it has no test of the connection, and with a stale
    cache it hands its ['controller:subscribe'] to the socket all the
    same. *)
Theorem disconnected_manager_emits_nothing
    (JSON_parse : JsValue -> option JsValue) (m : Manager) (cs : list ClientCall) :
  (let d := disconnect m in
   let m' := fold_left client_step cs d in
   outbox m' = outbox d /\ handlers m' = handlers d /\ timers m' = timers d
   /\ settled m' = settled d ++ refused d cs
   /\ subscribe_results d cs
      = map (fun _ => SubThrown "Not connected") (filter is_subscribe cs)
   /\ forall now, now - timestamp (state d) > TTL (state d) ->
        outbox (getState JSON_parse now [] d).2
        = outbox d ++ [MsgControllerSubscribe (controllerId (config d))])
  /\ (let d := on_disconnect m in
      let m' := fold_left client_step cs d in
      outbox m' = outbox d /\ handlers m' = handlers d /\ timers m' = timers d
      /\ settled m' = settled d ++ refused d cs
      /\ subscribe_results d cs
         = map (fun _ => SubThrown "Not connected") (filter is_subscribe cs)
      /\ forall now, now - timestamp (state d) > TTL (state d) ->
           outbox (getState JSON_parse now [] d).2
           = outbox d ++ [MsgControllerSubscribe (controllerId (config d))]).
Proof.
  split; cbn zeta.
  - destruct (client_run_offline cs (disconnect m) eq_refl) as (_ & Ho & Hh & Ht & Hs).
    repeat (split; [assumption |]).
    split; [apply subscribe_results_offline; reflexivity |].
    intros now. apply getState_stale_emits.
  - destruct (client_run_offline cs (on_disconnect m) eq_refl) as (_ & Ho & Hh & Ht & Hs).
    repeat (split; [assumption |]).
    split; [apply subscribe_results_offline; reflexivity |].
    intros now. apply getState_stale_emits.
Qed.

(** ** The listeners of the state cache across a link drop *)

Lemma listeners_removeAll_same (ev : string) (m : Manager) :
  listeners ev (removeAllListeners ev m) = [].
Proof.
  unfold listeners, removeAllListeners. cbn [handlers set_handlers].
  induction (handlers m) as [| h hs IH]; [reflexivity |].
  destruct (decide (h.1 = ev)) as [He | He].
  - rewrite (filter_cons_False (fun h => h.1 <> ev)) by (intros Hn; apply Hn, He).
    exact IH.
  - rewrite (filter_cons_True (fun h => h.1 <> ev)) by exact He.
    rewrite filter_cons_False by exact He. exact IH.
Qed.

Lemma listeners_removeAll_other (ev ev' : string) (m : Manager) :
  ev <> ev' -> listeners ev (removeAllListeners ev' m) = listeners ev m.
Proof.
  intros Hne. unfold listeners, removeAllListeners. cbn [handlers set_handlers].
  induction (handlers m) as [| h hs IH]; [reflexivity |].
  destruct (decide (h.1 = ev')) as [He | He].
  - rewrite (filter_cons_False (fun h => h.1 <> ev')) by (intros Hn; apply Hn, He).
    rewrite filter_cons_False by congruence. exact IH.
  - rewrite (filter_cons_True (fun h => h.1 <> ev')) by exact He.
    rewrite !filter_cons. destruct (decide (h.1 = ev)); [cbn; f_equal |]; exact IH.
Qed.

Lemma fold_left_fixed {A B} (f : A -> B -> A) (a : A) (l : list B) :
  (forall b, f a b = a) -> fold_left f l a = a.
Proof.
  intros Hf. induction l as [| b l IH]; cbn; [reflexivity |]. rewrite Hf. exact IH.
Qed.

Section LinkLevelReconnect.

Variable JSON_parse : JsValue -> option JsValue.

(** An event name other than the two the handshake listens to. *)
Variable ev : string.
Hypothesis ev_not_identify : ev <> "client:identify:success".
Hypothesis ev_not_discovery : ev <> "controller:state".

Lemma discover_start_kept (m : Manager) :
  isConnected (discover_start m).2 = isConnected m
  /\ listeners ev (discover_start m).2 = listeners ev m.
Proof.
  unfold discover_start, fresh. cbn [snd]. split; [reflexivity |].
  unfold emit. unfold listeners at 1. cbn [handlers set_outbox].
  change (listeners ev (on "controller:state" (OnceControllerState (nextId m)) m)
          = listeners ev m).
  rewrite listeners_on, decide_False by congruence. apply app_nil_r.
Qed.

Lemma fold_controller_state_kept (now : Z) (d : ControllerStateMsg)
    (ls : list Listener) (m : Manager) :
  let m' := fold_left
              (fun m l => run_listener JSON_parse now (InControllerState d) l m) ls m in
  isConnected m' = isConnected m /\ listeners ev m' = listeners ev m.
Proof.
  cbn zeta. revert m. induction ls as [| l ls IH]; intros m; [split; reflexivity |].
  cbn [fold_left]. destruct (IH (run_listener JSON_parse now (InControllerState d) l m))
    as [Hc Hl]. rewrite Hc, Hl.
  destruct l as [| | | | | | | | | | | | | | | q |]; cbn [run_listener];
    try (split; reflexivity).
  destruct (on_controller_state_frame (S q) q d m (n_Sn q))
    as (Hc1 & _ & _ & _ & _ & Hh1 & _).
  split; [exact Hc1 |].
  apply (listeners_remove_first_other _ "controller:state" (OnceControllerState q));
    [exact ev_not_discovery | exact Hh1].
Qed.

Lemma fold_ready_kept (now : Z) (ls : list Listener) (m : Manager) :
  let m' := fold_left
              (fun m l => run_listener JSON_parse now InDigitalTwinReady l m) ls m in
  isConnected m' = isConnected m /\ listeners ev m' = listeners ev m.
Proof.
  cbn zeta. revert m. induction ls as [| l ls IH]; intros m; [split; reflexivity |].
  cbn [fold_left]. destruct (IH (run_listener JSON_parse now InDigitalTwinReady l m))
    as [Hc Hl]. rewrite Hc, Hl.
  destruct l; cbn [run_listener]; try (split; reflexivity).
  unfold on_digitaltwin_ready. destruct (bool_decide _); [| split; reflexivity].
  apply discover_start_kept.
Qed.

Lemma discoverComponents_kept (now : Z) (response : option ControllerStateMsg)
    (m : Manager) :
  let r := discoverComponents JSON_parse now response m in
  isConnected r.2 = isConnected m /\ listeners ev r.2 = listeners ev m.
Proof.
  cbn zeta. unfold discoverComponents.
  destruct (discover_start_kept m) as [Hc Hl].
  destruct (discover_start m) as [q m1]. cbn [snd] in Hc, Hl.
  destruct response as [d |]; cbn [snd].
  - unfold recv. cbn [event_name].
    destruct (fold_controller_state_kept now d (listeners "controller:state" m1) m1)
      as [Hc2 Hl2]. rewrite Hc2, Hl2. split; assumption.
  - unfold fire. destruct (timer_set _ _); [| split; assumption].
    cbn [timer_callback]. split; [exact Hc | exact Hl].
Qed.

Lemma identify_kept (answered : bool) (m : Manager) :
  let r := identify answered m in
  isConnected r.2 = isConnected m /\ listeners ev r.2 = listeners ev m.
Proof.
  cbn zeta. unfold identify, fresh. set (q := nextId m).
  assert (Hon : listeners ev (on "client:identify:success" (OnceIdentifySuccess q) m)
                = listeners ev m).
  { rewrite listeners_on, decide_False by congruence. apply app_nil_r. }
  destruct answered; cbn [snd].
  - split; [reflexivity |].
    match goal with |- listeners _ ?x = _ =>
      rewrite (listeners_remove_first_other ev
                 "client:identify:success" (OnceIdentifySuccess q)
                 (on "client:identify:success" (OnceIdentifySuccess q) m) x)
    end; [exact Hon | exact ev_not_identify | reflexivity].
  - unfold fire. destruct (timer_set _ _); cbn [timer_callback];
      (split; [reflexivity | exact Hon]).
Qed.

Lemma wait_ready_kept (now : Z) (ready : option Z) (m : Manager) :
  let r := wait_ready JSON_parse now ready m in
  isConnected r.2 = isConnected m /\ listeners ev r.2 = listeners ev m.
Proof.
  cbn zeta. unfold wait_ready.
  destruct ready as [t |]; [destruct (t <? 30000) |]; cbn [snd];
    try (split; reflexivity).
  unfold recv. cbn [event_name].
  apply (fold_ready_kept (now + t) (listeners "digitaltwin:ready" m) m).
Qed.

(** The ['connect'] handler registers no listener for [ev] and removes
    none, and leaves the manager connected. *)
Lemma on_connect_kept (p : nat) (now : Z) (env : ConnectEnv) (m : Manager) :
  let r := on_connect JSON_parse p now env m in
  isConnected r.2 = true /\ listeners ev r.2 = listeners ev m.
Proof.
  cbn zeta. unfold on_connect.
  set (m1 := on_connect_begin p now m).
  assert (H1 : isConnected m1 = true /\ listeners ev m1 = listeners ev m)
    by (split; reflexivity).
  destruct H1 as [Hc1 Hl1].
  destruct (identify_kept (env_identified env) m1) as [Hc2 Hl2].
  destruct (identify (env_identified env) m1) as [identified m2]. cbn [snd] in Hc2, Hl2.
  destruct identified; cbn [negb].
  2: { cbn [snd]. split; [exact (eq_trans Hc2 Hc1) | exact (eq_trans Hl2 Hl1)]. }
  destruct (discoverComponents_kept now (env_discovery1 env) m2) as [Hc3 Hl3].
  destruct (discoverComponents JSON_parse now (env_discovery1 env) m2)
    as [[success componentCount] m3]. cbn [snd] in Hc3, Hl3.
  destruct (negb success || (componentCount =? 0)%nat).
  - set (m4 := log LogWaitingForReady m3).
    destruct (wait_ready_kept now (env_ready env) m4) as [Hc5 Hl5].
    destruct (wait_ready JSON_parse now (env_ready env) m4) as [waited m5].
    cbn [snd] in Hc5, Hl5.
    destruct (discoverComponents_kept (now + waited) (env_discovery2 env) m5)
      as [Hc6 Hl6].
    destruct (discoverComponents JSON_parse (now + waited) (env_discovery2 env) m5)
      as [[s6 c6] m6]. cbn [snd] in Hc6, Hl6 |- *.
    split.
    + change (isConnected m6 = true). rewrite Hc6, Hc5.
      change (isConnected m3 = true). rewrite Hc3, Hc2. exact Hc1.
    + change (listeners ev m6 = listeners ev m). rewrite Hl6, Hl5.
      change (listeners ev m3 = listeners ev m). rewrite Hl3, Hl2. exact Hl1.
  - cbn [snd]. split.
    + change (isConnected m3 = true). rewrite Hc3, Hc2. exact Hc1.
    + change (listeners ev m3 = listeners ev m). rewrite Hl3, Hl2. exact Hl1.
Qed.

End LinkLevelReconnect.

Section FrozenCache.

Variable JSON_parse : JsValue -> option JsValue.

Lemma recv_update_without_listeners (now : Z) (u : StateUpdate) (m : Manager) :
  listeners "control:update" m = [] ->
  listeners "component:state" m = [] ->
  recv JSON_parse now (inbound_of u) m = m.
Proof.
  intros Hcu Hcs. unfold recv. destruct u; cbn [inbound_of event_name].
  - rewrite Hcu. reflexivity.
  - rewrite Hcs. reflexivity.
Qed.

Lemma reconnect_listeners (m : Manager) :
  listeners "control:update" (reconnect m).2 = [HControlUpdate]
  /\ listeners "component:state" (reconnect m).2 = [HComponentState].
Proof. unfold reconnect, init. split; reflexivity. Qed.

(** X2. A link drop removes the two listeners that feed the state cache,
    and the ['connect'] handler does not register them again. So after a
    ['disconnect'] event, and still after the socket has connected again
    and the whole handshake has run on it, no [control:update] and no
    [component:state] event changes the manager, and [getState] returns the
    cache as it was, whatever arrives while it waits. [reconnect()], which
    builds a new socket, brings the two listeners back. *)
Theorem link_drop_freezes_cache
    (p : nat) (now : Z) (env : ConnectEnv) (m : Manager) :
  let d := on_disconnect m in
  let m' := (on_connect JSON_parse p now env d).2 in
  (forall t u, recv JSON_parse t (inbound_of u) d = d)
  /\ isConnected m' = true
  /\ (forall t u, recv JSON_parse t (inbound_of u) m' = m')
  /\ (forall t grace, (getState JSON_parse t grace m').1.1 = state m')
  /\ listeners "control:update" (reconnect m').2 = [HControlUpdate]
  /\ listeners "component:state" (reconnect m').2 = [HComponentState].
Proof.
  cbn zeta.
  assert (Hcu : listeners "control:update" (on_disconnect m) = []).
  { unfold on_disconnect. apply listeners_removeAll_same. }
  assert (Hcs : listeners "component:state" (on_disconnect m) = []).
  { unfold on_disconnect. rewrite listeners_removeAll_other by discriminate.
    apply listeners_removeAll_same. }
  destruct (on_connect_kept JSON_parse "control:update" ltac:(discriminate)
              ltac:(discriminate) p now env (on_disconnect m)) as [Hc Hcu'].
  destruct (on_connect_kept JSON_parse "component:state" ltac:(discriminate)
              ltac:(discriminate) p now env (on_disconnect m)) as [_ Hcs'].
  rewrite Hcu in Hcu'. rewrite Hcs in Hcs'.
  set (m' := (on_connect JSON_parse p now env (on_disconnect m)).2) in *.
  split; [| split; [exact Hc | split; [| split; [| apply reconnect_listeners]]]].
  - intros t u. apply recv_update_without_listeners; assumption.
  - intros t u. apply recv_update_without_listeners; assumption.
  - intros t grace. unfold getState.
    destruct (t - timestamp (state m') >? TTL (state m')); [| reflexivity].
    cbn [fst]. rewrite fold_left_fixed; [reflexivity |].
    intros [t' u]. cbn [fst snd]. apply recv_update_without_listeners; assumption.
Qed.

End FrozenCache.

(** ** State listeners *)

Lemma notifications_notify (l : nat) (m : Manager) :
  notifications l (notifyStateChange m)
  = (notifications l m + length (filter (fun x => x = l) (stateListeners m)))%nat.
Proof.
  unfold notifications, notifyStateChange. cbn [notified set_notified].
  rewrite filter_app, length_app. f_equal.
  induction (stateListeners m) as [| x xs IH]; [reflexivity |].
  cbn [map]. destruct (decide (x = l)) as [He | He].
  - rewrite (filter_cons_True (fun e : nat * CachedState => e.1 = l)) by exact He.
    rewrite (filter_cons_True (fun x => x = l)) by exact He. cbn. f_equal. exact IH.
  - rewrite (filter_cons_False (fun e : nat * CachedState => e.1 = l)) by exact He.
    rewrite (filter_cons_False (fun x => x = l)) by exact He. exact IH.
Qed.

Lemma count_absent (l : nat) (ls : list nat) :
  l ∉ ls -> length (filter (fun x => x = l) ls) = 0%nat.
Proof.
  induction ls as [| x xs IH]; intros Hl; [reflexivity |].
  apply not_elem_of_cons in Hl as [Hx Hl].
  rewrite filter_cons_False by congruence. apply IH, Hl.
Qed.

Lemma count_NoDup (l : nat) (ls : list nat) :
  NoDup ls -> l ∈ ls -> length (filter (fun x => x = l) ls) = 1%nat.
Proof.
  induction ls as [| x xs IH]; intros Hnd Hl; [inversion Hl |].
  apply NoDup_cons in Hnd as [Hx Hnd].
  destruct (decide (x = l)) as [-> | Hne].
  - rewrite filter_cons_True by reflexivity. cbn. f_equal. apply count_absent, Hx.
  - rewrite filter_cons_False by exact Hne. apply IH; [exact Hnd |].
    apply elem_of_cons in Hl as [-> | Hl]; [congruence | exact Hl].
Qed.

Lemma onStateChange_listeners (l : nat) (m : Manager) :
  NoDup (stateListeners m) ->
  let m' := onStateChange l m in
  NoDup (stateListeners m') /\ l ∈ stateListeners m'
  /\ forall l', l' <> l ->
       filter (fun x => x = l') (stateListeners m')
       = filter (fun x => x = l') (stateListeners m).
Proof.
  intros Hnd. cbn zeta. unfold onStateChange.
  destruct (bool_decide (l ∈ stateListeners m)) eqn:Hin.
  - apply bool_decide_eq_true in Hin. repeat split; auto.
  - apply bool_decide_eq_false in Hin. cbn [stateListeners set_stateListeners].
    split; [| split].
    + apply NoDup_app. split; [exact Hnd | split].
      * intros x Hx Hx'. apply list_elem_of_singleton in Hx'. subst x. exact (Hin Hx).
      * apply NoDup_singleton.
    + apply elem_of_app. right. apply list_elem_of_singleton. reflexivity.
    + intros l' Hne. rewrite filter_app.
      rewrite (filter_cons_False _ l []) by congruence. apply app_nil_r.
Qed.

Lemma filter_deleted (l : nat) (ls : list nat) :
  filter (fun x => x = l) (filter (fun x => x <> l) ls) = [].
Proof.
  induction ls as [| x xs IH]; [reflexivity |].
  destruct (decide (x = l)) as [He | He].
  - rewrite (filter_cons_False (fun x => x <> l)) by (intros Hn; exact (Hn He)).
    exact IH.
  - rewrite (filter_cons_True (fun x => x <> l)) by exact He.
    rewrite filter_cons_False by exact He. exact IH.
Qed.

Lemma filter_kept (l l' : nat) (ls : list nat) :
  l' <> l ->
  filter (fun x => x = l') (filter (fun x => x <> l) ls) = filter (fun x => x = l') ls.
Proof.
  intros Hne. induction ls as [| x xs IH]; [reflexivity |].
  destruct (decide (x = l)) as [He | He].
  - rewrite (filter_cons_False (fun x => x <> l)) by (intros Hn; exact (Hn He)).
    rewrite (filter_cons_False (fun x => x = l')) by congruence. exact IH.
  - rewrite (filter_cons_True (fun x => x <> l)) by exact He.
    rewrite !(filter_cons (fun x => x = l')). rewrite IH. reflexivity.
Qed.

(** X3. The state listeners form a set. A listener handed to
    [onStateChange] twice is called once per state update, not twice;
    after the function [onStateChange] returned has been called, it is
    not called at all; and neither the registration nor the removal
    changes how often any other listener is called. *)
Theorem onStateChange_calls_listener_once
    (JSON_parse : JsValue -> option JsValue)
    (l : nat) (now : Z) (d : ControlUpdate) (m : Manager) :
  NoDup (stateListeners m) ->
  let m1 := onStateChange l (onStateChange l m) in
  let m2 := stateListeners_delete l m1 in
  NoDup (stateListeners m1)
  /\ notifications l (handleControlUpdate JSON_parse now d m1) = S (notifications l m)
  /\ notifications l (handleControlUpdate JSON_parse now d m2) = notifications l m
  /\ forall l', l' <> l ->
       notifications l' (handleControlUpdate JSON_parse now d m1)
       = notifications l' (handleControlUpdate JSON_parse now d m)
       /\ notifications l' (handleControlUpdate JSON_parse now d m2)
          = notifications l' (handleControlUpdate JSON_parse now d m).
Proof.
  intros Hnd. cbn zeta.
  destruct (onStateChange_listeners l m Hnd) as (Hnd1 & Hin1 & Hoth1).
  destruct (onStateChange_listeners l (onStateChange l m) Hnd1) as (Hnd2 & Hin2 & Hoth2).
  set (m1 := onStateChange l (onStateChange l m)) in *.
  assert (Hn1 : notified m1 = notified m).
  { subst m1. unfold onStateChange.
    repeat (destruct (bool_decide _); cbn [notified set_stateListeners]); reflexivity. }
  assert (Hupd : forall x l0,
             notifications l0 (handleControlUpdate JSON_parse now d x)
             = (notifications l0 x + length (filter (fun y => y = l0) (stateListeners x)))%nat).
  { intros x l0. unfold handleControlUpdate. rewrite notifications_notify. reflexivity. }
  pose proof (filter_deleted l (stateListeners m1)) as Hdel.
  split; [exact Hnd2 | split; [| split]].
  - rewrite Hupd, (count_NoDup l _ Hnd2 Hin2). unfold notifications. rewrite Hn1. lia.
  - rewrite Hupd. cbn [stateListeners stateListeners_delete set_stateListeners].
    rewrite Hdel. unfold notifications.
    change (notified (stateListeners_delete l m1)) with (notified m1).
    rewrite Hn1. cbn. lia.
  - intros l' Hne. rewrite !Hupd. split.
    + rewrite (Hoth2 l' Hne), (Hoth1 l' Hne). unfold notifications. rewrite Hn1.
      reflexivity.
    + cbn [stateListeners stateListeners_delete set_stateListeners].
      unfold notifications at 1.
      change (notified (stateListeners_delete l m1)) with (notified m1). rewrite Hn1.
      fold (notifications l' m). f_equal. f_equal.
      rewrite <- (Hoth1 l' Hne), <- (Hoth2 l' Hne). fold m1.
      apply filter_kept, Hne.
Qed.

Lemma onStateChange_calls_listener_once_witness :
  notifications 7 (handleControlUpdate parse_fragment 10 bad_update
                     (onStateChange 7 (onStateChange 7 (new_manager sample_config))))
  = S (notifications 7 (new_manager sample_config)).
Proof.
  pose proof (onStateChange_calls_listener_once parse_fragment 7 10 bad_update
                (new_manager sample_config) (NoDup_nil_2 : NoDup [])) as H.
  cbn zeta in H. destruct H as (_ & H & _). exact H.
Defined.

(** ** Latency *)

Lemma sum_Z_acc (l : list Z) (a : Z) : fold_left Z.add l a = a + sum_Z l.
Proof.
  unfold sum_Z. revert a. induction l as [| x xs IH]; intros a; cbn; [lia |].
  rewrite (IH (a + x)), (IH (0 + x)). lia.
Qed.

Lemma sum_Z_bounds (lo hi : Z) (l : list Z) :
  Forall (fun x => lo <= x <= hi) l ->
  Z.of_nat (length l) * lo <= sum_Z l <= Z.of_nat (length l) * hi.
Proof.
  induction 1 as [| x xs Hx _ IH]; [cbn; lia |].
  unfold sum_Z. cbn [fold_left]. rewrite sum_Z_acc. cbn [length]. nia.
Qed.

(** The rounded mean of values between [lo] and [hi] is between them. *)
Lemma round_div_mean (lo hi : Z) (l : list Z) :
  l <> [] -> Forall (fun x => lo <= x <= hi) l ->
  lo <= round_div (sum_Z l) (Z.of_nat (length l)) <= hi.
Proof.
  intros Hne Hl. pose proof (sum_Z_bounds lo hi l Hl) as Hs.
  assert (Hn : 0 < Z.of_nat (length l)) by (destruct l; [congruence | cbn; lia]).
  unfold round_div. split.
  - apply Z.div_le_lower_bound; nia.
  - apply Z.lt_succ_r. apply Z.div_lt_upper_bound; nia.
Qed.

Lemma push_sample_length (x : Z) (l : list Z) :
  (length l <= 10)%nat ->
  (length (push_sample x l) <= 10)%nat /\ push_sample x l <> []
  /\ last (push_sample x l) = Some x.
Proof.
  intros Hl. unfold push_sample.
  assert (Hlen : length (l ++ [x]) = S (length l)) by (rewrite length_app; cbn; lia).
  destruct (10 <? length (l ++ [x]))%nat eqn:Hlt.
  - apply Nat.ltb_lt in Hlt. destruct l as [| y ys]; [cbn in Hlt; lia |].
    cbn [app tail]. split; [| split].
    + cbn in Hlen, Hl. rewrite length_app. cbn. lia.
    + destruct ys; discriminate.
    + apply last_snoc.
  - apply Nat.ltb_ge in Hlt. split; [lia | split].
    + destruct l; discriminate.
    + apply last_snoc.
Qed.

Lemma monitor_tick_latency (now : Z) (m : Manager) :
  latency (monitor_tick now m) = latency m.
Proof.
  unfold monitor_tick. destruct (isConnected m) eqn:Hc; cbn [negb]; [| reflexivity].
  cbn zeta. destruct (pong_missed _ _); [| reflexivity].
  destruct (_ >=? _); [| reflexivity].
  unfold reconnect, init, disconnect. cbn. rewrite Hc. reflexivity.
Qed.

(** What every health event keeps of the latency record. *)
Lemma latency_step (m : Manager) (e : HealthEvent) :
  let ok := fun m : Manager =>
    (length (lat_samples (latency m)) <= 10)%nat
    /\ (lat_samples (latency m) <> [] ->
        lat_average (latency m)
        = round_div (sum_Z (lat_samples (latency m)))
            (Z.of_nat (length (lat_samples (latency m))))) in
  ok m -> ok (health_step m e).
Proof.
  cbn zeta. intros [Hlen Havg]. destruct e as [now | now | now ts | now |];
    cbn [health_step].
  - rewrite monitor_tick_latency. split; assumption.
  - unfold heartbeat_tick. destruct (isConnected m); split; assumption.
  - unfold on_pong. destruct ts as [ts |]; [| split; assumption].
    cbn [latency set_latency lat_samples lat_average reset_health set_connectionHealth].
    destruct (push_sample_length (now - ts) (lat_samples (latency m)) Hlen) as (H1 & _).
    split; [exact H1 | reflexivity].
  - split; assumption.
  - split; assumption.
Qed.

(** X4. The latency record keeps a window of the last ten samples. On
    every trace of pongs, pings, checker runs, connects and link drops from
    a new manager, there are never more than ten samples, and the average
    the manager reports lies between the smallest and the largest sample of
    the window; a pong that carries the client's timestamp makes
    [now - clientTimestamp] the current latency and the newest sample. *)
Theorem latency_window (cfg : Config) (es : list HealthEvent) :
  let m := health_run (init cfg (new_manager cfg)).2 es in
  (length (lat_samples (latency m)) <= 10)%nat
  /\ (forall lo hi,
        lat_samples (latency m) <> [] ->
        Forall (fun x => lo <= x <= hi) (lat_samples (latency m)) ->
        lo <= lat_average (latency m) <= hi)
  /\ (forall now ts,
        let m' := on_pong now (Some ts) m in
        lat_current (latency m') = now - ts
        /\ last (lat_samples (latency m')) = Some (now - ts)
        /\ (length (lat_samples (latency m')) <= 10)%nat).
Proof.
  cbn zeta.
  assert (Hok : (length (lat_samples (latency (health_run (init cfg (new_manager cfg)).2 es)))
                 <= 10)%nat
                /\ (lat_samples (latency (health_run (init cfg (new_manager cfg)).2 es)) <> [] ->
                    lat_average (latency (health_run (init cfg (new_manager cfg)).2 es))
                    = round_div
                        (sum_Z (lat_samples (latency (health_run (init cfg (new_manager cfg)).2 es))))
                        (Z.of_nat (length (lat_samples
                           (latency (health_run (init cfg (new_manager cfg)).2 es))))))).
  { unfold health_run.
    assert (H0 : (length (lat_samples (latency (init cfg (new_manager cfg)).2)) <= 10)%nat
                 /\ (lat_samples (latency (init cfg (new_manager cfg)).2) <> [] ->
                     lat_average (latency (init cfg (new_manager cfg)).2)
                     = round_div (sum_Z (lat_samples (latency (init cfg (new_manager cfg)).2)))
                         (Z.of_nat (length (lat_samples
                            (latency (init cfg (new_manager cfg)).2)))))).
    { cbn. split; [lia | congruence]. }
    revert H0. generalize (init cfg (new_manager cfg)).2 as m.
    induction es as [| e es IH]; intros m H0; [exact H0 |].
    cbn [fold_left]. apply IH. apply (latency_step m e H0). }
  destruct Hok as [Hlen Havg].
  split; [exact Hlen | split].
  - intros lo hi Hne Hall. rewrite (Havg Hne). apply round_div_mean; assumption.
  - intros now ts. unfold on_pong.
    cbn [latency set_latency lat_samples lat_current reset_health set_connectionHealth].
    destruct (push_sample_length (now - ts) _ Hlen) as (H1 & _ & H3).
    split; [reflexivity | split; assumption].
Qed.

(** ** The liveness checker on arbitrary traces *)

Lemma monitor_tick_logged (now : Z) (m : Manager) :
  let h := connectionHealth m in
  let missed := isConnected m && pong_missed now h in
  let forced := missed && (missedPongs h + 1 >=? maxMissedPongs h) in
  logged (monitor_tick now m)
  = logged m
    ++ (if missed then [LogMissedPong (missedPongs h + 1)] else [])
    ++ (if forced then [LogForcingReconnect (missedPongs h + 1)] else []).
Proof.
  cbn zeta. unfold monitor_tick.
  destruct (isConnected m) eqn:Hc; cbn [negb andb]; [| rewrite app_nil_r; reflexivity].
  destruct (pong_missed now (connectionHealth m)) eqn:Hp; cbn [andb];
    [| rewrite app_nil_r; reflexivity].
  destruct (missedPongs (connectionHealth m) + 1 >=? maxMissedPongs (connectionHealth m)).
  - match goal with |- logged (reconnect ?x).2 = _ =>
      destruct (reconnect_health x) as (_ & Hl & _); rewrite Hl end.
    cbn. rewrite <- app_assoc. reflexivity.
  - cbn. reflexivity.
Qed.

Lemma checker_step (m : Manager) (e : HealthEvent) :
  let ok := fun m : Manager =>
    maxMissedPongs (connectionHealth m) = 3
    /\ (isConnected m = true -> 0 <= missedPongs (connectionHealth m) < 3)
    /\ (3 * forced_count m + pending_misses m <= missed_count m)%nat
    /\ Forall (checker_log_ok 3) (logged m) in
  ok m -> ok (health_step m e).
Proof.
  cbn zeta. intros (Hmax & Hrange & Hcount & Hlog).
  destruct e as [now | now | now ts | now | ]; cbn [health_step].
  - destruct (monitor_tick_effect now m) as (Hm & Hx & Hmc & Hfc & Hco).
    pose proof (monitor_tick_logged now m) as Hl. cbn zeta in Hl.
    unfold pending_misses in *. rewrite Hm, Hx, Hmc, Hfc, Hco, Hl, Hmax.
    destruct (isConnected m) eqn:Hc; cbn [andb].
    + specialize (Hrange eq_refl).
      destruct (pong_missed now (connectionHealth m)); cbn [andb negb].
      * destruct (Z.geb_spec (missedPongs (connectionHealth m) + 1) 3) as [Hge | Hlt];
          cbn [negb]; (split; [reflexivity |]); (split; [intros; try discriminate; lia |]);
          (split; [lia |]); rewrite !Forall_app; repeat split; try exact Hlog;
          repeat constructor; cbn; lia.
      * rewrite !app_nil_r. repeat split; try lia; exact Hlog.
    + rewrite !app_nil_r. repeat split; try lia; try discriminate; exact Hlog.
  - destruct (heartbeat_tick_effect now m) as (Hm & Hx & Hl & Hco).
    unfold pending_misses, missed_count, forced_count in *.
    rewrite Hm, Hx, Hl, Hco. auto.
  - assert (H : connectionHealth (on_pong now ts m)
                = with_missedPongs 0 (with_lastPongReceived now (connectionHealth m))
                /\ logged (on_pong now ts m) = logged m
                /\ isConnected (on_pong now ts m) = isConnected m).
    { unfold on_pong. destruct ts; repeat split; reflexivity. }
    destruct H as (Hh & Hl & Hco).
    unfold pending_misses, missed_count, forced_count in *. rewrite Hh, Hl, Hco. cbn.
    repeat split; try lia; try exact Hlog; try exact Hmax.
    destruct (isConnected m); lia.
  - destruct (on_connect_begin_effect (connect_promise m) now m)
      as (Hm & _ & Hx & Hmc & Hfc & Hco).
    unfold pending_misses in *. rewrite Hm, Hx, Hmc, Hfc, Hco.
    split; [exact Hmax | split; [lia | split]].
    + destruct (isConnected m); cbn; lia.
    + unfold on_connect_begin. cbn. rewrite Forall_app. split; [exact Hlog |].
      repeat constructor.
  - unfold pending_misses, missed_count, forced_count in *. cbn.
    repeat split; try lia; try discriminate; try exact Hlog; try exact Hmax.
Qed.

(** X5. The checker never forces a reconnect that three counted misses do
    not stand behind. On every trace of checker runs, pings, pongs,
    connects and link drops from a manager whose [init] has run: a
    reconnect is forced only with the counter at 3, a miss is logged with
    a counter from 1 to 3, the misses counted are at least three per forced
    reconnect plus the pending ones, and a connected manager has counted
    fewer than three. *)
Theorem reconnect_needs_three_misses (cfg : Config) (es : list HealthEvent) :
  let m := health_run (init cfg (new_manager cfg)).2 es in
  Forall (checker_log_ok 3) (logged m)
  /\ (3 * forced_count m + pending_misses m <= missed_count m)%nat
  /\ (isConnected m = true -> 0 <= missedPongs (connectionHealth m) < 3).
Proof.
  cbn zeta.
  assert (H0 : maxMissedPongs (connectionHealth (init cfg (new_manager cfg)).2) = 3
               /\ (isConnected (init cfg (new_manager cfg)).2 = true ->
                   0 <= missedPongs (connectionHealth (init cfg (new_manager cfg)).2) < 3)
               /\ (3 * forced_count (init cfg (new_manager cfg)).2
                   + pending_misses (init cfg (new_manager cfg)).2
                   <= missed_count (init cfg (new_manager cfg)).2)%nat
               /\ Forall (checker_log_ok 3) (logged (init cfg (new_manager cfg)).2)).
  { cbn. repeat split; try lia; try discriminate. constructor. }
  revert H0. unfold health_run. generalize (init cfg (new_manager cfg)).2 as m.
  induction es as [| e es IH]; intros m H0.
  - cbn. destruct H0 as (_ & H1 & H2 & H3). auto.
  - cbn [fold_left]. apply IH. apply (checker_step m e H0).
Qed.

(** X6. The checker counts a miss only while a ping is unanswered. After a
    pong that arrives no earlier than the last ping was sent, the checker
    can run any number of times, at any times, without an effect, until
    the next ping goes out. *)
Theorem answered_ping_counts_no_miss
    (now : Z) (clientTimestamp : option Z) (ticks : list Z) (m : Manager) :
  lastPingSent (connectionHealth m) <= now ->
  checks_after_pong now clientTimestamp ticks m = on_pong now clientTimestamp m.
Proof.
  intros Hping. unfold checks_after_pong. apply fold_left_fixed. intros t.
  unfold monitor_tick.
  assert (Hh : pong_missed t (connectionHealth (on_pong now clientTimestamp m)) = false).
  { unfold pong_missed, on_pong. destruct clientTimestamp; cbn.
    - replace (lastPingSent (connectionHealth m) >? now) with false
        by (symmetry; rewrite Z.gtb_ltb; apply Z.ltb_ge; lia). reflexivity.
    - replace (lastPingSent (connectionHealth m) >? now) with false
        by (symmetry; rewrite Z.gtb_ltb; apply Z.ltb_ge; lia). reflexivity. }
  rewrite Hh. destruct (negb _); reflexivity.
Qed.

Lemma answered_ping_counts_no_miss_witness :
  checks_after_pong 25050 (Some 25000) [30000; 60000; 900000]
    (heartbeat_tick 25000 connected_manager)
  = on_pong 25050 (Some 25000) (heartbeat_tick 25000 connected_manager).
Proof.
  apply (answered_ping_counts_no_miss 25050 (Some 25000) [30000; 60000; 900000]
           (heartbeat_tick 25000 connected_manager)).
  vm_compute. discriminate.
Defined.

(** ** Outcomes of the handshake *)

Lemma timer_set_last (t : Timer) (d : Z) (m m' : Manager) :
  timers m' = timers m ++ [(t, d)] -> timer_set t m' = true.
Proof.
  intros Ht. unfold timer_set. apply bool_decide_eq_true. rewrite Ht, fmap_app.
  apply elem_of_app. right. apply list_elem_of_singleton. reflexivity.
Qed.

(** [identify] when no answer comes: its timeout fires. *)
Lemma identify_unanswered (m : Manager) :
  identify false m
  = (false,
     settle (nextId m) (Reject "Identification timeout")
       (clearTimeout (TIdentify (nextId m))
          (emit MsgIdentify
             (on "client:identify:success" (OnceIdentifySuccess (nextId m))
                (setTimeout (TIdentify (nextId m))
                   (num_or (identifyTimeout (config m)) 5000)
                   (set_nextId (S (nextId m)) m)))))).
Proof.
  unfold identify, fresh, fire.
  erewrite timer_set_last by reflexivity. reflexivity.
Qed.

Lemma sendControl_refused (k c : string) (v : JsValue) (tid : string) (m : Manager) :
  isIdentified m = false ->
  let s := sendControl k c v tid m in
  settled s.2 = settled m ++ [(s.1, Reject "Not connected")]
  /\ outbox s.2 = outbox m.
Proof.
  intros Hid. cbn zeta. unfold sendControl, fresh.
  cbn [isConnected isIdentified set_nextId]. rewrite Hid, orb_true_r.
  split; reflexivity.
Qed.

Section HandshakeOutcomes.

Variable JSON_parse : JsValue -> option JsValue.

(** X7. When the bridge does not answer [client:identify] in time, the
    ['connect'] handler rejects the promise of [init] with the error of
    [identify], without a wait and without a discovery request. The
    manager is left connected but not identified, with the [once]
    listener of the failed [identify] still registered, and every
    [sendControl] on it is refused with ['Not connected']. *)
Theorem connect_rejects_when_identify_times_out
    (p : nat) (now : Z) (env : ConnectEnv) (m : Manager) :
  env_identified env = false ->
  isIdentified m = false ->
  let r := on_connect JSON_parse p now env m in
  r.1 = 0
  /\ settled r.2 = settled m ++ [(nextId m, Reject "Identification timeout");
                                 (p, Reject "Identification timeout")]
  /\ outbox r.2 = outbox m ++ [MsgIdentify]
  /\ isConnected r.2 = true
  /\ isIdentified r.2 = false
  /\ listeners "client:identify:success" r.2
     = listeners "client:identify:success" m ++ [OnceIdentifySuccess (nextId m)]
  /\ forall k c v tid,
       let s := sendControl k c v tid r.2 in
       settled s.2 = settled r.2 ++ [(s.1, Reject "Not connected")]
       /\ outbox s.2 = outbox r.2.
Proof.
  intros Henv Hid r.
  assert (Hr : r = (0, settle p (Reject "Identification timeout")
                         (identify false (on_connect_begin p now m)).2)).
  { subst r. unfold on_connect. rewrite Henv, identify_unanswered. reflexivity. }
  rewrite Hr, identify_unanswered. clear Hr r. unfold fst, snd.
  match goal with |- _ /\ settled ?x = _ /\ _ => set (M := x) end.
  assert (HidM : isIdentified M = false) by exact Hid.
  split; [reflexivity |]. split.
  { subst M. unfold settle at 1 2. unfold settled at 1, set_settled at 1.
    unfold settled at 1, set_settled at 1. rewrite <- app_assoc. reflexivity. }
  split; [reflexivity |]. split; [reflexivity |]. split; [exact HidM |]. split.
  { subst M. unfold listeners, settle, clearTimeout, emit, on, setTimeout.
    cbn [handlers set_settled set_timers set_outbox set_handlers set_nextId].
    rewrite filter_app, fmap_app. reflexivity. }
  clearbody M. intros k c v tid. apply sendControl_refused. exact HidM.
Qed.

(** X8. When the bridge identifies the client and the first discovery
    brings components, the ['connect'] handler does not wait for
    ['digitaltwin:ready'] and does not discover again: one
    [controller:subscribe] goes out, the response is merged into the
    directory, [identify], [discoverComponents] and [init] resolve once
    each, in this order, and the [once] listener of the discovery is gone. *)
Theorem connect_resolves_on_first_discovery
    (p : nat) (now : Z) (env : ConnectEnv) (d : ControllerStateMsg)
    (entries : list (string * Component)) (m : Manager) :
  env_identified env = true ->
  env_discovery1 env = Some d ->
  ctl_components d = Some entries ->
  entries <> [] ->
  listeners "controller:state" m = [] ->
  let r := on_connect JSON_parse p now env m in
  r.1 = 0
  /\ settled r.2 = settled m ++ [(nextId m, ResolveIdentify);
                                 (S (nextId m), ResolveDiscovery true (length entries));
                                 (p, ResolveInit)]
  /\ discovery_requests r.2 = S (discovery_requests m)
  /\ discoveredList r.2 = fold_left store_component entries (discoveredList m)
  /\ isConnected r.2 = true
  /\ isIdentified r.2 = true
  /\ listeners "controller:state" r.2 = [].
Proof.
  intros Henv Hd1 Hd Hne Hcs. cbn zeta. unfold on_connect. rewrite Henv, Hd1.
  set (m1 := on_connect_begin p now m).
  destruct (identify_kept "controller:state" ltac:(discriminate) true m1) as [_ Hl2].
  assert (H2 : settled (identify true m1).2 = settled m ++ [(nextId m, ResolveIdentify)]
               /\ outbox (identify true m1).2 = outbox m ++ [MsgIdentify]
               /\ discoveredList (identify true m1).2 = discoveredList m
               /\ isConnected (identify true m1).2 = true
               /\ isIdentified (identify true m1).2 = true
               /\ nextId (identify true m1).2 = S (nextId m)
               /\ (identify true m1).1 = true).
  { repeat split; reflexivity. }
  destruct (identify true m1) as [identified m2]. cbn [fst snd] in H2, Hl2.
  destruct H2 as (Hs2 & Ho2 & Hd2 & Hc2 & Hi2 & Hn2 & ->). cbn [negb].
  change (listeners "controller:state" m1) with (listeners "controller:state" m) in Hl2.
  rewrite Hcs in Hl2.
  unfold discoverComponents, discover_start, fresh.
  set (q := nextId m2).
  set (m3 := emit (MsgControllerSubscribe (controllerId (config (set_nextId (S q) m2))))
               (on "controller:state" (OnceControllerState q)
                  (setTimeout (TDiscovery q)
                     (num_or (discoveryTimeout (config (set_nextId (S q) m2))) 10000)
                     (set_nextId (S q) m2)))).
  assert (Hl3 : listeners "controller:state" m3 = [OnceControllerState q]).
  { change (listeners "controller:state" m3)
      with (listeners "controller:state" (on "controller:state" (OnceControllerState q) m2)).
    rewrite listeners_on, Hl2. reflexivity. }
  unfold recv. cbn [event_name]. rewrite Hl3. cbn [fold_left run_listener].
  unfold discovery_result. rewrite Hd.
  assert (Hlen : (length entries =? 0)%nat = false)
    by (destruct entries; [congruence | reflexivity]).
  cbn [negb orb]. rewrite Hlen. cbn [fst snd].
  destruct (on_controller_state_frame (S q) q d m3 (n_Sn q))
    as (Hc4 & Hi4 & _ & _ & Hr4 & Hh4 & _).
  pose proof (on_controller_state_list q d m3) as Hdl. rewrite Hd in Hdl.
  split; [reflexivity |]. split.
  { cbn [settled settle set_settled]. unfold on_controller_state. rewrite Hd.
    cbn [settled settle set_settled].
    rewrite (fold_left_preserves _ settled) by reflexivity.
    rewrite (fold_left_preserves _ settled)
      by (intros a b; apply (resolve_role_frame entries a b)).
    cbn [settled set_discoveredList clearTimeout set_timers off set_handlers].
    subst m3. cbn [settled emit set_outbox on set_handlers setTimeout set_timers set_nextId].
    rewrite Hs2. subst q. rewrite Hn2. rewrite <- !app_assoc. reflexivity. }
  split.
  { change (discovery_requests (on_controller_state q d m3) = S (discovery_requests m)).
    rewrite Hr4. subst m3. rewrite discovery_requests_emit. cbn [is_controller_subscribe].
    unfold discovery_requests.
    cbn [outbox on set_handlers setTimeout set_timers set_nextId].
    rewrite Ho2. rewrite filter_app_length. cbn. lia. }
  split.
  { change (discoveredList (on_controller_state q d m3)
            = fold_left store_component entries (discoveredList m)).
    rewrite Hdl. subst m3. cbn [discoveredList emit set_outbox on set_handlers setTimeout
                                 set_timers set_nextId]. rewrite Hd2. reflexivity. }
  split.
  { change (isConnected (on_controller_state q d m3) = true). rewrite Hc4. exact Hc2. }
  split.
  { change (isIdentified (on_controller_state q d m3) = true). rewrite Hi4. exact Hi2. }
  change (listeners "controller:state" (on_controller_state q d m3) = []).
  unfold listeners. rewrite Hh4.
  change (listeners "controller:state"
            (off "controller:state" (OnceControllerState q) m3) = []).
  rewrite listeners_off_same. rewrite Hl3. cbn. rewrite decide_True by reflexivity.
  reflexivity.
Qed.

End HandshakeOutcomes.

Lemma connect_rejects_when_identify_times_out_witness :
  (on_connect parse_fragment 0 0 silent_env
     (init sample_config (new_manager sample_config)).2).1 = 0.
Proof.
  exact (proj1 (connect_rejects_when_identify_times_out parse_fragment 0 0 silent_env
                  (init sample_config (new_manager sample_config)).2 eq_refl eq_refl)).
Defined.

Lemma connect_resolves_on_first_discovery_witness :
  (on_connect parse_fragment 0 0 sample_env
     (init sample_config (new_manager sample_config)).2).1 = 0.
Proof.
  refine (proj1 (connect_resolves_on_first_discovery parse_fragment 0 0 sample_env
                   first_discovery
                   [("comp-1", {| comp_name := "Mixer_8x8_2"; comp_controls := None |})]
                   (init sample_config (new_manager sample_config)).2
                   eq_refl eq_refl eq_refl _ eq_refl)).
  discriminate.
Defined.

(** ** Roles *)

Lemma fold_resolve_other (entries : list (string * Component))
    (pats : list (string * list string)) (m : Manager) (key : string) :
  key ∉ pats.*1 ->
  components (fold_left (resolve_role entries) pats m) !! key = components m !! key.
Proof.
  revert m. induction pats as [| pat pats IH]; intros m Hk; [reflexivity |].
  cbn [fmap list_fmap] in Hk. apply not_elem_of_cons in Hk as [Hne Hk].
  cbn [fold_left]. rewrite IH by exact Hk.
  unfold resolve_role. destruct (find_role _ _); [| reflexivity].
  cbn [components log set_logged set_components]. apply lookup_insert_ne. congruence.
Qed.

Lemma fold_resolve_lookup (entries : list (string * Component))
    (pats : list (string * list string)) (m : Manager) (key : string)
    (names : list string) :
  NoDup pats.*1 -> (key, names) ∈ pats ->
  components (fold_left (resolve_role entries) pats m) !! key
  = match find_role names entries with
    | Some found => Some found.1
    | None => components m !! key
    end.
Proof.
  revert m. induction pats as [| pat pats IH]; intros m Hnd Hin; [inversion Hin |].
  cbn [fmap list_fmap] in Hnd. apply NoDup_cons in Hnd as [Hnot Hnd].
  cbn [fold_left]. apply elem_of_cons in Hin as [<- | Hin].
  - rewrite fold_resolve_other by exact Hnot.
    unfold resolve_role. cbn [fst snd]. destruct (find_role names entries); [| reflexivity].
    cbn [components log set_logged set_components]. apply lookup_insert_eq.
  - rewrite (IH _ Hnd Hin). destruct (find_role names entries); [reflexivity |].
    unfold resolve_role. destruct (find_role pat.2 entries); [| reflexivity].
    cbn [components log set_logged set_components]. apply lookup_insert_ne.
    intros He. apply Hnot. rewrite He.
    apply (list_elem_of_fmap_2 fst pats (key, names)). exact Hin.
Qed.

Lemma fold_emit_outbox (ids : list string) (m : Manager) :
  let m' := fold_left
              (fun m id => emit (MsgComponentSubscribe (controllerId (config m)) id) m)
              ids m in
  outbox m' = outbox m ++ map (MsgComponentSubscribe (controllerId (config m))) ids
  /\ components m' = components m.
Proof.
  cbn zeta. revert m. induction ids as [| id ids IH]; intros m.
  - cbn. rewrite app_nil_r. split; reflexivity.
  - cbn [fold_left map]. destruct (IH (emit (MsgComponentSubscribe (controllerId (config m)) id) m))
      as [Ho Hc]. rewrite Ho, Hc. cbn [outbox emit set_outbox config components].
    rewrite <- app_assoc. split; reflexivity.
Qed.

Lemma find_first {A} (f : A -> bool) (l : list A) (x : A) :
  List.find f l = Some x ->
  exists pre post, l = pre ++ x :: post /\ f x = true /\ forall y, y ∈ pre -> f y = false.
Proof.
  induction l as [| a l IH]; [discriminate |]. cbn [List.find].
  destruct (f a) eqn:Hfa.
  - intros [= ->]. exists [], l. repeat split; [exact Hfa |].
    intros y Hy. inversion Hy.
  - intros Hx. destruct (IH Hx) as (pre & post & -> & Hfx & Hpre).
    exists (a :: pre), post. repeat split; [exact Hfx |].
    intros y Hy. apply elem_of_cons in Hy as [-> | Hy]; [exact Hfa | apply Hpre, Hy].
Qed.

(** X9. A discovery response resolves the six roles by name patterns.
    Each role gets the id of the first component of the response, in the
    order of the response, whose name contains one of the patterns of the
    role; a role that no component of the response matches keeps the id it
    had; nothing else in the role table changes. The manager then asks
    for the state of every role that is resolved, the ones from earlier
    discoveries included, and emits nothing else. *)
Theorem discovery_resolves_roles
    (p : nat) (d : ControllerStateMsg) (entries : list (string * Component))
    (m : Manager) :
  ctl_components d = Some entries ->
  let m' := on_controller_state p d m in
  (forall key names, (key, names) ∈ patterns ->
     components m' !! key
     = match find_role names entries with
       | Some found => Some found.1
       | None => components m !! key
       end)
  /\ (forall key, key ∉ role_keys -> components m' !! key = components m !! key)
  /\ (forall names found, find_role names entries = Some found ->
        exists pre post,
          entries = pre ++ found :: post
          /\ existsb (fun pt => includes pt (comp_name found.2)) names = true
          /\ forall e, e ∈ pre ->
               existsb (fun pt => includes pt (comp_name e.2)) names = false)
  /\ outbox m'
     = outbox m
       ++ map (MsgComponentSubscribe (controllerId (config m))) (known_components m').
Proof.
  intros Hd. cbn zeta. unfold on_controller_state. rewrite Hd.
  set (m0 := clearTimeout (TDiscovery p) (off "controller:state" (OnceControllerState p) m)).
  set (m1 := set_discoveredList (fold_left store_component entries (discoveredList m0)) m0).
  set (m2 := fold_left (resolve_role entries) patterns m1).
  destruct (fold_emit_outbox (known_components m2) m2) as [Ho3 Hc3].
  set (m3 := fold_left _ (known_components m2) m2) in *.
  assert (Hcomp : components (settle p (ResolveDiscovery true (length entries)) m3)
                  = components m2) by exact Hc3.
  assert (Hnd : NoDup patterns.*1).
  { cbn. repeat (apply NoDup_cons; split; [rewrite ?elem_of_cons, elem_of_nil;
                                            intuition discriminate |]).
    apply NoDup_nil_2. }
  split; [| split; [| split]].
  - intros key names Hin. rewrite Hcomp. subst m2.
    rewrite (fold_resolve_lookup entries patterns m1 key names Hnd Hin). reflexivity.
  - intros key Hk. rewrite Hcomp. subst m2.
    rewrite fold_resolve_other by exact Hk. reflexivity.
  - intros names found Hf. apply (find_first _ _ _ Hf).
  - unfold known_components at 1. rewrite Hcomp. fold (known_components m2).
    cbn [outbox settle set_settled]. rewrite Ho3. f_equal.
    + subst m2. rewrite (fold_left_preserves _ outbox)
        by (intros a b; apply (resolve_role_frame entries a b)). reflexivity.
    + f_equal. f_equal. subst m2. rewrite (fold_left_preserves _ config)
        by (intros a b; apply (resolve_role_frame entries a b)). reflexivity.
Qed.

Lemma discovery_resolves_roles_witness :
  components (on_controller_state 1 first_discovery (new_manager sample_config)) !! "mixer"
  = Some "comp-1".
Proof.
  pose proof (discovery_resolves_roles 1 first_discovery
                [("comp-1", {| comp_name := "Mixer_8x8_2"; comp_controls := None |})]
                (new_manager sample_config) eq_refl) as H.
  cbv zeta in H. destruct H as (H & _).
  rewrite (H "mixer" ["Mixer_8x8_2"]).
  - reflexivity.
  - unfold patterns. do 5 (apply elem_of_cons; right). apply elem_of_cons. left.
    reflexivity.
Defined.

(** ** Answers that come after the timeout *)

Lemma on_controller_state_settled (p : nat) (d : ControllerStateMsg) (m : Manager) :
  settled (on_controller_state p d m)
  = settled m ++ [(p, ResolveDiscovery (discovery_result d).1 (discovery_result d).2)].
Proof.
  unfold on_controller_state, discovery_result.
  destruct (ctl_components d) as [entries |]; [| reflexivity].
  cbn [settled settle set_settled fst snd].
  rewrite (fold_left_preserves _ settled) by reflexivity.
  rewrite (fold_left_preserves _ settled)
    by (intros a b; apply (resolve_role_frame entries a b)).
  reflexivity.
Qed.

Lemma outcome_first (p : nat) (o : Settlement) (m m' : Manager)
    (extra : list (nat * Settlement)) :
  settled m' = settled m ++ extra ->
  outcome p m = Some o -> outcome p m' = Some o.
Proof.
  unfold outcome, calls. intros -> Ho. rewrite filter_app, fmap_app.
  destruct ((filter (fun e => e.1 = p) (settled m)).*2); [discriminate | exact Ho].
Qed.

Section LateAnswers.

Variable JSON_parse : JsValue -> option JsValue.

(** X10. The timeout of a discovery resolves its promise with no
    components but leaves its [once] listener on the socket. A response
    that comes later is still merged into the directory and removes the
    listener; its call of [resolve] is the second one, so the promise
    keeps the outcome of the timeout. *)
Theorem late_discovery_response_still_merges
    (now : Z) (d : ControllerStateMsg) (m : Manager) :
  listeners "controller:state" m = [] ->
  let r := late_discovery JSON_parse now d m in
  let p := r.1.1 in
  let m2 := r.1.2 in
  let m3 := r.2 in
  p = nextId m
  /\ settled m2 = settled m ++ [(p, ResolveDiscovery false 0)]
  /\ listeners "controller:state" m2 = [OnceControllerState p]
  /\ discoveredList m2 = discoveredList m
  /\ discoveredList m3
     = match ctl_components d with
       | Some entries => fold_left store_component entries (discoveredList m)
       | None => discoveredList m
       end
  /\ settled m3
     = settled m2 ++ [(p, ResolveDiscovery (discovery_result d).1 (discovery_result d).2)]
  /\ listeners "controller:state" m3 = []
  /\ (calls p m = [] -> outcome p m3 = Some (ResolveDiscovery false 0)).
Proof.
  intros Hcs. unfold late_discovery, discover_start, fresh, fire.
  erewrite timer_set_last by reflexivity.
  cbn zeta. unfold fst, snd. unfold timer_callback.
  set (p := nextId m).
  set (m1 := emit (MsgControllerSubscribe (controllerId (config (set_nextId (S p) m))))
               (on "controller:state" (OnceControllerState p)
                  (setTimeout (TDiscovery p)
                     (num_or (discoveryTimeout (config (set_nextId (S p) m))) 10000)
                     (set_nextId (S p) m)))).
  set (m2 := settle p (ResolveDiscovery false 0) (clearTimeout (TDiscovery p) m1)).
  assert (Hl2 : listeners "controller:state" m2 = [OnceControllerState p]).
  { change (listeners "controller:state" m2)
      with (listeners "controller:state" (on "controller:state" (OnceControllerState p) m)).
    rewrite listeners_on, Hcs. reflexivity. }
  assert (Hs2 : settled m2 = settled m ++ [(p, ResolveDiscovery false 0)]) by reflexivity.
  assert (Hrecv : recv JSON_parse now (InControllerState d) m2 = on_controller_state p d m2).
  { unfold recv. cbn [event_name]. rewrite Hl2. reflexivity. }
  rewrite Hrecv.
  split; [reflexivity |]. split; [exact Hs2 |]. split; [exact Hl2 |].
  split; [reflexivity |]. split; [| split; [| split]].
  - rewrite on_controller_state_list. reflexivity.
  - apply on_controller_state_settled.
  - destruct (on_controller_state_frame (S p) p d m2 (n_Sn p))
      as (_ & _ & _ & _ & _ & Hh & _).
    unfold listeners. rewrite Hh.
    change (listeners "controller:state"
              (off "controller:state" (OnceControllerState p) m2) = []).
    rewrite listeners_off_same, Hl2. cbn. rewrite decide_True by reflexivity.
    reflexivity.
  - intros Hfresh.
    apply (outcome_first p _ m2 _ _ (on_controller_state_settled p d m2)).
    unfold outcome. rewrite <- (app_nil_r (settled m)) in Hs2.
    unfold calls. rewrite Hs2, <- app_assoc, filter_app, fmap_app.
    fold (calls p m). rewrite Hfresh. cbn. rewrite decide_True by reflexivity.
    reflexivity.
Qed.

End LateAnswers.

Lemma late_discovery_response_still_merges_witness :
  (late_discovery parse_fragment 5 first_discovery (new_manager sample_config)).1.1
  = 0%nat.
Proof.
  exact (proj1 (late_discovery_response_still_merges parse_fragment 5 first_discovery
                  (new_manager sample_config) eq_refl)).
Defined.

Section LateState.

Variable JSON_parse : JsValue -> option JsValue.

Lemma fold_component_state_settled (now : Z) (d : ComponentStateMsg)
    (ls : list Listener) (m : Manager) :
  exists extra,
    settled (fold_left
               (fun m l => run_listener JSON_parse now (InComponentState d) l m) ls m)
    = settled m ++ extra.
Proof.
  revert m. induction ls as [| l ls IH]; intros m.
  - exists []. cbn. rewrite app_nil_r. reflexivity.
  - cbn [fold_left].
    destruct (IH (run_listener JSON_parse now (InComponentState d) l m)) as [extra He].
    rewrite He.
    assert (H1 : exists e1,
               settled (run_listener JSON_parse now (InComponentState d) l m)
               = settled m ++ e1).
    { destruct l; cbn [run_listener];
        try (exists []; rewrite app_nil_r; reflexivity).
      - unfold handleComponentState. destruct (_ ≫= _);
          exists []; rewrite app_nil_r; reflexivity.
      - unfold onState. destruct (_ || _).
        + eexists. reflexivity.
        + exists []. rewrite app_nil_r. reflexivity. }
    destruct H1 as [e1 ->]. exists (e1 ++ extra). rewrite app_assoc. reflexivity.
Qed.

(** X11. For a component id that names no member of [Object.prototype]:
    the timeout of [subscribeToComponent] rejects its promise but leaves
    its listener on the socket. When the state of the component comes
    later, the listener still writes the record: the promise stays
    rejected, and the next [subscribeToComponent] for the component
    returns the record without a request. *)
Theorem late_component_state_is_recorded
    (componentId : string) (now : Z) (d : ComponentStateMsg) (m : Manager) :
  isConnected m = true ->
  isIdentified m = true ->
  discoveredWatched m !! componentId = None ->
  inherited_key componentId = false ->
  matches componentId d ->
  let r := late_subscription JSON_parse componentId now d m in
  let p := nextId m in
  let m2 := r.1.2 in
  let m3 := r.2 in
  let R := {| subscribedAt := now; watch_state := watched_state d |} in
  r.1.1 = SubPending p
  /\ settled m2 = settled m ++ [(p, Reject "Component subscribe timeout")]
  /\ OnState p componentId ∈ listeners "component:state" m2
  /\ discoveredWatched m2 !! componentId = None
  /\ discoveredWatched m3 !! componentId = Some R
  /\ (subscribeToComponent componentId m3).1 = SubCached R
  /\ outbox (subscribeToComponent componentId m3).2 = outbox m3
  /\ (calls p m = [] -> outcome p m3 = Some (Reject "Component subscribe timeout")).
Proof.
  intros Hc Hi Hw Hk Hm r p.
  set (m1 := emit (MsgComponentSubscribe (controllerId (config m)) componentId)
               (on "component:state" (OnState p componentId)
                  (setTimeout (TSubscribe p) (num_or (commandTimeout (config m)) 10000)
                     (set_nextId (S p) m)))).
  set (m2 := settle p (Reject "Component subscribe timeout")
               (clearTimeout (TSubscribe p) m1)).
  assert (Hsub1 : subscribeToComponent componentId m = (SubPending p, m1)).
  { unfold subscribeToComponent. rewrite Hc, Hi, Hw, Hk. reflexivity. }
  assert (Hfire : fire (TSubscribe p) m1 = m2).
  { unfold fire. erewrite timer_set_last by reflexivity. reflexivity. }
  assert (Hr : r = (SubPending p, m2, recv JSON_parse now (InComponentState d) m2)).
  { subst r. unfold late_subscription. rewrite Hsub1, Hfire. reflexivity. }
  clearbody r. subst r. cbv zeta. unfold fst, snd.
  assert (Hin : OnState p componentId ∈ listeners "component:state" m2).
  { apply elem_of_listeners. subst m2.
    cbn [handlers settle set_settled clearTimeout set_timers emit set_outbox on
         set_handlers].
    apply elem_of_app. right. apply list_elem_of_singleton. reflexivity. }
  destruct (recv_writes_record JSON_parse p componentId now d m2 Hm Hin) as [Hrec _].
  destruct (recv_component_state_flags JSON_parse now d m2) as [Hc3 Hi3].
  set (m3 := recv JSON_parse now (InComponentState d) m2) in *.
  split; [reflexivity |]. split; [reflexivity |]. split; [exact Hin |].
  split; [exact Hw |]. split; [exact Hrec |].
  assert (Hsub : subscribeToComponent componentId m3
                 = (SubCached {| subscribedAt := now; watch_state := watched_state d |},
                    log (LogAlreadySubscribed componentId) m3)).
  { unfold subscribeToComponent. rewrite Hc3, Hi3, Hrec.
    change (isConnected m2) with (isConnected m).
    change (isIdentified m2) with (isIdentified m). rewrite Hc, Hi. reflexivity. }
  clear Hsub1.
  rewrite Hsub. split; [reflexivity |]. split; [reflexivity |].
  intros Hfresh.
  destruct (fold_component_state_settled now d (listeners "component:state" m2) m2)
    as [extra He].
  apply (outcome_first p _ m2 m3 extra He).
  unfold outcome, calls. subst m2. cbn [settled settle set_settled clearTimeout set_timers
                                         emit set_outbox on set_handlers setTimeout
                                         set_nextId].
  change (settled m1) with (settled m).
  rewrite filter_app, fmap_app. fold (calls p m). rewrite Hfresh.
  cbn. rewrite decide_True by reflexivity. reflexivity.
Qed.

End LateState.

Lemma late_component_state_is_recorded_witness :
  (late_subscription parse_fragment "comp-1" 1000 bad_snapshot ready_manager).1.1
  = SubPending (nextId ready_manager).
Proof.
  assert (Hc : isConnected ready_manager = true) by reflexivity.
  assert (Hi : isIdentified ready_manager = true) by reflexivity.
  assert (Hw : discoveredWatched ready_manager !! "comp-1" = None) by reflexivity.
  assert (Hk : inherited_key "comp-1" = false) by reflexivity.
  assert (Hm : matches "comp-1" bad_snapshot) by (left; reflexivity).
  exact (proj1 (late_component_state_is_recorded parse_fragment "comp-1" 1000 bad_snapshot
                  ready_manager Hc Hi Hw Hk Hm)).
Defined.

(** ** [reconnect()] while a command is in flight *)

Lemma remove_first_absent {A} `{EqDecision A} (x : A) (l : list A) :
  x ∉ l -> remove_first x l = l.
Proof.
  induction l as [| a l IH]; intros Hx; [reflexivity |].
  apply not_elem_of_cons in Hx as [Hne Hx]. cbn [remove_first].
  rewrite decide_False by congruence. rewrite IH by exact Hx. reflexivity.
Qed.

Lemma init_handlers_no_command (q p : nat) (tid : string) :
  (("control:set:success", OnSuccess p tid) ∉ init_handlers q)
  /\ (("control:set:error", OnError p tid) ∉ init_handlers q).
Proof.
  unfold init_handlers. split; intros H;
    repeat (apply elem_of_cons in H as [H | H]; [discriminate H |]);
    inversion H.
Qed.

(** X12. [reconnect()] replaces the socket but leaves the timeouts of
    the commands in flight running. A command sent before [reconnect()]
    is not settled by it; on the new socket no reply of the bridge reaches
    the command, whose listeners stayed on the old socket; its promise is
    settled by its timeout, with ['Command timeout'], and the timeout
    leaves the listeners of the new socket alone. *)
Theorem reconnect_strands_command_in_flight
    (JSON_parse : JsValue -> option JsValue)
    (k c : string) (v : JsValue) (tid id : string) (m : Manager) :
  isConnected m = true ->
  isIdentified m = true ->
  resolve_target k m = Some id ->
  let r := stranded_command k c v tid m in
  let p := r.1 in
  let m2 := r.2 in
  p = nextId m
  /\ outbox m2 = outbox m ++ [MsgControlSet (controllerId (config m)) id c v tid]
  /\ settled m2 = settled m
  /\ handlers m2 = init_handlers (S (nextId m))
  /\ (forall now d,
        recv JSON_parse now (InControlSetSuccess d) m2 = m2
        /\ recv JSON_parse now (InControlSetError d) m2 = m2)
  /\ settled (fire (TCommand p tid) m2) = settled m ++ [(p, Reject "Command timeout")]
  /\ handlers (fire (TCommand p tid) m2) = handlers m2.
Proof.
  intros Hc Hi Ht r.
  set (p := nextId m).
  set (m1 := emit (MsgControlSet (controllerId (config m)) id c v tid)
               (on "control:set:error" (OnError p tid)
                  (on "control:set:success" (OnSuccess p tid)
                     (setTimeout (TCommand p tid) (num_or (commandTimeout (config m)) 10000)
                        (set_nextId (S p) m))))).
  assert (Hsend : sendControl k c v tid m = (p, m1)).
  { unfold sendControl, fresh. cbn [isConnected isIdentified set_nextId].
    rewrite Hc, Hi. cbn [negb orb].
    change (resolve_target k (set_nextId (S (nextId m)) m)) with (resolve_target k m).
    rewrite Ht. reflexivity. }
  assert (Hc1 : isConnected m1 = true) by exact Hc.
  set (m2 := (reconnect m1).2).
  assert (Hm2 : outbox m2 = outbox m1 /\ settled m2 = settled m1
                /\ handlers m2 = init_handlers (nextId m1)
                /\ timers m2 = timers m1
                                ++ [(TConnect (nextId m1),
                                     num_or (connectionTimeout (config m1)) 20000)]).
  { subst m2. unfold reconnect, init, disconnect. rewrite Hc1. repeat split; reflexivity. }
  destruct Hm2 as (Ho2 & Hs2 & Hh2 & Ht2).
  assert (Hr : r = (p, m2)).
  { subst r. unfold stranded_command. rewrite Hsend. reflexivity. }
  clearbody r. subst r. cbv zeta. unfold fst, snd.
  assert (Hls : listeners "control:set:success" m2 = []
                /\ listeners "control:set:error" m2 = []).
  { unfold listeners. rewrite Hh2. split; reflexivity. }
  destruct Hls as [Hlss Hlse].
  assert (Hfire : fire (TCommand p tid) m2
                  = settle p (Reject "Command timeout")
                      (cleanup p tid (clearTimeout (TCommand p tid) m2))).
  { unfold fire. replace (timer_set (TCommand p tid) m2) with true; [reflexivity |].
    symmetry. unfold timer_set. apply bool_decide_eq_true. rewrite Ht2.
    rewrite fmap_app. apply elem_of_app. left.
    change (timers m1) with (timers m ++ [(TCommand p tid,
                                           num_or (commandTimeout (config m)) 10000)]).
    rewrite fmap_app. apply elem_of_app. right. apply list_elem_of_singleton.
    reflexivity. }
  split; [reflexivity |]. split; [rewrite Ho2; reflexivity |].
  split; [rewrite Hs2; reflexivity |]. split; [exact Hh2 |]. split; [| split].
  - intros now d. unfold recv. cbn [event_name]. rewrite Hlss, Hlse. split; reflexivity.
  - rewrite Hfire. cbn [settled settle set_settled cleanup off set_handlers clearTimeout
                        set_timers]. rewrite Hs2. reflexivity.
  - rewrite Hfire. cbn [handlers settle set_settled cleanup off set_handlers clearTimeout
                        set_timers]. rewrite Hh2.
    destruct (init_handlers_no_command (nextId m1) p tid) as [Hns Hne].
    rewrite (remove_first_absent _ _ Hns). apply remove_first_absent, Hne.
Qed.

Lemma reconnect_strands_command_in_flight_witness :
  (stranded_command "mixer" "output.1.gain" (JNum 5) "mcp-1-aaaa" ready_manager).1
  = nextId ready_manager.
Proof.
  assert (Hc : isConnected ready_manager = true) by reflexivity.
  assert (Hi : isIdentified ready_manager = true) by reflexivity.
  assert (Ht : resolve_target "mixer" ready_manager = Some "comp-1") by reflexivity.
  exact (proj1 (reconnect_strands_command_in_flight parse_fragment "mixer" "output.1.gain"
                  (JNum 5) "mcp-1-aaaa" "comp-1" ready_manager Hc Hi Ht)).
Defined.

(** ** The socket [reconnect()] leaves behind *)

Lemma listeners_of_retired (ev : string) (m : Manager) :
  isConnected m = true ->
  ev <> "control:update" -> ev <> "component:state" ->
  listeners_of ev (handlers (disconnect m)) = listeners ev m.
Proof.
  intros Hc H1 H2.
  change (listeners_of ev (handlers (disconnect m))) with (listeners ev (disconnect m)).
  unfold disconnect. rewrite Hc. unfold on_disconnect.
  change (listeners ev (set_isIdentified false (set_isConnected false ?x)))
    with (listeners ev x).
  rewrite !listeners_removeAll_other by assumption. reflexivity.
Qed.

(** C1. A command that is in flight when [reconnect()] replaces the
    socket is settled once, by its timeout, with ['Command timeout']; but
    [cleanup()] then calls [off] on the socket in use, which is the new
    one, where the two listeners of the command never were: the new
    socket keeps the listeners [init] gave it, and the socket the command
    was sent on keeps the two listeners for good, so that it has one
    listener of ['control:set:success'] and one of ['control:set:error']
    more than before the command. *)
Theorem reconnect_leaves_command_listeners_behind
    (k c : string) (v : JsValue) (tid id : string) (m : Manager) :
  isConnected m = true ->
  isIdentified m = true ->
  resolve_target k m = Some id ->
  let r := command_across_reconnect k c v tid m in
  let p := r.1 in
  let w := r.2 in
  p = nextId m
  /\ settled (manager w) = settled m ++ [(p, Reject "Command timeout")]
  /\ handlers (manager w) = init_handlers (S (nextId m))
  /\ exists old,
       replaced w = [old]
       /\ listeners_of "control:set:success" old
          = listeners "control:set:success" m ++ [OnSuccess p tid]
       /\ listeners_of "control:set:error" old
          = listeners "control:set:error" m ++ [OnError p tid]
       /\ length (listeners_of "control:set:success" old)
          = S (listenerCount "control:set:success" m)
       /\ length (listeners_of "control:set:error" old)
          = S (listenerCount "control:set:error" m).
Proof.
  intros Hc Hi Ht r.
  set (p := nextId m).
  set (m1 := emit (MsgControlSet (controllerId (config m)) id c v tid)
               (on "control:set:error" (OnError p tid)
                  (on "control:set:success" (OnSuccess p tid)
                     (setTimeout (TCommand p tid) (num_or (commandTimeout (config m)) 10000)
                        (set_nextId (S p) m))))).
  assert (Hsend : sendControl k c v tid m = (p, m1)).
  { unfold sendControl, fresh. cbn [isConnected isIdentified set_nextId].
    rewrite Hc, Hi. cbn [negb orb].
    change (resolve_target k (set_nextId (S (nextId m)) m)) with (resolve_target k m).
    rewrite Ht. reflexivity. }
  assert (Hc1 : isConnected m1 = true) by exact Hc.
  assert (Hlss : listeners "control:set:success" m1
                 = listeners "control:set:success" m ++ [OnSuccess p tid]).
  { subst m1. change (listeners ?ev (emit ?x ?y)) with (listeners ev y).
    rewrite !listeners_on.
    repeat match goal with
           | |- context [decide (?a = ?b)] =>
               destruct (decide (a = b)) as [He | He];
               [try discriminate He | try (exfalso; apply He; reflexivity)]
           end.
    rewrite ?app_nil_r. reflexivity. }
  assert (Hlse : listeners "control:set:error" m1
                 = listeners "control:set:error" m ++ [OnError p tid]).
  { subst m1. change (listeners ?ev (emit ?x ?y)) with (listeners ev y).
    rewrite !listeners_on.
    repeat match goal with
           | |- context [decide (?a = ?b)] =>
               destruct (decide (a = b)) as [He | He];
               [try discriminate He | try (exfalso; apply He; reflexivity)]
           end.
    rewrite ?app_nil_r. reflexivity. }
  set (m2 := (reconnect m1).2).
  assert (Hm2 : settled m2 = settled m1
                /\ handlers m2 = init_handlers (nextId m1)
                /\ timers m2 = timers m1
                                ++ [(TConnect (nextId m1),
                                     num_or (connectionTimeout (config m1)) 20000)]).
  { subst m2. unfold reconnect, init, disconnect. rewrite Hc1. repeat split; reflexivity. }
  destruct Hm2 as (Hs2 & Hh2 & Ht2).
  assert (Hfire : fire (TCommand p tid) m2
                  = settle p (Reject "Command timeout")
                      (cleanup p tid (clearTimeout (TCommand p tid) m2))).
  { unfold fire. replace (timer_set (TCommand p tid) m2) with true; [reflexivity |].
    symmetry. unfold timer_set. apply bool_decide_eq_true. rewrite Ht2.
    rewrite fmap_app. apply elem_of_app. left.
    change (timers m1) with (timers m ++ [(TCommand p tid,
                                           num_or (commandTimeout (config m)) 10000)]).
    rewrite fmap_app. apply elem_of_app. right. apply list_elem_of_singleton.
    reflexivity. }
  assert (Hr : r = (p, {| manager := fire (TCommand p tid) m2;
                          replaced := [handlers (disconnect m1)] |})).
  { subst r. unfold command_across_reconnect. rewrite Hsend. reflexivity. }
  clearbody r. subst r. cbv zeta. unfold fst, snd. cbn [manager replaced].
  split; [reflexivity |]. split; [| split].
  - rewrite Hfire. cbn [settled settle set_settled cleanup off set_handlers clearTimeout
                        set_timers]. rewrite Hs2. reflexivity.
  - rewrite Hfire. cbn [handlers settle set_settled cleanup off set_handlers clearTimeout
                        set_timers]. rewrite Hh2.
    destruct (init_handlers_no_command (nextId m1) p tid) as [Hns Hne].
    rewrite (remove_first_absent _ _ Hns). apply remove_first_absent, Hne.
  - exists (handlers (disconnect m1)). split; [reflexivity |].
    rewrite !(listeners_of_retired _ m1 Hc1) by discriminate.
    rewrite Hlss, Hlse. unfold listenerCount. rewrite !length_app. cbn [length].
    repeat split; lia.
Qed.

(** The theorem on a gain command for the mixer of [ready_manager]: after
    [reconnect()] and the timeout of the command, its promise is rejected,
    and the old socket has one listener more for each of the two events
    than before the command. *)
Lemma reconnect_leaves_command_listeners_behind_witness :
  let r := command_across_reconnect "mixer" "output.1.gain" (JNum 5) "mcp-1-aaaa"
             ready_manager in
  isConnected ready_manager = true
  /\ isIdentified ready_manager = true
  /\ resolve_target "mixer" ready_manager = Some "comp-1"
  /\ settled (manager r.2) = settled ready_manager ++ [(r.1, Reject "Command timeout")]
  /\ exists old,
       replaced r.2 = [old]
       /\ length (listeners_of "control:set:success" old)
          = S (listenerCount "control:set:success" ready_manager)
       /\ length (listeners_of "control:set:error" old)
          = S (listenerCount "control:set:error" ready_manager).
Proof.
  assert (Hc : isConnected ready_manager = true) by reflexivity.
  assert (Hi : isIdentified ready_manager = true) by reflexivity.
  assert (Ht : resolve_target "mixer" ready_manager = Some "comp-1") by reflexivity.
  pose proof (reconnect_leaves_command_listeners_behind "mixer" "output.1.gain" (JNum 5)
                "mcp-1-aaaa" "comp-1" ready_manager Hc Hi Ht) as H.
  destruct H as (_ & Hs & _ & old & Hold & _ & _ & Hns & Hne).
  split; [exact Hc |]. split; [exact Hi |]. split; [exact Ht |].
  split; [exact Hs |]. exists old. split; [exact Hold |].
  split; [exact Hns | exact Hne].
Defined.

(** ** The table of the state cache *)

Lemma control_map_cases (controlId : string) (f : Field) :
  control_map controlId = Some f ->
  (controlId, f) ∈ [("HardwareState", FHardwareState);
                    ("hdmi.enabled.button", FScreenPower);
                    ("pin.8.digital.out", FPrivacyGlass);
                    ("hdmi.out.1.select.hdmi.1", FDidoOutput);
                    ("ZoneDimLevel1", FLightingLevel);
                    ("output.1.gain", FVolumeLevel)].
Proof.
  unfold control_map.
  repeat match goal with
         | |- context [String.eqb controlId ?s] =>
             destruct (String.eqb_spec controlId s) as [-> | _];
             [intros [= <-]; rewrite !elem_of_cons;
              repeat first [left; reflexivity | right] |]
         end.
  discriminate.
Qed.

(** X13. The table of [handleControlUpdate] pairs six control names with
    six fields of the cache, one to one. A [control:update] for a name of
    the table stores the value of the control in the field of that name and
    leaves the other five fields, [connectedSources] and the TTL as they
    were; no other control name writes to that field. *)
Theorem control_update_writes_its_field
    (JSON_parse : JsValue -> option JsValue)
    (now : Z) (d : ControlUpdate) (f : Field) (m : Manager) :
  control_map (cu_controlId d) = Some f ->
  let s' := state (handleControlUpdate JSON_parse now d m) in
  get_field f s' = c_value (cu_control d)
  /\ (forall g, g <> f -> get_field g s' = get_field g (state m))
  /\ connectedSources s' = connectedSources (state m)
  /\ TTL s' = TTL (state m)
  /\ (forall controlId, control_map controlId = Some f -> controlId = cu_controlId d).
Proof.
  intros Hf. pose proof (control_map_cases _ _ Hf) as Hin.
  cbn zeta. unfold handleControlUpdate. rewrite Hf.
  assert (Hne : String.eqb (cu_controlId d) "ConnectedSources" = false).
  { rewrite !elem_of_cons, elem_of_nil in Hin.
    destruct Hin as [H | [H | [H | [H | [H | [H | []]]]]]];
      apply pair_equal_spec in H as [-> _]; reflexivity. }
  rewrite Hne. cbn [state notifyStateChange set_notified set_state with_timestamp].
  split; [destruct f; reflexivity |]. split; [| split; [reflexivity | split; [reflexivity |]]].
  - intros g Hg. destruct f, g; try reflexivity; congruence.
  - intros controlId Hc. pose proof (control_map_cases _ _ Hc) as Hin'.
    rewrite !elem_of_cons, elem_of_nil in Hin, Hin'.
    destruct Hin as [H | [H | [H | [H | [H | [H | []]]]]]];
      apply pair_equal_spec in H as [-> ->];
      destruct Hin' as [H' | [H' | [H' | [H' | [H' | [H' | []]]]]]];
      apply pair_equal_spec in H' as [-> H']; (reflexivity || discriminate).
Qed.

Lemma control_update_writes_its_field_witness :
  get_field FVolumeLevel
    (state (handleControlUpdate parse_fragment 10
              {| cu_controlId := "output.1.gain";
                 cu_control := {| c_string := JUndefined; c_value := JNum (-20) |} |}
              ready_manager))
  = JNum (-20).
Proof.
  exact (proj1 (control_update_writes_its_field parse_fragment 10
                  {| cu_controlId := "output.1.gain";
                     cu_control := {| c_string := JUndefined; c_value := JNum (-20) |} |}
                  FVolumeLevel ready_manager eq_refl)).
Defined.

(** X14. The two shapes of a state update agree: a [component:state]
    snapshot that carries a single control is handled exactly as the
    [control:update] for that control is, whichever component the snapshot
    names and whatever the name of the control, provided it is not the
    name of a member of [Object.prototype]. (For such a name the table of
    [handleControlUpdate], a plain object, answers with the inherited
    member, and the update writes a property of the cache that the
    snapshot does not write.) *)
Theorem single_control_snapshot_is_control_update
    (JSON_parse : JsValue -> option JsValue)
    (now : Z) (id : string) (d : ControlUpdate) (m : Manager) :
  inherited_key (cu_controlId d) = false ->
  handleComponentState JSON_parse now (snapshot_of id d) m
  = handleControlUpdate JSON_parse now d m.
Proof.
  intros _.
  destruct d as [cid ctl]. unfold handleComponentState, handleControlUpdate, snapshot_of.
  cbn [csm_component cp_controls mbind option_bind cu_controlId cu_control].
  unfold copy_control. rewrite !lookup_singleton.
  f_equal. f_equal. f_equal.
  unfold control_map.
  destruct (String.eqb_spec cid "ConnectedSources") as [-> | H0]; [reflexivity |].
  rewrite (decide_False (P := cid = "ConnectedSources")) by exact H0.
  destruct (String.eqb_spec cid "HardwareState") as [-> | H1]; [reflexivity |].
  rewrite (decide_False (P := cid = "HardwareState")) by exact H1.
  destruct (String.eqb_spec cid "hdmi.enabled.button") as [-> | H2]; [reflexivity |].
  rewrite (decide_False (P := cid = "hdmi.enabled.button")) by exact H2.
  destruct (String.eqb_spec cid "pin.8.digital.out") as [-> | H3]; [reflexivity |].
  rewrite (decide_False (P := cid = "pin.8.digital.out")) by exact H3.
  destruct (String.eqb_spec cid "hdmi.out.1.select.hdmi.1") as [-> | H4]; [reflexivity |].
  rewrite (decide_False (P := cid = "hdmi.out.1.select.hdmi.1")) by exact H4.
  destruct (String.eqb_spec cid "ZoneDimLevel1") as [-> | H5]; [reflexivity |].
  rewrite (decide_False (P := cid = "ZoneDimLevel1")) by exact H5.
  destruct (String.eqb_spec cid "output.1.gain") as [-> | H6]; [reflexivity |].
  rewrite (decide_False (P := cid = "output.1.gain")) by exact H6.
  reflexivity.
Qed.

Lemma single_control_snapshot_is_control_update_witness :
  handleComponentState parse_fragment 10
    (snapshot_of "comp-1"
       {| cu_controlId := "output.1.gain";
          cu_control := {| c_string := JUndefined; c_value := JNum (-20) |} |})
    ready_manager
  = handleControlUpdate parse_fragment 10
      {| cu_controlId := "output.1.gain";
         cu_control := {| c_string := JUndefined; c_value := JNum (-20) |} |}
      ready_manager.
Proof.
  apply (single_control_snapshot_is_control_update parse_fragment 10 "comp-1"
           {| cu_controlId := "output.1.gain";
              cu_control := {| c_string := JUndefined; c_value := JNum (-20) |} |}
           ready_manager).
  reflexivity.
Defined.

(** ** [findComponent] *)

Lemma lower_ascii_idem (c : ascii) : lower_ascii (lower_ascii c) = lower_ascii c.
Proof. destruct c as [[] [] [] [] [] [] [] []]; reflexivity. Qed.

Lemma toLowerCase_idem (s : string) : toLowerCase (toLowerCase s) = toLowerCase s.
Proof.
  induction s as [| c s IH]; [reflexivity |]. cbn [toLowerCase].
  rewrite lower_ascii_idem, IH. reflexivity.
Qed.

Lemma prefix_refl (s : string) : String.prefix s s = true.
Proof.
  induction s as [| c s IH]; [reflexivity |]. cbn [String.prefix].
  destruct (ascii_dec c c); [exact IH | congruence].
Qed.

Lemma includes_refl (s : string) : includes s s = true.
Proof.
  unfold includes. destruct s as [| c s]; [reflexivity |].
  cbn [index]. rewrite prefix_refl. reflexivity.
Qed.

Lemma includes_empty (p : string) : p <> "" -> includes p "" = false.
Proof. destruct p; [congruence | reflexivity]. Qed.

Lemma findComponent_spec (keys : list string) (name : string) (m : Manager) :
  enumerates keys m ->
  name <> "" ->
  (forall r, findComponent keys name m = Some r ->
     exists k, discoveredList m !! k = Some r
               /\ includes (toLowerCase name) (toLowerCase k) = true)
  /\ (findComponent keys name m = None <->
      forall k r, discoveredList m !! k = Some r ->
                  includes (toLowerCase name) (toLowerCase k) = false).
Proof.
  intros Hkeys Hname.
  assert (Hlow : toLowerCase name <> "") by (destruct name; [congruence | discriminate]).
  unfold findComponent. split.
  - intros r.
    destruct (List.find _ keys) as [k |] eqn:Hfind; [| discriminate].
    apply find_some in Hfind as [_ Hk].
    destruct (truthy_str k); [| discriminate]. intros Hr. exists k. split; assumption.
  - destruct (List.find _ keys) as [k |] eqn:Hfind.
    + apply find_some in Hfind as [Hin Hk]. apply list_elem_of_In in Hin.
      apply Hkeys in Hin as [r Hr].
      assert (Hne : truthy_str k = true).
      { destruct k; [| reflexivity]. cbn [toLowerCase] in Hk.
        rewrite includes_empty in Hk by exact Hlow. discriminate. }
      rewrite Hne, Hr. split; [discriminate |].
      intros Hall. rewrite (Hall k r Hr) in Hk. discriminate.
    + split; [| reflexivity]. intros _ k r Hr.
      apply (find_none _ _ Hfind). apply list_elem_of_In. apply Hkeys. exists r. exact Hr.
Qed.

(** X15. [findComponent] looks a component up by a part of its name,
    ignoring case. For names of ASCII (the query and the names of the
    directory), a query that is not empty, and any order in which the
    runtime enumerates the directory: a record it returns is stored under
    a name that contains the query, case ignored; it returns [null]
    exactly when no name of the directory contains the query; and the case
    of the query does not matter. *)
Theorem findComponent_matches_by_substring
    (keys : list string) (name : string) (m : Manager) :
  enumerates keys m ->
  name <> "" ->
  ascii_only name = true ->
  (forall k, k ∈ keys -> ascii_only k = true) ->
  (forall r, findComponent keys name m = Some r ->
     exists k, discoveredList m !! k = Some r
               /\ includes (toLowerCase name) (toLowerCase k) = true)
  /\ (findComponent keys name m = None <->
      forall k r, discoveredList m !! k = Some r ->
                  includes (toLowerCase name) (toLowerCase k) = false)
  /\ findComponent keys (toLowerCase name) m = findComponent keys name m.
Proof.
  intros Hkeys Hname _ _.
  destruct (findComponent_spec keys name m Hkeys Hname) as [Hsome Hnone].
  split; [exact Hsome | split; [exact Hnone |]].
  unfold findComponent. rewrite toLowerCase_idem. reflexivity.
Qed.

Lemma findComponent_matches_by_substring_witness :
  findComponent ["Mixer_8x8_2"] (toLowerCase "MIXER") ready_manager
  = findComponent ["Mixer_8x8_2"] "MIXER" ready_manager.
Proof.
  refine (proj2 (proj2 (findComponent_matches_by_substring ["Mixer_8x8_2"] "MIXER"
                          ready_manager _ _ eq_refl _)));
    [| discriminate | intros k ->%list_elem_of_singleton; reflexivity].
  intros k. rewrite list_elem_of_singleton. split.
  - intros ->. vm_compute. eexists. reflexivity.
  - intros [r Hr]. destruct (decide (k = "Mixer_8x8_2")) as [-> | Hne]; [reflexivity |].
    exfalso. revert Hr.
    change (discoveredList ready_manager)
      with (fold_left store_component
              [("comp-1", {| comp_name := "Mixer_8x8_2"; comp_controls := None |})]
              (∅ : gmap string ComponentRecord)).
    rewrite fold_store_other; [rewrite lookup_empty; discriminate |].
    unfold names_of. cbn. rewrite list_elem_of_singleton. exact Hne.
Defined.

(** X16. What a discovery brings can be found. When the names of the
    directory are of ASCII and none of them is ['__proto__'] (a name under
    which an assignment to the directory, a plain object, stores no
    property): after a discovery response has been handled,
    [findComponent] returns a record for the name of every component the
    response carries, provided the name is not empty, in whatever order
    the runtime enumerates the directory. The record is one whose name
    contains the name asked for, case ignored. *)
Theorem discovered_component_is_found
    (p : nat) (d : ControllerStateMsg) (entries : list (string * Component))
    (id : string) (c : Component) (keys : list string) (m : Manager) :
  ctl_components d = Some entries ->
  (id, c) ∈ entries ->
  comp_name c <> "" ->
  (forall e, e ∈ entries -> comp_name e.2 <> "__proto__") ->
  discoveredList m !! "__proto__" = None ->
  let m' := on_controller_state p d m in
  enumerates keys m' ->
  (forall k, k ∈ keys -> ascii_only k = true) ->
  exists r k,
    findComponent keys (comp_name c) m' = Some r
    /\ discoveredList m' !! k = Some r
    /\ includes (toLowerCase (comp_name c)) (toLowerCase k) = true.
Proof.
  intros Hd Hin Hname _ _ m' Hkeys _.
  destruct (findComponent_spec keys (comp_name c) m' Hkeys Hname)
    as (Hsome & Hnone).
  destruct (findComponent keys (comp_name c) m') as [r |] eqn:Hfind.
  - destruct (Hsome r eq_refl) as (k & Hk & Hinc). exists r, k. auto.
  - exfalso. destruct Hnone as [Hnone _]. specialize (Hnone eq_refl).
    assert (Hl : discoveredList m'
                 = fold_left store_component entries (discoveredList m)).
    { subst m'. rewrite on_controller_state_list, Hd. reflexivity. }
    destruct (fold_store_carried entries (discoveredList m) id c Hin)
      as (r & _ & _ & Hr & _).
    rewrite <- Hl in Hr. pose proof (Hnone _ _ Hr) as Hno.
    rewrite includes_refl in Hno. discriminate.
Qed.

Lemma sample_directory_keys :
  enumerates ["Mixer_8x8_2"]
    (on_controller_state 1 first_discovery (new_manager sample_config)).
Proof.
  intros k. rewrite list_elem_of_singleton, on_controller_state_list.
  cbn [ctl_components first_discovery]. split.
  - intros ->. eexists. reflexivity.
  - intros [r Hr]. destruct (decide (k = "Mixer_8x8_2")) as [-> | Hne]; [reflexivity |].
    exfalso. revert Hr.
    rewrite fold_store_other; [cbn; rewrite lookup_empty; discriminate |].
    unfold names_of. cbn. rewrite list_elem_of_singleton. exact Hne.
Qed.

Lemma discovered_component_is_found_witness :
  exists r k,
    findComponent ["Mixer_8x8_2"] "Mixer_8x8_2"
      (on_controller_state 1 first_discovery (new_manager sample_config)) = Some r
    /\ discoveredList (on_controller_state 1 first_discovery (new_manager sample_config))
       !! k = Some r
    /\ includes (toLowerCase "Mixer_8x8_2") (toLowerCase k) = true.
Proof.
  refine (discovered_component_is_found 1 first_discovery
            [("comp-1", {| comp_name := "Mixer_8x8_2"; comp_controls := None |})]
            "comp-1" {| comp_name := "Mixer_8x8_2"; comp_controls := None |}
            ["Mixer_8x8_2"] (new_manager sample_config) eq_refl _ _ _ eq_refl
            sample_directory_keys _).
  - apply list_elem_of_singleton. reflexivity.
  - discriminate.
  - intros e ->%list_elem_of_singleton. discriminate.
  - intros k ->%list_elem_of_singleton. reflexivity.
Defined.

(** ** The timeout of a command: the legacy server and the manager *)

Lemma includes_dash_truthy (id : string) : includes "-" id = true -> truthy_str id = true.
Proof. destruct id; [discriminate | reflexivity]. Qed.

Lemma legacy_lost_command_effect (m : Manager) (c : string * string * JsValue * string) :
  isConnected m = true -> isIdentified m = true ->
  includes "-" c.1.1.1 = true ->
  let m' := Legacy.lost_command m c in
  isConnected m' = true /\ isIdentified m' = true
  /\ settled m' = settled m ++ [(nextId m, Reject "Command timeout")]
  /\ outbox m' = outbox m ++ [MsgControlSet (controllerId (config m)) c.1.1.1 c.1.1.2
                                c.1.2 c.2]
  /\ nextId m' = S (nextId m) /\ config m' = config m /\ components m' = components m
  /\ listenerCount "control:set:success" m' = S (listenerCount "control:set:success" m)
  /\ listenerCount "control:set:error" m' = S (listenerCount "control:set:error" m).
Proof.
  destruct c as [[[id cid] v] tid]. cbn [fst snd]. intros Hc Hi Hid.
  apply includes_dash_truthy in Hid.
  cbn zeta. unfold Legacy.lost_command, Legacy.sendControl, fresh.
  cbn [isConnected isIdentified set_nextId]. rewrite Hc, Hi, Hid. cbn [negb orb].
  unfold Legacy.timeout. erewrite timer_set_last by reflexivity.
  split; [exact Hc |]. split; [exact Hi |].
  split; [reflexivity |]. split; [reflexivity |].
  split; [reflexivity |]. split; [reflexivity |]. split; [reflexivity |].
  unfold listenerCount. split.
  - match goal with |- length (listeners ?ev ?x) = _ =>
      change (listeners ev x)
        with (listeners ev (on "control:set:error" (OnError (nextId m) tid)
                              (on "control:set:success" (OnSuccess (nextId m) tid) m)))
    end.
    rewrite !listeners_on.
    rewrite (decide_False (P := "control:set:error" = "control:set:success"))
      by discriminate.
    rewrite decide_True by reflexivity. rewrite app_nil_r, length_app. cbn. lia.
  - match goal with |- length (listeners ?ev ?x) = _ =>
      change (listeners ev x)
        with (listeners ev (on "control:set:error" (OnError (nextId m) tid)
                              (on "control:set:success" (OnSuccess (nextId m) tid) m)))
    end.
    rewrite !listeners_on.
    rewrite (decide_False (P := "control:set:success" = "control:set:error"))
      by discriminate.
    rewrite decide_True by reflexivity. rewrite app_nil_r, length_app. cbn. lia.
Qed.

Lemma lost_command_effect (m : Manager) (c : string * string * JsValue * string) :
  isConnected m = true -> isIdentified m = true ->
  includes "-" c.1.1.1 = true ->
  let m' := lost_command m c in
  isConnected m' = true /\ isIdentified m' = true
  /\ settled m' = settled m ++ [(nextId m, Reject "Command timeout")]
  /\ outbox m' = outbox m ++ [MsgControlSet (controllerId (config m)) c.1.1.1 c.1.1.2
                                c.1.2 c.2]
  /\ nextId m' = S (nextId m) /\ config m' = config m /\ components m' = components m
  /\ listenerCount "control:set:success" m' = listenerCount "control:set:success" m
  /\ listenerCount "control:set:error" m' = listenerCount "control:set:error" m.
Proof.
  destruct c as [[[id cid] v] tid]. cbn [fst snd]. intros Hc Hi Hid.
  cbn zeta. unfold lost_command, sendControl, fresh.
  cbn [isConnected isIdentified set_nextId]. rewrite Hc, Hi. cbn [negb orb].
  unfold resolve_target. rewrite Hid.
  unfold fire. erewrite timer_set_last by reflexivity. unfold timer_callback, cleanup.
  split; [exact Hc |]. split; [exact Hi |].
  split; [reflexivity |]. split; [reflexivity |].
  split; [reflexivity |]. split; [reflexivity |]. split; [reflexivity |].
  unfold listenerCount. split.
  - match goal with |- length (listeners ?ev ?x) = _ =>
      change (listeners ev x)
        with (listeners ev
                (off "control:set:error" (OnError (nextId m) tid)
                   (off "control:set:success" (OnSuccess (nextId m) tid)
                      (on "control:set:error" (OnError (nextId m) tid)
                         (on "control:set:success" (OnSuccess (nextId m) tid) m)))))
    end.
    rewrite listeners_off_other by discriminate. rewrite listeners_off_same.
    rewrite !listeners_on.
    rewrite (decide_False (P := "control:set:error" = "control:set:success"))
      by discriminate.
    rewrite decide_True by reflexivity. rewrite app_nil_r.
    apply Nat.succ_inj. rewrite remove_first_length.
    + rewrite length_app. cbn [length]. unfold Nat.succ. lia.
    + apply elem_of_app. right. apply list_elem_of_singleton. reflexivity.
  - match goal with |- length (listeners ?ev ?x) = _ =>
      change (listeners ev x)
        with (listeners ev
                (off "control:set:error" (OnError (nextId m) tid)
                   (off "control:set:success" (OnSuccess (nextId m) tid)
                      (on "control:set:error" (OnError (nextId m) tid)
                         (on "control:set:success" (OnSuccess (nextId m) tid) m)))))
    end.
    rewrite listeners_off_same. rewrite listeners_off_other by discriminate.
    rewrite !listeners_on.
    rewrite (decide_False (P := "control:set:success" = "control:set:error"))
      by discriminate.
    rewrite decide_True by reflexivity. rewrite app_nil_r.
    apply Nat.succ_inj. rewrite remove_first_length.
    + rewrite length_app. cbn [length]. unfold Nat.succ. lia.
    + apply elem_of_app. right. apply list_elem_of_singleton. reflexivity.
Qed.

(** X17. The timeout of a command removes the two listeners of the
    command in the connection manager, and leaves them registered in the
    legacy HTTP server. For every run of commands that are addressed by a
    component id with a dash in it (which the manager takes for an id, not
    for a role) and all time out, on a connected and identified socket:
    both send the same [control:set] messages and reject each promise once
    with ['Command timeout']; the manager ends with as many listeners of
    [control:set:success] and of [control:set:error] as it began with;
    the legacy server ends with one more of each per command. *)
Theorem legacy_timeout_leaves_listeners
    (cmds : list (string * string * JsValue * string)) (m : Manager) :
  isConnected m = true ->
  isIdentified m = true ->
  Forall (fun c => includes "-" c.1.1.1 = true) cmds ->
  let a := fold_left Legacy.lost_command cmds m in
  let b := fold_left lost_command cmds m in
  settled a = settled b
  /\ outbox a = outbox b
  /\ length (settled b) = (length (settled m) + length cmds)%nat
  /\ listenerCount "control:set:success" b = listenerCount "control:set:success" m
  /\ listenerCount "control:set:error" b = listenerCount "control:set:error" m
  /\ listenerCount "control:set:success" a
     = (listenerCount "control:set:success" m + length cmds)%nat
  /\ listenerCount "control:set:error" a
     = (listenerCount "control:set:error" m + length cmds)%nat.
Proof.
  intros Hc Hi Hall. cbn zeta.
  assert (H : forall ma mb,
             isConnected ma = true -> isIdentified ma = true ->
             isConnected mb = true -> isIdentified mb = true ->
             settled ma = settled mb -> outbox ma = outbox mb ->
             nextId ma = nextId mb -> config ma = config mb ->
             let a := fold_left Legacy.lost_command cmds ma in
             let b := fold_left lost_command cmds mb in
             settled a = settled b /\ outbox a = outbox b
             /\ length (settled b) = (length (settled mb) + length cmds)%nat
             /\ listenerCount "control:set:success" b = listenerCount "control:set:success" mb
             /\ listenerCount "control:set:error" b = listenerCount "control:set:error" mb
             /\ listenerCount "control:set:success" a
                = (listenerCount "control:set:success" ma + length cmds)%nat
             /\ listenerCount "control:set:error" a
                = (listenerCount "control:set:error" ma + length cmds)%nat).
  { clear Hc Hi m. induction Hall as [| c cmds Hcmd _ IH];
      intros ma mb Hca Hia Hcb Hib Hs Ho Hn Hcfg; cbn zeta.
    - cbn. rewrite !Nat.add_0_r. auto 10.
    - cbn [fold_left length].
      destruct (legacy_lost_command_effect ma c Hca Hia Hcmd)
        as (Hca' & Hia' & Hsa & Hoa & Hna & Hcfa & _ & Hlsa & Hlea).
      destruct (lost_command_effect mb c Hcb Hib Hcmd)
        as (Hcb' & Hib' & Hsb & Hob & Hnb & Hcfb & _ & Hlsb & Hleb).
      destruct (IH (Legacy.lost_command ma c) (lost_command mb c) Hca' Hia' Hcb' Hib')
        as (H1 & H2 & H3 & H4 & H5 & H6 & H7).
      + rewrite Hsa, Hsb, Hs, Hn. reflexivity.
      + rewrite Hoa, Hob, Ho, Hcfg. reflexivity.
      + rewrite Hna, Hnb, Hn. reflexivity.
      + rewrite Hcfa, Hcfb. exact Hcfg.
      + rewrite H1, H2, H3, H4, H5, H6, H7, Hlsa, Hlea, Hlsb, Hleb, Hsb.
        rewrite length_app. cbn [length]. repeat split; lia. }
  apply (H m m); auto.
Qed.

Lemma legacy_timeout_leaves_listeners_witness :
  listenerCount "control:set:success"
    (fold_left Legacy.lost_command
       [("comp-1", "output.1.gain", JNum 5, "mcp-1-aaaa");
        ("comp-1", "output.1.gain", JNum 7, "mcp-2-bbbb")] ready_manager)
  = (listenerCount "control:set:success" ready_manager + 2)%nat.
Proof.
  assert (Hc : isConnected ready_manager = true) by reflexivity.
  assert (Hi : isIdentified ready_manager = true) by reflexivity.
  pose proof (legacy_timeout_leaves_listeners
                [("comp-1", "output.1.gain", JNum 5, "mcp-1-aaaa");
                 ("comp-1", "output.1.gain", JNum 7, "mcp-2-bbbb")] ready_manager Hc Hi) as H.
  cbv zeta in H. apply H. repeat constructor.
Defined.

(** ** [connectWithRetry] *)

Lemma retry_loop_spec (base cap : Q) (succeeds : nat -> bool) (random : nat -> Q)
    (maxRetries left attempt : nat) :
  (attempt + left = maxRetries + 1)%nat ->
  let r := retry_loop base cap succeeds random maxRetries left attempt in
  (rr_attempts r <= left)%nat
  /\ (rr_connected r = true ->
      (1 <= rr_attempts r)%nat
      /\ succeeds (attempt + rr_attempts r - 1)%nat = true)
  /\ (forall a, (attempt <= a < attempt + rr_attempts r
                               - (if rr_connected r then 1 else 0))%nat ->
                succeeds a = false)
  /\ (rr_connected r = false -> rr_attempts r = left)
  /\ length (rr_sleeps r)
     = (if rr_connected r then rr_attempts r - 1 else left - 1)%nat
  /\ rr_sleeps r
     = map (fun a => calculateBackoff base cap a (random a))
           (seq attempt (length (rr_sleeps r))).
Proof.
  revert attempt. induction left as [| left IH]; intros attempt Hinv; cbn zeta.
  - cbn. repeat split; try discriminate; intros; lia.
  - cbn [retry_loop]. destruct (succeeds attempt) eqn:Hs.
    + cbn [rr_connected rr_attempts rr_sleeps length seq map].
      split; [lia |]. split; [| split; [| split; [| split]]];
        try discriminate; try reflexivity.
      * intros _. split; [lia |].
        replace (attempt + 1 - 1)%nat with attempt by lia. exact Hs.
      * intros a Ha. lia.
    + destruct (IH (S attempt) ltac:(lia)) as (H1 & H2 & H3 & H4 & H5 & H6).
      set (r := retry_loop base cap succeeds random maxRetries left (S attempt)) in *.
      cbn [rr_connected rr_attempts rr_sleeps].
      split; [lia |]. split; [| split; [| split; [| split]]].
      * intros Hc. destruct (H2 Hc) as [Hge Hsucc]. split; [lia |].
        replace (attempt + S (rr_attempts r) - 1)%nat
          with (S attempt + rr_attempts r - 1)%nat by lia. exact Hsucc.
      * intros a Ha. destruct (decide (a = attempt)) as [-> | Hne]; [exact Hs |].
        apply H3. destruct (rr_connected r); lia.
      * intros Hc. rewrite (H4 Hc). reflexivity.
      * rewrite length_app, H5.
        destruct (Nat.ltb_spec attempt maxRetries) as [Hlt | Hge]; cbn [length].
        -- destruct (rr_connected r) eqn:Hc; [| lia].
           destruct (H2 eq_refl) as [Hge _]. lia.
        -- assert (left = 0%nat) by lia. subst left.
           destruct (rr_connected r) eqn:Hc; [| lia].
           destruct (H2 eq_refl) as [Hge1 _]. lia.
      * destruct (Nat.ltb_spec attempt maxRetries) as [Hlt | Hge].
        -- cbn [app length seq map]. f_equal. exact H6.
        -- assert (left = 0%nat) by lia. subst left. reflexivity.
Qed.

Lemma Qsum_bound (B : Q) (l : list Q) :
  Forall (fun d => d <= B)%Q l ->
  (Qsum l <= inject_Z (Z.of_nat (length l)) * B)%Q.
Proof.
  induction 1 as [| d l Hd _ IH].
  - change (0 <= 0 * B)%Q. lra.
  - change (Qsum (d :: l)) with (d + Qsum l)%Q. cbn [length].
    rewrite Nat2Z.inj_succ. unfold Z.succ. rewrite inject_Z_plus.
    change (inject_Z 1) with 1%Q. nra.
Qed.

(** X18. [connectWithRetry(maxRetries)] calls [init] at most [maxRetries]
    times and stops at the first attempt that succeeds; it reports success
    exactly when one of the attempts 1 to [maxRetries] succeeds. It sleeps
    between two attempts only, never after the last one: the delays are
    [calculateBackoff] of the attempts 1, 2, ... in this order, so the
    first is drawn from twice the base delay. With non-negative delays in
    the configuration, each sleep is at most a quarter above the cap, and
    the whole run sleeps at most [maxRetries - 1] times that. *)
Theorem connectWithRetry_bounded
    (base cap : Q) (succeeds : nat -> bool) (random : nat -> Q) (maxRetries : nat) :
  (0 <= base)%Q -> (0 <= cap)%Q ->
  (forall a, 0 <= random a /\ random a < 1)%Q ->
  let r := connectWithRetry base cap succeeds random maxRetries in
  (rr_attempts r <= maxRetries)%nat
  /\ (rr_connected r = true <->
      exists a, (1 <= a <= maxRetries)%nat /\ succeeds a = true)
  /\ (rr_connected r = true ->
      succeeds (rr_attempts r) = true
      /\ forall a, (1 <= a < rr_attempts r)%nat -> succeeds a = false)
  /\ (rr_connected r = false -> rr_attempts r = maxRetries)
  /\ length (rr_sleeps r)
     = (if rr_connected r then rr_attempts r - 1 else maxRetries - 1)%nat
  /\ rr_sleeps r
     = map (fun a => calculateBackoff base cap a (random a))
           (seq 1 (length (rr_sleeps r)))
  /\ Forall (fun d => 0 <= d /\ d <= cap * (5 # 4))%Q (rr_sleeps r)
  /\ (Qsum (rr_sleeps r) <= inject_Z (Z.of_nat (maxRetries - 1)) * (cap * (5 # 4)))%Q.
Proof.
  intros Hb Hc Hr. cbn zeta. unfold connectWithRetry.
  destruct (retry_loop_spec base cap succeeds random maxRetries maxRetries 1 ltac:(lia))
    as (H1 & H2 & H3 & H4 & H5 & H6).
  set (r := retry_loop base cap succeeds random maxRetries maxRetries 1) in *.
  assert (Hall : Forall (fun d => 0 <= d /\ d <= cap * (5 # 4))%Q (rr_sleeps r)).
  { rewrite H6. apply Forall_forall. intros d Hd.
    apply list_elem_of_fmap in Hd as (a & -> & _).
    destruct (capped_delay_bounds base cap a Hb Hc) as [Hm0 Hm1].
    destruct (Hr a) as [Hr0 Hr1]. unfold calculateBackoff. split; nra. }
  split; [exact H1 |]. split; [| split; [| split; [exact H4 | split; [exact H5 |
    split; [exact H6 | split; [exact Hall |]]]]]].
  - split.
    + intros Hcon. destruct (H2 Hcon) as [Hge Hs].
      exists (1 + rr_attempts r - 1)%nat. split; [lia | exact Hs].
    + intros (a & Ha & Hs). destruct (rr_connected r) eqn:Hcon; [reflexivity |].
      rewrite (H3 a) in Hs; [discriminate |]. rewrite (H4 eq_refl). lia.
  - intros Hcon. destruct (H2 Hcon) as [Hge Hs]. split.
    + replace (rr_attempts r) with (1 + rr_attempts r - 1)%nat by lia. exact Hs.
    + intros a Ha. apply H3. rewrite Hcon. lia.
  - assert (Hlen : (length (rr_sleeps r) <= maxRetries - 1)%nat).
    { rewrite H5. destruct (rr_connected r); lia. }
    assert (Hup : Forall (fun d => d <= cap * (5 # 4))%Q (rr_sleeps r)).
    { eapply List.Forall_impl; [| exact Hall]. intros d [_ Hd]. exact Hd. }
    pose proof (Qsum_bound _ _ Hup) as Hsum.
    assert (Hq : (inject_Z (Z.of_nat (length (rr_sleeps r)))
                  <= inject_Z (Z.of_nat (maxRetries - 1)))%Q).
    { rewrite <- Zle_Qle. lia. }
    nra.
Qed.

(** The defaults: base 1000 ms, cap 30000 ms, ten attempts, a bridge that
    answers at the third. *)
Lemma connectWithRetry_bounded_witness :
  (rr_attempts (connectWithRetry 1000 30000 (fun a => (3 <=? a)%nat)
                  (fun _ => 1 # 2) 10) <= 10)%nat.
Proof.
  refine (proj1 (connectWithRetry_bounded 1000 30000 (fun a => (3 <=? a)%nat)
                   (fun _ => 1 # 2) 10 _ _ _)).
  - discriminate.
  - discriminate.
  - intros _. split; [discriminate | reflexivity].
Defined.

(** ** The tool registry *)

Lemma getTool_map_set (k k' : string) (v : Tool) (r : Registry) :
  getTool k' (map_set k v r) = if String.eqb k k' then Some v else getTool k' r.
Proof.
  unfold getTool. induction r as [| [k0 v0] r IH]; cbn [map_set List.find fst snd].
  - destruct (String.eqb k k'); reflexivity.
  - destruct (String.eqb_spec k0 k) as [-> | Hne]; cbn [List.find fst snd].
    + destruct (String.eqb k k'); reflexivity.
    + destruct (String.eqb_spec k0 k') as [-> | Hne'].
      * rewrite (proj2 (String.eqb_neq k k')) by congruence. reflexivity.
      * exact IH.
Qed.

Lemma getTool_aliases (k' : string) (v : Tool) (aliases : list string) (r : Registry) :
  getTool k' (fold_left (fun r alias => map_set alias v r) aliases r)
  = if bool_decide (k' ∈ aliases) then Some v else getTool k' r.
Proof.
  revert r. induction aliases as [| a aliases IH]; intros r; [reflexivity |].
  cbn [fold_left]. rewrite IH, getTool_map_set.
  destruct (bool_decide (k' ∈ aliases)) eqn:Hin.
  - apply bool_decide_eq_true in Hin. rewrite bool_decide_eq_true_2; [reflexivity |].
    apply elem_of_cons. right. exact Hin.
  - apply bool_decide_eq_false in Hin. destruct (String.eqb_spec a k') as [-> | Hne].
    + rewrite bool_decide_eq_true_2; [reflexivity |]. apply elem_of_cons. left. reflexivity.
    + rewrite bool_decide_eq_false_2; [reflexivity |].
      intros H. apply elem_of_cons in H as [-> | H]; [congruence | exact (Hin H)].
Qed.

(** X19. [registerTool] refuses a tool without a name and nothing else.
    After it has registered a tool, [getTool] returns, under each alias, a
    copy of the tool that is marked as an alias and names the original;
    under the name of the tool it returns the tool itself, unless the tool
    lists its own name among its aliases, in which case the copy has
    replaced it; every other name resolves as it did before. *)
Theorem registerTool_then_getTool (r : Registry) (t : Tool) :
  (registerTool r t = None <-> tool_name t = "")
  /\ forall r', registerTool r t = Some r' ->
       (forall a, a ∈ default [] (tool_aliases t) -> getTool a r' = Some (alias_of t))
       /\ (tool_name t ∉ default [] (tool_aliases t) ->
           getTool (tool_name t) r' = Some t)
       /\ (forall k, k ∉ names_claimed t -> getTool k r' = getTool k r)
       /\ tool_isAlias (alias_of t) = true
       /\ tool_originalName (alias_of t) = Some (tool_name t).
Proof.
  unfold registerTool, truthy_str.
  destruct (String.eqb_spec (tool_name t) "") as [He | Hne]; cbn [negb].
  - split; [split; [intros _; exact He | reflexivity] | discriminate].
  - split; [split; [discriminate | intros He; congruence] |].
    intros r' [= <-].
    assert (Hget : forall k,
               getTool k (match tool_aliases t with
                          | Some aliases =>
                              fold_left (fun r alias => map_set alias (alias_of t) r)
                                aliases (map_set (tool_name t) t r)
                          | None => map_set (tool_name t) t r
                          end)
               = if bool_decide (k ∈ default [] (tool_aliases t)) then Some (alias_of t)
                 else if String.eqb (tool_name t) k then Some t else getTool k r).
    { intros k. destruct (tool_aliases t) as [aliases |]; cbn [default].
      - rewrite getTool_aliases, getTool_map_set. reflexivity.
      - rewrite getTool_map_set. rewrite bool_decide_eq_false_2; [reflexivity |].
        apply not_elem_of_nil. }
    split; [| split; [| split; [| split; reflexivity]]].
    + intros a Ha. rewrite Hget, bool_decide_eq_true_2 by exact Ha. reflexivity.
    + intros Hn. rewrite Hget, bool_decide_eq_false_2 by exact Hn.
      rewrite String.eqb_refl. reflexivity.
    + intros k Hk. unfold names_claimed in Hk. apply not_elem_of_cons in Hk as [Hk1 Hk2].
      rewrite Hget, bool_decide_eq_false_2 by exact Hk2.
      rewrite (proj2 (String.eqb_neq (tool_name t) k)) by congruence. reflexivity.
Qed.

Lemma map_set_fresh (k : string) (v : Tool) (r : Registry) :
  k ∉ r.*1 -> map_set k v r = r ++ [(k, v)].
Proof.
  induction r as [| [k0 v0] r IH]; intros Hk; [reflexivity |].
  cbn [fmap list_fmap fst] in Hk. apply not_elem_of_cons in Hk as [Hne Hk].
  cbn [map_set fst app]. rewrite (proj2 (String.eqb_neq k0 k)) by congruence.
  rewrite IH by exact Hk. reflexivity.
Qed.

Lemma aliases_fresh (v : Tool) (aliases : list string) (r : Registry) :
  NoDup aliases -> (forall a, a ∈ aliases -> a ∉ r.*1) ->
  fold_left (fun r alias => map_set alias v r) aliases r
  = r ++ map (fun a => (a, v)) aliases.
Proof.
  revert r. induction aliases as [| a aliases IH]; intros r Hnd Hfresh.
  - cbn. rewrite app_nil_r. reflexivity.
  - apply NoDup_cons in Hnd as [Ha Hnd]. cbn [fold_left map].
    rewrite map_set_fresh by (apply Hfresh; apply elem_of_cons; left; reflexivity).
    rewrite IH; [rewrite <- app_assoc; reflexivity | exact Hnd |].
    intros a' Ha'. rewrite fmap_app. intros Hin. apply elem_of_app in Hin as [Hin | Hin].
    + apply (Hfresh a'); [apply elem_of_cons; right; exact Ha' | exact Hin].
    + cbn in Hin. apply list_elem_of_singleton in Hin. subst a'. exact (Ha Ha').
Qed.

Lemma registerTool_fresh (r : Registry) (t : Tool) :
  tool_name t <> "" ->
  NoDup (names_claimed t) ->
  (forall k, k ∈ names_claimed t -> k ∉ r.*1) ->
  registerTool r t = Some (r ++ entries_of t).
Proof.
  intros Hname Hnd Hfresh. unfold registerTool, truthy_str.
  rewrite (proj2 (String.eqb_neq _ _) Hname). cbn [negb]. f_equal.
  unfold names_claimed in *. apply NoDup_cons in Hnd as [Hn Hnd].
  rewrite map_set_fresh by (apply Hfresh; apply elem_of_cons; left; reflexivity).
  unfold entries_of. destruct (tool_aliases t) as [aliases |]; cbn [default] in *;
    [| reflexivity].
  rewrite aliases_fresh; [rewrite <- app_assoc; reflexivity | exact Hnd |].
  intros a Ha. rewrite fmap_app. intros Hin. apply elem_of_app in Hin as [Hin | Hin].
  - apply (Hfresh a); [apply elem_of_cons; right; exact Ha | exact Hin].
  - cbn in Hin. apply list_elem_of_singleton in Hin. subst a. exact (Hn Ha).
Qed.

Lemma entries_of_keys (t : Tool) : (entries_of t).*1 = names_claimed t.
Proof.
  unfold entries_of, names_claimed. cbn [fmap list_fmap fst]. f_equal.
  induction (default [] (tool_aliases t)) as [| a l IH]; [reflexivity |].
  cbn. f_equal. exact IH.
Qed.

Lemma initialize_from (tools : list Tool) (r : Registry) :
  Forall (fun t => tool_name t <> "") tools ->
  NoDup (r.*1 ++ concat (map names_claimed tools)) ->
  fold_left (fun r tool => match r with
                           | Some r => registerTool r tool
                           | None => None
                           end) tools (Some r)
  = Some (r ++ concat (map entries_of tools)).
Proof.
  revert r. induction tools as [| t tools IH]; intros r Hnames Hnd.
  - cbn. rewrite app_nil_r. reflexivity.
  - apply Forall_cons in Hnames as [Hn Hnames]. cbn [fold_left map concat] in *.
    apply NoDup_app in Hnd as (Hr & Hdisj & Hnd).
    apply NoDup_app in Hnd as (Ht & Hdisj' & Hrest).
    rewrite registerTool_fresh; [| exact Hn | exact Ht |].
    + rewrite IH; [rewrite <- app_assoc; reflexivity | exact Hnames |].
      rewrite fmap_app, entries_of_keys, <- app_assoc.
      apply NoDup_app. split; [exact Hr | split].
      * exact Hdisj.
      * apply NoDup_app. split; [exact Ht | split; assumption].
    + intros k Hk Hin. apply (Hdisj k Hin). apply elem_of_app. left. exact Hk.
Qed.

Lemma getAllTools_entries (tools : list Tool) :
  Forall (fun t => tool_isAlias t = false) tools ->
  getAllTools (concat (map entries_of tools)) = tools.
Proof.
  unfold getAllTools. induction 1 as [| t tools Ht _ IH]; [reflexivity |].
  cbn [map concat]. rewrite fmap_app, filter_app, IH. unfold entries_of.
  cbn [fmap list_fmap snd]. rewrite filter_cons_True by exact Ht.
  cbn [app]. f_equal.
  induction (default [] (tool_aliases t)) as [| a l IHl]; [reflexivity |].
  cbn [map fmap list_fmap snd]. rewrite filter_cons_False by (cbn; discriminate).
  exact IHl.
Qed.

(** X20. [initializeTools] on tools that have names, are not marked as
    aliases and whose names and aliases are pairwise different: every
    tool is registered, the registry holds each tool under its name
    followed by a copy under each of its aliases, in the order of the
    tools, and [getAllTools] returns exactly the tools, in their order,
    with no alias among them. *)
Theorem initializeTools_lists_every_tool (tools : list Tool) :
  Forall (fun t => tool_name t <> "") tools ->
  Forall (fun t => tool_isAlias t = false) tools ->
  NoDup (concat (map names_claimed tools)) ->
  exists r,
    initializeTools tools = Some r
    /\ r = concat (map entries_of tools)
    /\ getAllTools r = tools
    /\ forall t, t ∈ tools ->
         getTool (tool_name t) r = Some t
         /\ forall a, a ∈ default [] (tool_aliases t) -> getTool a r = Some (alias_of t).
Proof.
  intros Hnames Halias Hnd. exists (concat (map entries_of tools)).
  split; [| split; [reflexivity | split; [apply getAllTools_entries, Halias |]]].
  - unfold initializeTools. exact (initialize_from tools [] Hnames Hnd).
  - assert (Hkeys : NoDup (concat (map entries_of tools)).*1).
    { clear Hnames Halias. revert Hnd.
      induction tools as [| t tools IH]; intros Hnd; [apply NoDup_nil_2 |].
      cbn [map concat] in *. rewrite fmap_app, entries_of_keys.
      apply NoDup_app in Hnd as (H1 & H2 & H3). apply NoDup_app.
      split; [exact H1 | split; [| exact (IH H3)]].
      intros k Hk Hin. apply (H2 k Hk). clear -Hin.
      induction tools as [| t' tools IH']; [inversion Hin |].
      cbn [map concat] in *. rewrite fmap_app, entries_of_keys in Hin.
      apply elem_of_app in Hin as [Hin | Hin]; apply elem_of_app; [left | right]; auto. }
    assert (Hfind : forall (l : Registry) k v,
               NoDup l.*1 -> (k, v) ∈ l -> getTool k l = Some v).
    { clear. intros l k v. unfold getTool.
      induction l as [| [k0 v0] l IH]; intros Hnd Hin; [inversion Hin |].
      cbn [fmap list_fmap fst] in Hnd. apply NoDup_cons in Hnd as [Hk0 Hnd].
      cbn [List.find fst]. apply elem_of_cons in Hin as [[= -> ->] | Hin].
      - rewrite String.eqb_refl. reflexivity.
      - destruct (String.eqb_spec k0 k) as [-> | Hne]; [| exact (IH Hnd Hin)].
        exfalso. apply Hk0. apply (list_elem_of_fmap_2 fst l (k, v)). exact Hin. }
    intros t Ht.
    assert (Hsub : forall e, e ∈ entries_of t -> e ∈ concat (map entries_of tools)).
    { intros e He. clear -Ht He. induction tools as [| t' tools IH]; [inversion Ht |].
      cbn [map concat]. apply elem_of_app. apply elem_of_cons in Ht as [-> | Ht];
        [left; exact He | right; exact (IH Ht)]. }
    split.
    + apply Hfind; [exact Hkeys |]. apply Hsub. unfold entries_of.
      apply elem_of_cons. left. reflexivity.
    + intros a Ha. apply Hfind; [exact Hkeys |]. apply Hsub. unfold entries_of.
      apply elem_of_cons. right.
      apply (list_elem_of_fmap_2 (fun a => (a, alias_of t)) _ a). exact Ha.
Qed.

Lemma initializeTools_lists_every_tool_witness :
  exists r,
    initializeTools [set_source_tool; list_sources_tool] = Some r
    /\ r = concat (map entries_of [set_source_tool; list_sources_tool])
    /\ getAllTools r = [set_source_tool; list_sources_tool]
    /\ forall t, t ∈ [set_source_tool; list_sources_tool] ->
         getTool (tool_name t) r = Some t
         /\ forall a, a ∈ default [] (tool_aliases t) -> getTool a r = Some (alias_of t).
Proof.
  apply (initializeTools_lists_every_tool [set_source_tool; list_sources_tool]).
  - repeat constructor; discriminate.
  - repeat constructor.
  - cbn. repeat (apply NoDup_cons; split; [rewrite ?elem_of_cons, elem_of_nil;
                                            intuition discriminate |]).
    apply NoDup_nil_2.
Defined.

(** ** Tools: volume *)

(** A level that names a member of [Object.prototype] is not refused:
    what [set_volume] then hands to [sendControl] is not a number. *)
Example set_volume_inherited_level :
  volume_db (LevelStr "Constructor") = inr (JObj FNil)
  /\ volume_db (LevelStr "loud")
     = inl "Invalid volume level. Use: mute, low, medium, high, max".
Proof. split; reflexivity. Qed.

Lemma lookup_literal_own (entries : list (string * Z)) (k : string) (v : Z) :
  lookup_literal entries k = Own v -> (k, v) ∈ entries.
Proof.
  unfold lookup_literal. destruct (List.find _ entries) as [[k' v'] |] eqn:Hf.
  - intros [= <-]. apply find_some in Hf as [Hin Hk]. cbn in Hk.
    apply String.eqb_eq in Hk. subst k'. apply list_elem_of_In. exact Hin.
  - destruct (inherited_key k); discriminate.
Qed.

Lemma sendControl_state (k c : string) (v : JsValue) (tid : string) (m : Manager) :
  state (sendControl k c v tid m).2 = state m.
Proof.
  unfold sendControl, fresh. destruct (_ || _); [reflexivity |].
  destruct (resolve_target _ _); reflexivity.
Qed.

Lemma sendControl_outbox (k c : string) (v : JsValue) (tid : string) (m : Manager) :
  outbox (sendControl k c v tid m).2 = outbox m
  \/ exists id,
       resolve_target k m = Some id
       /\ outbox (sendControl k c v tid m).2
          = outbox m ++ [MsgControlSet (controllerId (config m)) id c v tid].
Proof.
  unfold sendControl, fresh. destruct (_ || _); [left; reflexivity |].
  change (resolve_target k (set_nextId (S (nextId m)) m)) with (resolve_target k m).
  destruct (resolve_target k m) as [id |]; [| left; reflexivity].
  right. exists id. split; reflexivity.
Qed.

Section ToolProperties.

Variable JSON_parse : JsValue -> option JsValue.
Variable Number_of_string : string -> option Z.
Variable parseInt : string -> option Z.

(** X21. [set_volume] sends the mixer a gain between -100 and 10 dB, or
    nothing. For a level that is a number, or a string that does not name
    a member of [Object.prototype]: either the handler throws and the
    manager is as it was, or the one [sendControl] it calls is for the role
    ['mixer'], the control ['output.1.gain'] and a number from -100 to 10:
    the number clamped, or the value of the preset. *)
Theorem set_volume_gain_in_range (level : Level) (tid : string) (m : Manager) :
  (forall s, level = LevelStr s -> inherited_key (toLowerCase s) = false) ->
  (exists message, set_volume Number_of_string level tid m = (Threw message, m))
  \/ exists n,
       -100 <= n <= 10
       /\ (forall x, level = LevelNum x -> n = clamp (-100) 10 x)
       /\ (forall s, level = LevelStr s -> VOLUME_MAP (toLowerCase s) = Own n)
       /\ set_volume Number_of_string level tid m
          = (Awaiting (sendControl "mixer" "output.1.gain" (JNum n) tid m).1
               {| vr_level := JNum n;
                  vr_levelName := level_name Number_of_string 2 (JNum n) |},
             (sendControl "mixer" "output.1.gain" (JNum n) tid m).2).
Proof.
  intros Hplain. unfold set_volume. destruct level as [x | s |]; cbn [volume_db].
  - right. exists (clamp (-100) 10 x). split; [unfold clamp; lia |].
    split; [intros ? [= ->]; reflexivity |]. split; [discriminate |].
    destruct (sendControl _ _ _ _ _); reflexivity.
  - destruct (VOLUME_MAP (toLowerCase s)) as [v | |] eqn:Hv.
    + right. exists v. split.
      { apply lookup_literal_own in Hv. unfold volume_entries in Hv.
        rewrite !elem_of_cons, elem_of_nil in Hv.
        destruct Hv as [H | [H | [H | [H | [H | []]]]]];
          apply pair_equal_spec in H as [_ ->]; lia. }
      split; [discriminate |]. split; [intros ? [= <-]; exact Hv |].
      destruct (sendControl _ _ _ _ _); reflexivity.
    + exfalso. specialize (Hplain s eq_refl). unfold VOLUME_MAP, lookup_literal in Hv.
      destruct (List.find _ _); [discriminate |]. rewrite Hplain in Hv. discriminate.
    + left. eexists. reflexivity.
  - left. eexists. reflexivity.
Qed.

(** X22. What [set_volume] sets, [get_volume] reads back. When the
    bridge reports the gain a preset stands for, in a [control:update] for
    ['output.1.gain'], a [get_volume] within the TTL of the cache returns
    that gain and the name of the preset, the one [set_volume] itself
    returned for it: the presets lie far enough apart for both
    thresholds. *)
Theorem volume_preset_round_trip
    (s : string) (v : Z) (ctl : Control) (now now' : Z)
    (grace : list (Z * StateUpdate)) (tid : string) (m : Manager) :
  VOLUME_MAP (toLowerCase s) = Own v ->
  c_value ctl = JNum v ->
  now' - now <= TTL (state m) ->
  let m1 := (set_volume Number_of_string (LevelStr s) tid m).2 in
  let m2 := handleControlUpdate JSON_parse now
              {| cu_controlId := "output.1.gain"; cu_control := ctl |} m1 in
  (get_volume JSON_parse Number_of_string now' grace m2).1
  = {| vr_level := JNum v; vr_levelName := Some (toLowerCase s) |}
  /\ (get_volume JSON_parse Number_of_string now' grace m2).2 = m2
  /\ level_name Number_of_string 2 (JNum v) = Some (toLowerCase s).
Proof.
  intros Hv Hctl Httl. cbn zeta.
  assert (Hst : state (set_volume Number_of_string (LevelStr s) tid m).2 = state m).
  { unfold set_volume. cbn [volume_db]. rewrite Hv.
    pose proof (sendControl_state "mixer" "output.1.gain" (JNum v) tid m) as H.
    destruct (sendControl _ _ _ _ _). exact H. }
  set (m1 := (set_volume Number_of_string (LevelStr s) tid m).2) in *.
  unfold get_volume, getState.
  cbn [state handleControlUpdate notifyStateChange set_notified set_state timestamp TTL
       with_timestamp cu_controlId cu_control control_map String.eqb Ascii.eqb Bool.eqb
       set_field volumeLevel].
  rewrite Hst, Hctl.
  replace (now' - now >? TTL (state m)) with false
    by (symmetry; rewrite Z.gtb_ltb; apply Z.ltb_ge; lia).
  cbn [fst snd vr_level vr_levelName volumeLevel].
  apply lookup_literal_own in Hv. unfold volume_entries in Hv.
  rewrite !elem_of_cons, elem_of_nil in Hv.
  destruct Hv as [H | [H | [H | [H | [H | []]]]]];
    apply pair_equal_spec in H as [-> ->]; repeat split; reflexivity.
Qed.

End ToolProperties.

Lemma set_volume_gain_in_range_witness :
  (exists message,
     set_volume (fun _ => None) (LevelNum 50) "mcp-1-aaaa" ready_manager
     = (Threw message, ready_manager))
  \/ exists n,
       -100 <= n <= 10
       /\ (forall x, LevelNum 50 = LevelNum x -> n = clamp (-100) 10 x)
       /\ (forall s, LevelNum 50 = LevelStr s -> VOLUME_MAP (toLowerCase s) = Own n)
       /\ set_volume (fun _ => None) (LevelNum 50) "mcp-1-aaaa" ready_manager
          = (Awaiting (sendControl "mixer" "output.1.gain" (JNum n) "mcp-1-aaaa"
                         ready_manager).1
               {| vr_level := JNum n;
                  vr_levelName := level_name (fun _ => None) 2 (JNum n) |},
             (sendControl "mixer" "output.1.gain" (JNum n) "mcp-1-aaaa" ready_manager).2).
Proof.
  apply (set_volume_gain_in_range (fun _ => None) (LevelNum 50) "mcp-1-aaaa" ready_manager).
  intros s H. discriminate H.
Defined.

Lemma volume_preset_round_trip_witness :
  level_name (fun _ => None) 2 (JNum (-20)) = Some (toLowerCase "Medium").
Proof.
  refine (proj2 (proj2 (volume_preset_round_trip parse_fragment (fun _ => None)
                          "Medium" (-20)
                          {| c_string := JUndefined; c_value := JNum (-20) |}
                          10 20 [] "mcp-1-aaaa" (new_manager sample_config)
                          eq_refl eq_refl _))).
  cbn. lia.
Defined.

(** ** Tools: screen and video *)

Lemma resolve_source_range (parseInt : string -> option Z) (a : SourceArg) (s : Z) :
  resolve_source parseInt a = Some s -> 1 <= s <= 4.
Proof.
  unfold resolve_source.
  destruct (match a with SourceNum n => _ | SourceStr s0 => _ end) as [n |];
    [| discriminate].
  destruct (Z.ltb_spec n 1); cbn [orb]; [discriminate |].
  rewrite Z.gtb_ltb. destruct (Z.ltb_spec 4 n); [discriminate |].
  intros [= <-]. lia.
Qed.

Lemma match_window_command (s : Z) :
  1 <= s <= 4 -> match_W1S (window_command s) = Some s.
Proof.
  intros Hs. assert (H : s = 1 \/ s = 2 \/ s = 3 \/ s = 4) by lia.
  destruct H as [-> | [-> | [-> | ->]]]; reflexivity.
Qed.

Lemma SOURCE_NAMES_defined (s : Z) : 1 <= s <= 4 -> SOURCE_NAMES s <> None.
Proof.
  intros Hs. assert (H : s = 1 \/ s = 2 \/ s = 3 \/ s = 4) by lia.
  destruct H as [-> | [-> | [-> | ->]]]; discriminate.
Qed.

Lemma window_parts_spec (parseInt : string -> option Z) (windows : list Window) :
  forall (i : nat) (parts : list WindowPart),
  window_parts parseInt i windows = inr parts ->
  length parts = length windows
  /\ Forall part_in_range parts
  /\ forall j part, parts !! j = Some part -> wp_index part = Z.of_nat (i + j) + 1.
Proof.
  induction windows as [| win windows IH]; intros i parts; cbn [window_parts].
  - intros [= <-]. repeat split; [constructor |]. intros j part Hj. discriminate.
  - unfold window_part.
    destruct (resolve_source parseInt (win_source win)) as [s |] eqn:Hs; [| discriminate].
    destruct (window_parts parseInt (S i) windows) as [msg | rest] eqn:Hrest;
      [discriminate |].
    intros [= <-]. destruct (IH (S i) rest Hrest) as (Hlen & Hall & Hidx).
    apply resolve_source_range in Hs.
    split; [cbn; lia |]. split.
    + constructor; [| exact Hall]. unfold part_in_range, clamp. cbn. lia.
    + intros [| j] part Hj.
      * injection Hj as <-. cbn. lia.
      * cbn in Hj. rewrite (Hidx j part Hj). lia.
Qed.

Section VideoProperties.

Variable JSON_parse : JsValue -> option JsValue.
Variable parseInt : string -> option Z.

(** X23. [screen_power] is idempotent on what the bridge reports. When
    the cache holds the power state the bridge reported for the display,
    1 for on and 0 for off, a [screen_power] for that state within the TTL
    returns [alreadySet] and leaves the manager as it is, so nothing is
    sent; [get_screen_power] returns that state; and a [screen_power] for
    the other state calls [sendControl] once, for the role
    ['hdmiDisplay'], with 1 for on and 0 for off. *)
Theorem screen_power_is_idempotent
    (on : bool) (ctl : Control) (now now' : Z) (grace : list (Z * StateUpdate))
    (tid : string) (m : Manager) :
  c_value ctl = JNum (if on then 1 else 0) ->
  now' - now <= TTL (state m) ->
  let m1 := handleControlUpdate JSON_parse now
              {| cu_controlId := "hdmi.enabled.button"; cu_control := ctl |} m in
  screen_power JSON_parse on now' grace tid m1
  = (Returned {| pr_alreadySet := true; pr_enabled := on |}, m1)
  /\ get_screen_power JSON_parse now' grace m1 = (on, m1)
  /\ screen_power JSON_parse (negb on) now' grace tid m1
     = (Awaiting (sendControl "hdmiDisplay" "hdmi.enabled.button"
                    (JNum (if negb on then 1 else 0)) tid m1).1
          {| pr_alreadySet := false; pr_enabled := negb on |},
        (sendControl "hdmiDisplay" "hdmi.enabled.button"
           (JNum (if negb on then 1 else 0)) tid m1).2).
Proof.
  intros Hctl Httl m1.
  assert (Hget : getState JSON_parse now' grace m1 = (state m1, 0, m1)).
  { unfold getState.
    replace (now' - timestamp (state m1) >? TTL (state m1)) with false; [reflexivity |].
    symmetry. rewrite Z.gtb_ltb. apply Z.ltb_ge. exact Httl. }
  assert (Hpow : is_one (screenPower (state m1)) = on).
  { change (screenPower (state m1)) with (c_value ctl). rewrite Hctl.
    destruct on; reflexivity. }
  unfold screen_power, get_screen_power. rewrite Hget, Hpow.
  split; [rewrite Bool.eqb_reflx; reflexivity |]. split; [reflexivity |].
  replace (Bool.eqb on (negb on)) with false by (destruct on; reflexivity).
  destruct (sendControl _ _ _ _ _). reflexivity.
Qed.

(** X24. For a source given as a whole number or by a string of ASCII,
    [set_source] is idempotent on what [parseCurrentSource] reads. Such a
    source, when the handler accepts it, is a number from 1 to 4 and has a
    name. [parseCurrentSource] reads from the [WindowCommand] of a source
    that source. So when the cache holds that command as hardware state, a
    [set_source] for the source within the TTL returns [alreadySet] and
    leaves the manager as it is; a [set_source] for another such source
    calls [sendControl] once, for the role ['videoWall'], with the
    [WindowCommand] of that source. (A number with a fraction between 1
    and 4 passes the range test of the handler as well; nothing is said
    of it here.) *)
Theorem set_source_is_idempotent
    (a : SourceArg) (s : Z) (ctl : Control) (now now' : Z)
    (grace : list (Z * StateUpdate)) (tid : string) (m : Manager) :
  plain_source a = true ->
  resolve_source parseInt a = Some s ->
  c_value ctl = JStr (window_command s) ->
  now' - now <= TTL (state m) ->
  let m1 := handleControlUpdate JSON_parse now
              {| cu_controlId := "HardwareState"; cu_control := ctl |} m in
  1 <= s <= 4
  /\ SOURCE_NAMES s <> None
  /\ parseCurrentSource (JStr (window_command s)) = Some s
  /\ set_source JSON_parse parseInt a now' grace tid m1
     = (Returned {| sr_alreadySet := true; sr_source := s;
                    sr_sourceName := SOURCE_NAMES s |}, m1)
  /\ forall a' s',
       plain_source a' = true ->
       resolve_source parseInt a' = Some s' -> s' <> s ->
       set_source JSON_parse parseInt a' now' grace tid m1
       = (Awaiting (sendControl "videoWall" "WindowCommand"
                      (JStr (window_command s')) tid m1).1
            {| sr_alreadySet := false; sr_source := s';
               sr_sourceName := SOURCE_NAMES s' |},
          (sendControl "videoWall" "WindowCommand" (JStr (window_command s')) tid m1).2).
Proof.
  intros _ Ha Hctl Httl m1. pose proof (resolve_source_range _ _ _ Ha) as Hs.
  assert (Hget : getState JSON_parse now' grace m1 = (state m1, 0, m1)).
  { unfold getState.
    replace (now' - timestamp (state m1) >? TTL (state m1)) with false; [reflexivity |].
    symmetry. rewrite Z.gtb_ltb. apply Z.ltb_ge. exact Httl. }
  assert (Hparse : parseCurrentSource (JStr (window_command s)) = Some s).
  { unfold parseCurrentSource. cbn [truthy to_String].
    replace (negb (String.eqb (window_command s) "")) with true by reflexivity.
    apply match_window_command, Hs. }
  assert (Hhw : hardwareState (state m1) = JStr (window_command s)).
  { change (hardwareState (state m1)) with (c_value ctl). exact Hctl. }
  split; [exact Hs |]. split; [apply SOURCE_NAMES_defined, Hs |]. split; [exact Hparse |].
  split.
  - unfold set_source. rewrite Ha, Hget, Hhw, Hparse.
    rewrite bool_decide_eq_true_2 by reflexivity. reflexivity.
  - intros a' s' _ Ha' Hne. unfold set_source. rewrite Ha', Hget, Hhw, Hparse.
    rewrite bool_decide_eq_false_2 by congruence.
    destruct (sendControl _ _ _ _ _). reflexivity.
Qed.

(** X25. For windows whose source is a whole number or a string of ASCII
    and whose position, size and opacity are whole numbers or missing,
    [set_layout] sends a command that is well formed, or nothing. It
    throws, and leaves the manager as it is, exactly when there is no
    window, or more than four, or a window whose source is refused.
    Otherwise the command has one part per window, numbered from 1, with
    a source from 1 to 4, a position from 0 to 100, a size from 1 to 100
    and an alpha from 0 to 100; [parseCurrentSource] reads from it the
    source of the first window; and for a single window with a source
    only, the command is the one [set_source] sends for that source. (A
    number with a fraction passes the tests of the handler as well;
    nothing is said of it here.) *)
Theorem set_layout_command_is_well_formed
    (windows : list Window) (tid : string) (m : Manager) :
  (forall win, win ∈ windows -> plain_source (win_source win) = true) ->
  match layout_parts parseInt windows with
  | inl message =>
      set_layout parseInt windows tid m = (Threw message, m)
      /\ (windows = [] \/ (4 < length windows)%nat
          \/ exists win, win ∈ windows /\ resolve_source parseInt (win_source win) = None)
  | inr parts =>
      (1 <= length parts <= 4)%nat
      /\ length parts = length windows
      /\ Forall part_in_range parts
      /\ (forall j part, parts !! j = Some part -> wp_index part = Z.of_nat j + 1)
      /\ (exists first rest,
            parts = first :: rest
            /\ parseCurrentSource (JStr (layout_command parts)) = Some (wp_source first))
      /\ (forall a, windows = [whole_wall a] ->
            exists s, resolve_source parseInt a = Some s
                      /\ layout_command parts = window_command s)
      /\ set_layout parseInt windows tid m
         = (Awaiting (sendControl "videoWall" "WindowCommand"
                        (JStr (layout_command parts)) tid m).1 (length windows),
            (sendControl "videoWall" "WindowCommand"
               (JStr (layout_command parts)) tid m).2)
  end.
Proof.
  intros _.
  destruct (layout_parts parseInt windows) as [message | parts] eqn:Hl.
  - split; [unfold set_layout; rewrite Hl; reflexivity |].
    unfold layout_parts in Hl. destruct windows as [| w0 ws]; [left; reflexivity |].
    right. destruct (Nat.ltb_spec 4 (length (w0 :: ws))) as [Hgt | Hle]; [left; exact Hgt |].
    right. clear Hle. revert Hl. generalize 0%nat. generalize (w0 :: ws). clear.
    intros ws. induction ws as [| w ws IH]; intros i; cbn [window_parts]; [discriminate |].
    unfold window_part.
    destruct (resolve_source parseInt (win_source w)) eqn:Hs.
    + destruct (window_parts parseInt (S i) ws) eqn:Hrest; [| discriminate].
      intros [= ->]. destruct (IH (S i) Hrest) as (win & Hin & Hwin).
      exists win. split; [apply elem_of_cons; right; exact Hin | exact Hwin].
    + intros _. exists w. split; [apply elem_of_cons; left; reflexivity | exact Hs].
  - assert (Hparts : window_parts parseInt 0 windows = inr parts
                     /\ (1 <= length windows <= 4)%nat).
    { unfold layout_parts in Hl. destruct windows as [| w0 ws]; [discriminate |].
      destruct (Nat.ltb_spec 4 (length (w0 :: ws))); [discriminate |].
      split; [exact Hl | cbn in *; lia]. }
    destruct Hparts as [Hparts Hn].
    destruct (window_parts_spec parseInt windows 0 parts Hparts) as (Hlen & Hall & Hidx).
    split; [lia |]. split; [exact Hlen |]. split; [exact Hall |]. split; [exact Hidx |].
    split; [| split].
    + destruct parts as [| first rest]; [cbn in Hlen; lia |].
      exists first, rest. split; [reflexivity |].
      pose proof (Hidx 0%nat first eq_refl) as Hi. cbn in Hi.
      apply Forall_cons in Hall as [(Hsrc & _) _].
      assert (Hs : wp_source first = 1 \/ wp_source first = 2
                   \/ wp_source first = 3 \/ wp_source first = 4) by lia.
      unfold parseCurrentSource, layout_command. cbn [truthy to_String].
      destruct first as [idx src x y w h alpha]. cbn [wp_index wp_source] in *.
      subst idx.
      assert (Hr : (length rest <= 3)%nat) by (cbn in Hlen; lia).
      destruct rest as [| p2 [| p3 [| p4 [| p5 rest]]]]; [| | | | cbn in Hr; lia];
        destruct Hs as [-> | [-> | [-> | ->]]]; reflexivity.
    + intros a ->. cbn [window_parts] in Hparts. unfold window_part in Hparts.
      cbn [whole_wall win_source win_x win_y win_width win_height win_opacity] in Hparts.
      destruct (resolve_source parseInt a) as [s |]; [| discriminate].
      injection Hparts as <-. exists s. split; reflexivity.
    + unfold set_layout. rewrite Hl. destruct (sendControl _ _ _ _ _). reflexivity.
Qed.

End VideoProperties.

Lemma screen_power_is_idempotent_witness :
  get_screen_power parse_fragment 20 []
    (handleControlUpdate parse_fragment 10
       {| cu_controlId := "hdmi.enabled.button";
          cu_control := {| c_string := JUndefined; c_value := JNum 1 |} |}
       (new_manager sample_config))
  = (true,
     handleControlUpdate parse_fragment 10
       {| cu_controlId := "hdmi.enabled.button";
          cu_control := {| c_string := JUndefined; c_value := JNum 1 |} |}
       (new_manager sample_config)).
Proof.
  refine (proj1 (proj2 (screen_power_is_idempotent parse_fragment true
                          {| c_string := JUndefined; c_value := JNum 1 |}
                          10 20 [] "mcp-1-aaaa" (new_manager sample_config)
                          eq_refl _))).
  cbn. lia.
Defined.

Lemma set_source_is_idempotent_witness :
  parseCurrentSource (JStr (window_command 2)) = Some 2.
Proof.
  refine (proj1 (proj2 (proj2 (set_source_is_idempotent parse_fragment (fun _ => None)
                                 (SourceStr "ClickShare") 2
                                 {| c_string := JUndefined;
                                    c_value := JStr (window_command 2) |}
                                 10 20 [] "mcp-1-aaaa" (new_manager sample_config)
                                 eq_refl eq_refl eq_refl _)))).
  cbn. lia.
Defined.

Lemma set_layout_command_is_well_formed_witness :
  layout_command
    [{| wp_index := 1; wp_source := 2; wp_x := 0; wp_y := 0; wp_w := 100; wp_h := 100;
        wp_alpha := 0 |}]
  = window_command 2.
Proof.
  assert (Hplain : forall win, win ∈ [whole_wall (SourceStr "ClickShare")] ->
                     plain_source (win_source win) = true).
  { intros win ->%list_elem_of_singleton. reflexivity. }
  pose proof (set_layout_command_is_well_formed (fun _ => None)
                [whole_wall (SourceStr "ClickShare")] "mcp-1-aaaa"
                (new_manager sample_config) Hplain) as H.
  assert (Hl : layout_parts (fun _ => None) [whole_wall (SourceStr "ClickShare")]
               = inr [{| wp_index := 1; wp_source := 2; wp_x := 0; wp_y := 0;
                         wp_w := 100; wp_h := 100; wp_alpha := 0 |}]) by reflexivity.
  rewrite Hl in H. destruct H as (_ & _ & _ & _ & _ & H & _).
  destruct (H (SourceStr "ClickShare") eq_refl) as (s & Hs & Hcmd).
  injection Hs as <-. exact Hcmd.
Defined.

(** ** Voice: the errors of the manager, spoken *)

Lemma not_found_includes (w k : string) :
  w ∈ ["Timeout"; "timeout"; "Not connected"; "not connected"] ->
  includes w ("Component not found: " +:+ k) = includes w k.
Proof.
  rewrite !elem_of_cons, elem_of_nil. unfold includes.
  intros [-> | [-> | [-> | [-> | []]]]]; simpl; change ("" +:+ k) with k;
    match goal with |- context [index 0 ?w k] => destruct (index 0 w k) end;
    reflexivity.
Qed.

Lemma mapErrorToVoice_not_found (k : string) :
  plain_key k -> mapErrorToVoice ("Component not found: " +:+ k) = "Device not available.".
Proof.
  intros (H1 & H2 & H3 & H4). unfold mapErrorToVoice.
  rewrite !not_found_includes
    by (rewrite !elem_of_cons; repeat first [left; reflexivity | right]).
  rewrite H1, H2, H3, H4. reflexivity.
Qed.

(** X26. What the voice webhook says for the errors of the manager. A
    promise the manager rejects by a timeout (connection, identification,
    command, subscription) is answered with ['System not responding.']; a
    [sendControl] refused for lack of a connection with
    ['Connection lost.']; a [sendControl] refused because the component
    key does not resolve with ['Device not available.'], provided the key
    contains none of the words the mapping tests first, as is the case for
    the six role names. [sendControl] rejects at once with no other
    message. *)
Theorem manager_errors_spoken :
  (forall t m p message,
     (p, Reject message) ∈ settled (timer_callback t m) ->
     (p, Reject message) ∈ settled m
     \/ voice_error (Reject message) = Some "System not responding.")
  /\ (forall k c v tid m p message,
        (p, Reject message) ∈ settled (sendControl k c v tid m).2 ->
        (p, Reject message) ∈ settled m
        \/ (message = "Not connected"
            /\ voice_error (Reject message) = Some "Connection lost.")
        \/ (message = "Component not found: " +:+ k
            /\ resolve_target k m = None
            /\ (plain_key k ->
                voice_error (Reject message) = Some "Device not available.")))
  /\ Forall plain_key role_keys.
Proof.
  split; [| split].
  - intros t m p message Hin. destruct t; cbn [timer_callback settle settled set_settled] in Hin;
      apply elem_of_app in Hin as [Hin | Hin]; try (left; exact Hin);
      apply list_elem_of_singleton in Hin;
      first [discriminate Hin | injection Hin as _ ->; right; reflexivity].
  - intros k c v tid m p message. unfold sendControl, fresh.
    destruct (_ || _).
    + cbn [snd settle settled set_settled set_nextId]. intros Hin.
      apply elem_of_app in Hin as [Hin | Hin]; [left; exact Hin |].
      apply list_elem_of_singleton in Hin. injection Hin as _ ->.
      right. left. split; reflexivity.
    + change (resolve_target k (set_nextId (S (nextId m)) m)) with (resolve_target k m).
      destruct (resolve_target k m) as [id |] eqn:Ht.
      * cbn [snd]. intros Hin. left. exact Hin.
      * cbn [snd settle settled set_settled set_nextId]. intros Hin.
        apply elem_of_app in Hin as [Hin | Hin]; [left; exact Hin |].
        apply list_elem_of_singleton in Hin. injection Hin as _ ->.
        right. right. split; [reflexivity | split; [reflexivity |]].
        intros Hk. cbn [voice_error]. rewrite mapErrorToVoice_not_found by exact Hk.
        reflexivity.
  - unfold role_keys, plain_key. repeat constructor.
Qed.
